(** * A multinomial Naive Bayes text classifier: the [NaiveBayes] class of
      scripts/preprocessing.ipynb

    The class keeps five attributes, trains them from a matrix of term
    counts and a vector of labels ([train]), and labels new count rows by
    the class of best log-probability ([predict]).

    How the Python is rendered here:

    - an attribute that is a [dict] (or [defaultdict]) is an association
      list in insertion order with Python's [__getitem__]/[__setitem__]
      written out; the order matters, since [predict] walks
      [self.class_prior] and [max] keeps the first best key;
    - a method is a state transformer on the object that may raise; as in
      Python, what a method has already written stays written when it
      raises;
    - the entries of the arrays are mathematical integers (the class fixes
      no dtype), the probabilities are exact rationals kept in lowest
      terms, where numpy computes in float64;
    - the scores of [predict] live in an interface [LogFloat] ([np.log],
      [+] and [>] on scores); it is instantiated by the real logarithm and
      by an exact, computable image of it. *)

From Stdlib Require Import List ZArith QArith Qreduction Reals Lia Lra Bool Arith Sorted.
Import ListNotations.

Close Scope R_scope.
Close Scope Q_scope.

Set Implicit Arguments.

(** ** Python dictionaries *)

Class Hashable (K : Type) := {
  key_eqb : K -> K -> bool;
  key_eqb_eq : forall a b, key_eqb a b = true <-> a = b
}.

#[export] Instance Hashable_Z : Hashable Z :=
  {| key_eqb := Z.eqb; key_eqb_eq := Z.eqb_eq |}.

#[export] Instance Hashable_nat : Hashable nat :=
  {| key_eqb := Nat.eqb; key_eqb_eq := Nat.eqb_eq |}.

Section Dict.
Context {K V : Type} `{Hashable K}.

(** A [dict]: the items in insertion order. *)
Definition dict := list (K * V).

(** [d.get(k)] *)
Fixpoint dict_get (k : K) (d : dict) : option V :=
  match d with
  | [] => None
  | (k', v) :: d' => if key_eqb k k' then Some v else dict_get k d'
  end.

(** [d[k] = v]: a key already there keeps its place, a new one goes last. *)
Fixpoint dict_set (k : K) (v : V) (d : dict) : dict :=
  match d with
  | [] => [(k, v)]
  | (k', v') :: d' =>
      if key_eqb k k' then (k', v) :: d' else (k', v') :: dict_set k v d'
  end.

(** [list(d)]: the keys, in iteration order. *)
Definition dict_keys (d : dict) : list K := map fst d.
End Dict.

Arguments dict : clear implicits.

(** ** Data *)

(** A two-dimensional array of integers, [int64] as the vectorizer makes
    them: [shape1] is [X.shape[1]], the rows are what [for x in X] yields,
    [X.shape[0]] is their number.  An array of numpy has every row of
    length [shape1] ([ndarray_wf]). *)
Record ndarray := mk_ndarray { shape1 : nat; rows : list (list Z) }.

Definition ndarray_wf (X : ndarray) : bool :=
  forallb (fun r => Nat.eqb (length r) (shape1 X)) (rows X).

(** An inner table of [self.likelihood]: [has_default] tells a
    [defaultdict(lambda: 0)] from the plain [dict] that the comprehension
    of [train] puts in its place. *)
Record inner_dict := mk_inner { has_default : bool; items : dict nat Q }.

Record NaiveBayes := mk_NaiveBayes {
  class_prior : dict Z Q;
  likelihood : dict Z inner_dict;
  classes : list Z;
  class_word_counts : dict Z Z;
  vocab_size : nat
}.

(** [NaiveBayes()] *)
Definition __init__ : NaiveBayes :=
  {| class_prior := [];
     likelihood := [];
     classes := [];
     class_word_counts := [];
     vocab_size := 0 |}.

(** ** Exceptions and methods *)

(** [IndexError], [KeyError] and [ValueError] are what numpy and Python
    raise in the two methods.  [InvalidInputError] and
    [UntrainedModelError] are the error kinds of the design document; no
    statement of the class raises them. *)
Inductive exn :=
| IndexError | KeyError | ValueError | InvalidInputError | UntrainedModelError.

Inductive outcome (A : Type) :=
| Return (a : A)
| Raise (e : exn).

Arguments Return {A} a.
Arguments Raise {A} e.

(** A method body: it reads and writes [self], and returns or raises. *)
Definition M (A : Type) := NaiveBayes -> outcome A * NaiveBayes.

Definition ret {A} (a : A) : M A := fun self => (Return a, self).

Definition raise {A} (e : exn) : M A := fun self => (Raise e, self).

Definition bind {A B} (f : M A) (g : A -> M B) : M B :=
  fun self =>
    match f self with
    | (Return a, self') => g a self'
    | (Raise e, self') => (Raise e, self')
    end.

Definition lift {A} (o : outcome A) : M A := fun self => (o, self).

Definition gets {A} (f : NaiveBayes -> A) : M A := fun self => (Return (f self), self).

Definition modify (f : NaiveBayes -> NaiveBayes) : M unit :=
  fun self => (Return tt, f self).

Declare Scope method_scope.
Delimit Scope method_scope with method.
Notation "x <- f ;; g" := (bind f (fun x => g))
  (at level 61, f at next level, right associativity) : method_scope.
Notation "f ;; g" := (bind f (fun _ => g))
  (at level 61, right associativity) : method_scope.
Local Open Scope method_scope.

(** [for a in l: body(a)] *)
Fixpoint for_each {A} (l : list A) (body : A -> M unit) : M unit :=
  match l with
  | [] => ret tt
  | a :: l' => body a ;; for_each l' body
  end.

(** A loop that carries a local variable. *)
Fixpoint for_acc {A B} (l : list A) (acc : B) (body : B -> A -> M B) : M B :=
  match l with
  | [] => ret acc
  | a :: l' => acc' <- body acc a ;; for_acc l' acc' body
  end.

(** *** Attribute updates *)

Definition set_class_prior (d : dict Z Q) (self : NaiveBayes) : NaiveBayes :=
  {| class_prior := d;
     likelihood := likelihood self;
     classes := classes self;
     class_word_counts := class_word_counts self;
     vocab_size := vocab_size self |}.

Definition set_likelihood (d : dict Z inner_dict) (self : NaiveBayes) : NaiveBayes :=
  {| class_prior := class_prior self;
     likelihood := d;
     classes := classes self;
     class_word_counts := class_word_counts self;
     vocab_size := vocab_size self |}.

Definition set_classes (l : list Z) (self : NaiveBayes) : NaiveBayes :=
  {| class_prior := class_prior self;
     likelihood := likelihood self;
     classes := l;
     class_word_counts := class_word_counts self;
     vocab_size := vocab_size self |}.

Definition set_class_word_counts (d : dict Z Z) (self : NaiveBayes) : NaiveBayes :=
  {| class_prior := class_prior self;
     likelihood := likelihood self;
     classes := classes self;
     class_word_counts := d;
     vocab_size := vocab_size self |}.

Definition set_vocab_size (n : nat) (self : NaiveBayes) : NaiveBayes :=
  {| class_prior := class_prior self;
     likelihood := likelihood self;
     classes := classes self;
     class_word_counts := class_word_counts self;
     vocab_size := n |}.

(** *** The item accesses of the two methods *)

(** [defaultdict(lambda: 0)], empty: what the outer factory makes. *)
Definition new_inner : inner_dict := {| has_default := true; items := [] |}.

(** [self.class_prior[c] = p] *)
Definition class_prior_setitem (c : Z) (p : Q) : M unit :=
  modify (fun self => set_class_prior (dict_set c p (class_prior self)) self).

(** [self.class_prior[c]], a plain [dict]. *)
Definition class_prior_getitem (c : Z) : M Q :=
  fun self =>
    match dict_get c (class_prior self) with
    | Some p => (Return p, self)
    | None => (Raise KeyError, self)
    end.

(** [self.class_word_counts[c] = n] *)
Definition class_word_counts_setitem (c : Z) (n : Z) : M unit :=
  modify (fun self =>
    set_class_word_counts (dict_set c n (class_word_counts self)) self).

(** [self.class_word_counts[c]], a [defaultdict(int)]: a missing key is
    entered with 0. *)
Definition class_word_counts_getitem (c : Z) : M Z :=
  fun self =>
    match dict_get c (class_word_counts self) with
    | Some n => (Return n, self)
    | None =>
        (Return 0%Z,
         set_class_word_counts (dict_set c 0%Z (class_word_counts self)) self)
    end.

(** [self.likelihood[c]]: the outer [defaultdict] enters a fresh inner
    table under a missing key. *)
Definition likelihood_getitem (c : Z) : M inner_dict :=
  fun self =>
    match dict_get c (likelihood self) with
    | Some d => (Return d, self)
    | None =>
        (Return new_inner,
         set_likelihood (dict_set c new_inner (likelihood self)) self)
    end.

(** [self.likelihood[c] = d] *)
Definition likelihood_setitem (c : Z) (d : inner_dict) : M unit :=
  modify (fun self => set_likelihood (dict_set c d (likelihood self)) self).

(** [self.likelihood[c][word_idx] = v]: the inner table is an object held
    by the outer one, so the write shows in [self.likelihood]. *)
Definition likelihood_setitem2 (c : Z) (word_idx : nat) (v : Q) : M unit :=
  d <- likelihood_getitem c ;;
  likelihood_setitem c
    {| has_default := has_default d; items := dict_set word_idx v (items d) |}.

(** [self.likelihood[c][word_idx]]: a plain inner table raises on a
    missing index, a [defaultdict] one enters 0 and returns it. *)
Definition likelihood_getitem2 (c : Z) (word_idx : nat) : M Q :=
  d <- likelihood_getitem c ;;
  match dict_get word_idx (items d) with
  | Some v => ret v
  | None =>
      if has_default d then
        likelihood_setitem c
          {| has_default := true; items := dict_set word_idx 0%Q (items d) |} ;;
        ret 0%Q
      else raise KeyError
  end.

(** ** numpy *)

(** [np.unique(Y)]: the distinct values, ascending. *)
Fixpoint insert_unique (z : Z) (l : list Z) : list Z :=
  match l with
  | [] => [z]
  | h :: t =>
      if (z <? h)%Z then z :: l
      else if (z =? h)%Z then l
      else h :: insert_unique z t
  end.

Definition np_unique (Y : list Z) : list Z := fold_right insert_unique [] Y.

(** [Y == c] *)
Definition np_equal (Y : list Z) (c : Z) : list bool :=
  map (fun y => (y =? c)%Z) Y.

(** numpy's [/] on numbers; the quotient is kept in lowest terms, so that
    equal values are equal terms.  (Where the divisor is 0 numpy warns and
    gives inf or nan, and [Qdiv] gives 0: [train] divides by 0 only when
    the counts are negative, [V = 0], or a total has wrapped around to
    [-V].) *)
Definition true_divide (a b : Q) : Q := Qred (a / b).

(** [np.mean(mask)] of a boolean vector: the share of [True]. *)
Definition np_mean (mask : list bool) : Q :=
  true_divide (inject_Z (Z.of_nat (count_occ bool_dec mask true)))
              (inject_Z (Z.of_nat (length mask))).

(** [X[mask]]: the rows under a [True]; numpy raises [IndexError] when the
    mask has not one entry per row. *)
Fixpoint select {A} (mask : list bool) (l : list A) : list A :=
  match mask, l with
  | b :: mask', a :: l' => if b then a :: select mask' l' else select mask' l'
  | _, _ => []
  end.

Definition boolean_index (X : ndarray) (mask : list bool) : outcome ndarray :=
  if Nat.eqb (length mask) (length (rows X))
  then Return {| shape1 := shape1 X; rows := select mask (rows X) |}
  else Raise IndexError.

(** The counts are numpy's [int64]: a sum or a [+] whose result does not
    fit in 64 bits wraps around.  [int64 z] is the number that is kept
    for the result [z]. *)
Definition int64 (z : Z) : Z :=
  ((z + 9223372036854775808) mod 18446744073709551616
   - 9223372036854775808)%Z.

(** The sum of a list of integers, and [np.sum] of a vector and of an
    array of [int64]. *)
Definition sum_Z (l : list Z) : Z := fold_right Z.add 0%Z l.

Definition np_sum1 (v : list Z) : Z := int64 (sum_Z v).

Definition np_sum (X : ndarray) : Z := int64 (sum_Z (map sum_Z (rows X))).

(** [X[:, j]] (for [j < X.shape[1]], as [train] has it). *)
Definition column (X : ndarray) (j : nat) : list Z :=
  map (fun r => nth j r 0%Z) (rows X).

(** ** Scores *)

(** What [predict] does with floats: [np.log] of a probability, [+=] on
    the running score, and the [>] by which [max] compares two scores. *)
Class LogFloat (F : Type) := {
  np_log : Q -> F;
  fadd : F -> F -> F;
  fgt : F -> F -> bool
}.

(** ** [train] *)

(** The body of the second [for c in self.classes]. *)
Definition train_class (X : ndarray) (Y : list Z) (c : Z) : M unit :=
  class_sample <- lift (boolean_index X (np_equal Y c)) ;;
  class_word_counts_setitem c (np_sum class_sample) ;;
  V <- gets vocab_size ;;
  for_each (seq 0 V) (fun word_idx =>
    likelihood_setitem2 c word_idx
      (inject_Z (int64 (np_sum1 (column class_sample word_idx) + 1)))) ;;
  d <- likelihood_getitem c ;;
  normalised <- for_acc (dict_keys (items d)) [] (fun acc word_idx =>
    v <- likelihood_getitem2 c word_idx ;;
    n <- class_word_counts_getitem c ;;
    V <- gets vocab_size ;;
    ret (dict_set word_idx
           (true_divide v (inject_Z (int64 (n + Z.of_nat V)))) acc)) ;;
  likelihood_setitem c {| has_default := false; items := normalised |}.

Definition train (X : ndarray) (Y : list Z) : M unit :=
  modify (set_classes (np_unique Y)) ;;
  modify (set_vocab_size (shape1 X)) ;;
  cs <- gets classes ;;
  for_each cs (fun c => class_prior_setitem c (np_mean (np_equal Y c))) ;;
  cs <- gets classes ;;
  for_each cs (train_class X Y).

(** ** [predict] *)

Section Predict.
Context {F : Type} `{LogFloat F}.

(** The body of [for c in self.class_prior]: the value of [log_prob]. *)
Definition log_prob_of (x : list Z) (c : Z) : M F :=
  p <- class_prior_getitem c ;;
  for_acc (seq 0 (length x)) (np_log p) (fun log_prob word_idx =>
    if (nth word_idx x 0 >? 0)%Z then
      v <- likelihood_getitem2 c word_idx ;;
      ret (fadd log_prob (np_log v))
    else ret log_prob).

(** The step of [max]: the best item so far gives way to a later one only
    when the value of that one is [>]. *)
Definition keep_max (best item : Z * F) : Z * F :=
  if fgt (snd item) (snd best) then item else best.

(** [max(class_probs, key=class_probs.get)]: [ValueError] on an empty
    dictionary; otherwise the first key, unless later ones do better.  The
    keys of a dictionary are distinct, so [class_probs.get] gives for each
    key the value that stands with it. *)
Definition py_max (class_probs : dict Z F) : outcome Z :=
  match class_probs with
  | [] => Raise ValueError
  | first :: others => Return (fst (fold_left keep_max others first))
  end.

(** The body of [for x in X]: the label appended to [predictions]. *)
Definition predict_row (x : list Z) : M Z :=
  cs <- gets (fun self => dict_keys (class_prior self)) ;;
  class_probs <- for_acc cs [] (fun class_probs c =>
    log_prob <- log_prob_of x c ;;
    ret (dict_set c log_prob class_probs)) ;;
  lift (py_max class_probs).

Definition predict (X : ndarray) : M (list Z) :=
  for_acc (rows X) [] (fun predictions x =>
    label <- predict_row x ;;
    ret (predictions ++ [label])).
End Predict.

(** *** Two readings of the scores *)

(** The real logarithm.  ([ln] is 0 on what is not positive, where numpy
    gives -inf or nan; a model trained on counts whose sums fit in
    [int64] holds positive probabilities only.) *)
#[export] Instance RealLog : LogFloat R := {|
  np_log q := ln (Q2R q);
  fadd := Rplus;
  fgt a b := if Rgt_dec a b then true else false
|}.

(** The same scores seen through [exp]: a score is kept as the rational
    whose logarithm it is, so [+] is the product and [>] is the order of
    [Q].  It computes. *)
Definition ExpLog : LogFloat Q := {|
  np_log q := q;
  fadd := Qmult;
  fgt a b := negb (Qle_bool a b)
|}.

(** ** What [train] leaves in [self] *)

(** The inner table that [self.likelihood[c]] yields. *)
Definition inner_of (c : Z) (self : NaiveBayes) : inner_dict :=
  match dict_get c (likelihood self) with
  | Some d => d
  | None => new_inner
  end.

(** The rows of [X] labelled [c]. *)
Definition class_sample_of (X : ndarray) (Y : list Z) (c : Z) : ndarray :=
  {| shape1 := shape1 X; rows := select (np_equal Y c) (rows X) |}.

(** An inner table after the loop over [range(self.vocab_size)]. *)
Definition counted (sample : ndarray) (V : nat) (its : dict nat Q) : dict nat Q :=
  fold_left
    (fun acc j =>
       dict_set j (inject_Z (int64 (np_sum1 (column sample j) + 1))) acc)
    (seq 0 V) its.

Definition item_or_0 (j : nat) (its : dict nat Q) : Q :=
  match dict_get j its with Some v => v | None => 0%Q end.

(** The table that the comprehension builds from an inner table. *)
Definition normalised (den : Q) (its : dict nat Q) : dict nat Q :=
  fold_left
    (fun acc j => dict_set j (true_divide (item_or_0 j its) den) acc)
    (dict_keys its) [].

(** The inner table that the body of the second loop stores for [c], from
    the inner table [old] it found there. *)
Definition class_table (X : ndarray) (Y : list Z) (V : nat) (old : inner_dict)
    (c : Z) : inner_dict :=
  {| has_default := false;
     items := normalised
                (inject_Z (int64 (np_sum (class_sample_of X Y c) + Z.of_nat V)))
                (counted (class_sample_of X Y c) V (items old)) |}.

(** [self] after the body of the second loop, for class [c]. *)
Definition trained_class (X : ndarray) (Y : list Z) (self : NaiveBayes) (c : Z)
  : NaiveBayes :=
  set_likelihood
    (dict_set c (class_table X Y (vocab_size self) (inner_of c self) c)
       (likelihood self))
    (set_class_word_counts
       (dict_set c (np_sum (class_sample_of X Y c)) (class_word_counts self))
       self).

(** [self] after [train(X, Y)]. *)
Definition trained_state (X : ndarray) (Y : list Z) (self : NaiveBayes)
  : NaiveBayes :=
  fold_left (trained_class X Y) (np_unique Y)
    (set_class_prior
       (fold_left (fun d c => dict_set c (np_mean (np_equal Y c)) d)
          (np_unique Y) (class_prior self))
       (set_vocab_size (shape1 X) (set_classes (np_unique Y) self))).

(** ** The quantities of the design document *)

(** The training rows labelled [c]. *)
Definition rows_of_class (X : ndarray) (Y : list Z) (c : Z) : list (list Z) :=
  map snd (filter (fun p => (fst p =? c)%Z) (combine Y (rows X))).

(** [r(c, j)]: the sum of entry [j] over the rows labelled [c]. *)
Definition raw_count (X : ndarray) (Y : list Z) (c : Z) (j : nat) : Z :=
  sum_Z (map (fun row => nth j row 0%Z) (rows_of_class X Y c)).

(** The sum of all entries of the rows labelled [c]. *)
Definition class_term_total (X : ndarray) (Y : list Z) (c : Z) : Z :=
  sum_Z (map sum_Z (rows_of_class X Y c)).

(** The number of documents labelled [c]. *)
Definition class_size (Y : list Z) (c : Z) : nat := count_occ Z.eq_dec Y c.

(** The precondition of [train]: one label per row, [N >= 1], [V >= 1],
    rows of length [V], counts that are not negative. *)
Definition valid_input (X : ndarray) (Y : list Z) : bool :=
  Nat.eqb (length Y) (length (rows X))
  && Nat.leb 1 (length Y)
  && Nat.leb 1 (shape1 X)
  && ndarray_wf X
  && forallb (forallb (fun z => (0 <=? z)%Z)) (rows X).

(** The counts of class [c] fit: its total plus [V], the largest number
    that [train] computes for the class, is below [2^63], so that no sum
    wraps around.  And the counts of every class fit. *)
Definition class_fits (X : ndarray) (Y : list Z) (c : Z) : bool :=
  (class_term_total X Y c + Z.of_nat (shape1 X) <? 9223372036854775808)%Z.

Definition fits_int64 (X : ndarray) (Y : list Z) : bool :=
  forallb (class_fits X Y) (np_unique Y).

(** The stored prior of a class and the stored likelihood of a term in a
    class (0 where nothing is stored), and the sum of a list of rationals. *)
Definition prior_of (self : NaiveBayes) (c : Z) : Q :=
  match dict_get c (class_prior self) with Some p => p | None => 0%Q end.

Definition likelihood_of (self : NaiveBayes) (c : Z) (j : nat) : Q :=
  item_or_0 j (items (inner_of c self)).

Definition sum_Q (l : list Q) : Q := fold_right Qplus 0%Q l.

(** The training set of the design document's scenario. *)
Definition example_X : ndarray := {| shape1 := 2; rows := [[2; 0]; [0; 3]]%Z |}.
Definition example_Y : list Z := [0; 1]%Z.

(** ** Notions for the statements about [predict] *)

Section Scores.
Context {F : Type} `{LogFloat F}.

(** The log-space score of class [c] for the row [x]: the logarithm of the
    prior, plus the logarithm of the likelihood of every term whose entry
    in [x] is positive, each once, in index order. *)
Definition score (self : NaiveBayes) (x : list Z) (c : Z) : F :=
  fold_left (fun acc j => fadd acc (np_log (likelihood_of self c j)))
    (filter (fun j => (nth j x 0 >? 0)%Z) (seq 0 (length x)))
    (np_log (prior_of self c)).

(** [c] is the first of [cs] whose value under [f] is maximal: it beats
    everything before it, and nothing after it beats it. *)
Definition first_max {A} (f : A -> F) (cs : list A) (c : A) : Prop :=
  exists before after,
    cs = before ++ c :: after /\
    (forall c', In c' before -> fgt (f c) (f c') = true) /\
    (forall c', In c' after -> fgt (f c') (f c) = false).
End Scores.

(** What [max] needs of [>] to find a maximum: a strict order whose
    incomparability is transitive, as [>] is on floats that are not nan. *)
Class LogFloatOrder (F : Type) {L : LogFloat F} : Prop := {
  fgt_asym : forall a b : F, fgt a b = true -> fgt b a = false;
  fgt_cotrans : forall a b c : F, fgt a b = true -> fgt a c = true \/ fgt c b = true
}.

Arguments LogFloatOrder F {L}.

(** Two rows with the same positions of positive entries. *)
Definition same_presence (x x' : list Z) : Prop :=
  map (fun v => (v >? 0)%Z) x = map (fun v => (v >? 0)%Z) x'.

(** A trained model: a new object on which [train] was called, once or
    several times, on valid input. *)
Inductive trained : NaiveBayes -> Prop :=
| trained_first X Y m :
    valid_input X Y = true ->
    train X Y __init__ = (Return tt, m) -> trained m
| trained_again X Y m0 m :
    trained m0 -> valid_input X Y = true ->
    train X Y m0 = (Return tt, m) -> trained m.

(** Every class that [predict] visits has a plain inner table. *)
Definition plain_tables (self : NaiveBayes) : Prop :=
  forall c, In c (dict_keys (class_prior self)) ->
    exists d, dict_get c (likelihood self) = Some d /\ has_default d = false.

(** The model trained on the scenario, and the row to label. *)
Definition example_model : NaiveBayes :=
  snd (train example_X example_Y __init__).

Definition example_test : ndarray := {| shape1 := 2; rows := [[1; 0]]%Z |}.

(** ** Comparing two readings of the scores *)

(** A stored probability that is positive. *)
Definition positive_value {K : Type} (kv : K * Q) : bool :=
  negb (Qle_bool (snd kv) 0).

(** The tables of a model hold positive values only. *)
Definition positive_tables (self : NaiveBayes) : bool :=
  forallb (fun cd => forallb positive_value (items (snd cd))) (likelihood self).

(** A model that [predict] can score in both readings: every class of
    [self.class_prior] has a plain table, and every stored probability is
    positive. *)
Definition readable (self : NaiveBayes) : bool :=
  forallb (fun c => match dict_get c (likelihood self) with
                    | Some d => negb (has_default d)
                    | None => false
                    end) (dict_keys (class_prior self))
  && forallb positive_value (class_prior self)
  && positive_tables self.

(** Two outcomes of a method body run on [self] that left [self] as it
    was, and agree up to [R] on what they return. *)
Definition agree {B1 B2} (R : B1 -> B2 -> Prop) (self : NaiveBayes)
    (r1 : outcome B1 * NaiveBayes) (r2 : outcome B2 * NaiveBayes) : Prop :=
  snd r1 = self /\ snd r2 = self /\
  match fst r1, fst r2 with
  | Return a, Return b => R a b
  | Raise e, Raise e' => e = e'
  | _, _ => False
  end.

(** Two items of dictionaries of scores: the same key, related values. *)
Definition item_rel {F1 F2 : Type} (rel : F1 -> F2 -> Prop)
    (p1 : Z * F1) (p2 : Z * F2) : Prop :=
  fst p1 = fst p2 /\ rel (snd p1) (snd p2).

(** A real score and the rational it is the logarithm of. *)
Definition log_of (r : R) (q : Q) : Prop := (0 < q)%Q /\ r = ln (Q2R q).

(** ** Retraining *)

(** A first training set with the labels 0 and 1, a second one with the
    label 0 only, and a row that has the second term only. *)
Definition first_X : ndarray := {| shape1 := 2; rows := [[5; 0]; [0; 5]]%Z |}.
Definition first_Y : list Z := [0; 1]%Z.
Definition second_X : ndarray := {| shape1 := 2; rows := [[5; 0]]%Z |}.
Definition second_Y : list Z := [0]%Z.
Definition second_term_only : ndarray := {| shape1 := 2; rows := [[0; 1]]%Z |}.

(** The object trained twice, and a new object trained on the second set
    only. *)
Definition retrained : NaiveBayes :=
  snd (train second_X second_Y (snd (train first_X first_Y __init__))).

Definition trained_afresh : NaiveBayes :=
  snd (train second_X second_Y __init__).

(** A training set with one class whose total is [2^63]: each entry fits
    in [int64], their sum does not. *)
Definition overflow_X : ndarray :=
  {| shape1 := 2;
     rows := [[4611686018427387904; 4611686018427387904]]%Z |}.
Definition overflow_Y : list Z := [0]%Z.

(** A first training set with the label 1 only, a second one with the
    labels 0 and 1, each with the one term once, and a row with that
    term. *)
Definition tie_first_X : ndarray := {| shape1 := 1; rows := [[1]]%Z |}.
Definition tie_first_Y : list Z := [1]%Z.
Definition tie_second_X : ndarray := {| shape1 := 1; rows := [[1]; [1]]%Z |}.
Definition tie_second_Y : list Z := [0; 1]%Z.
Definition tie_row : ndarray := {| shape1 := 1; rows := [[1]]%Z |}.

Definition retrained_tie : NaiveBayes :=
  snd (train tie_second_X tie_second_Y
         (snd (train tie_first_X tie_first_Y __init__))).

Definition trained_tie : NaiveBayes :=
  snd (train tie_second_X tie_second_Y __init__).

(** A row has a positive entry at an index that is no term of the
    vocabulary of size [V]. *)
Definition beyond (V : nat) (x : list Z) : bool :=
  existsb (fun j => Nat.leb V j && (nth j x 0 >? 0)%Z) (seq 0 (length x)).

From Stdlib Require Import Permutation.

(** ** More about the two methods *)

(** The keys of a dictionary after [d[k] = ...]. *)
Definition keys_add {K : Type} `{Hashable K} (ks : list K) (k : K) : list K :=
  if existsb (key_eqb k) ks then ks else ks ++ [k].

(** The table of class [c] in a new object trained on [X], [Y], with the
    sums taken exactly, as the design document has them. *)
Definition fresh_table (X : ndarray) (Y : list Z) (c : Z) : inner_dict :=
  {| has_default := false;
     items :=
       map (fun j =>
              (j, true_divide
                    (inject_Z (raw_count X Y c j + 1))
                    (inject_Z (class_term_total X Y c + Z.of_nat (shape1 X)))))
           (seq 0 (shape1 X)) |}.

(** A new object trained on [X], [Y], attribute by attribute, likewise. *)
Definition fresh_model (X : ndarray) (Y : list Z) : NaiveBayes :=
  {| class_prior :=
       map (fun c =>
              (c, true_divide (inject_Z (Z.of_nat (class_size Y c)))
                              (inject_Z (Z.of_nat (length Y)))))
           (np_unique Y);
     likelihood := map (fun c => (c, fresh_table X Y c)) (np_unique Y);
     classes := np_unique Y;
     class_word_counts :=
       map (fun c => (c, class_term_total X Y c)) (np_unique Y);
     vocab_size := shape1 X |}.

(** The same, with the numbers as [train] computes them in [int64]: the
    sums, [+ 1] and [+ V] wrap around. *)
Definition stored_table (X : ndarray) (Y : list Z) (c : Z) : inner_dict :=
  {| has_default := false;
     items :=
       map (fun j =>
              (j, true_divide
                    (inject_Z (int64 (int64 (raw_count X Y c j) + 1)))
                    (inject_Z (int64 (int64 (class_term_total X Y c)
                                      + Z.of_nat (shape1 X))))))
           (seq 0 (shape1 X)) |}.

Definition stored_model (X : ndarray) (Y : list Z) : NaiveBayes :=
  {| class_prior :=
       map (fun c =>
              (c, true_divide (inject_Z (Z.of_nat (class_size Y c)))
                              (inject_Z (Z.of_nat (length Y)))))
           (np_unique Y);
     likelihood := map (fun c => (c, stored_table X Y c)) (np_unique Y);
     classes := np_unique Y;
     class_word_counts :=
       map (fun c => (c, int64 (class_term_total X Y c))) (np_unique Y);
     vocab_size := shape1 X |}.

(** The shape that [train(X, Y)] gives to the dictionaries: no key, or the
    classes of [Y] in order, and in each table no index, or the indices
    below [V] in order. *)
Definition shaped_for (X : ndarray) (Y : list Z) (self : NaiveBayes) : Prop :=
  (dict_keys (class_prior self) = [] \/ dict_keys (class_prior self) = np_unique Y) /\
  (dict_keys (likelihood self) = [] \/ dict_keys (likelihood self) = np_unique Y) /\
  (dict_keys (class_word_counts self) = []
   \/ dict_keys (class_word_counts self) = np_unique Y) /\
  (forall c d, dict_get c (likelihood self) = Some d ->
     dict_keys (items d) = [] \/ dict_keys (items d) = seq 0 (shape1 X)).

(** Two states of the object that differ in [self.likelihood] at most. *)
Definition same_but_likelihood (m m' : NaiveBayes) : Prop :=
  class_prior m' = class_prior m /\ classes m' = classes m /\
  class_word_counts m' = class_word_counts m /\ vocab_size m' = vocab_size m.

(** A method body run on [self] that returned, or raised [e], and left
    [self] as it was. *)
Definition returns_or {A} (e : exn) (self : NaiveBayes)
    (r : outcome A * NaiveBayes) : Prop :=
  snd r = self /\
  match fst r with
  | Return _ => True
  | Raise e' => e' = e
  end.

(** ** The preparation of the texts *)

From Stdlib Require String DecimalString.
Import String.StringSyntax.
Delimit Scope string_scope with string.

#[export] Instance Hashable_string : Hashable String.string :=
  {| key_eqb := String.eqb; key_eqb_eq := String.eqb_eq |}.

(** [str(i)] of an index, and the carriage return that [print] writes
    after it. *)
Definition py_str (i : nat) : String.string :=
  DecimalString.NilZero.string_of_uint (Nat.to_uint i).

Definition carriage_return : String.string :=
  String.String (Ascii.Ascii true false true true false false false false)
    String.EmptyString.

(** [enumerate(texts)]. *)
Definition enumerate {A} (l : list A) : list (nat * A) :=
  combine (seq 0 (length l)) l.

(** [vocab.update(words)] on a set, kept as the list of its elements;
    the order of the list stands for nothing. *)
Definition set_update (s words : list String.string) : list String.string :=
  fold_left keys_add words s.

(** [list(vocab)] of a set: its elements, each once, in some order. *)
Definition py_list_of_set (s l : list String.string) : Prop := Permutation s l.

(** The local names of [preprocess], and what it has printed. *)
Record preprocess_locals := {
  vocab : list String.string;
  processed_texts : list String.string;
  stdout : String.string
}.

(** The names that the cell with the two calls of [preprocess] binds. *)
Record preprocess_cell_names := {
  cell_vocab : list String.string;
  cell_processed_texts : list String.string;
  cell_processed_texts_test : list String.string;
  cell_stdout : String.string
}.

Section Preprocess.

(** The library calls: [stopwords.words("english")], [str.lower] and
    [nltk.word_tokenize]. *)
Variable stopwords_english : list String.string.
Variable lower : String.string -> String.string.
Variable word_tokenize : String.string -> list String.string.

(** The list comprehension: the tokens of the lowered text that are not
    in [stop_words]. *)
Definition kept_words (text : String.string) : list String.string :=
  filter (fun word => negb (existsb (String.eqb word) stopwords_english))
    (word_tokenize (lower text)).

(** The body of [for i, text in enumerate(texts)]. *)
Definition preprocess_body (st : preprocess_locals) (it : nat * String.string)
  : preprocess_locals :=
  let out := String.append (stdout st)
               (String.append (py_str (fst it)) carriage_return) in
  let words := kept_words (snd it) in
  {| vocab := set_update (vocab st) words;
     processed_texts := processed_texts st ++ [String.concat " " words];
     stdout := out |}.

(** [preprocess(texts)], started with [out] on the standard output. *)
Definition preprocess (texts : list String.string) (out : String.string)
  : preprocess_locals :=
  fold_left preprocess_body (enumerate texts)
    {| vocab := []; processed_texts := []; stdout := out |}.

(** The cell below the function: the two calls bind the same name
    [vocab]. *)
Definition preprocess_cell (train_X test_X : list String.string)
    (out : String.string) : preprocess_cell_names :=
  let r := preprocess train_X out in
  let vocab1 := vocab r in
  let processed_texts1 := processed_texts r in
  let r' := preprocess test_X (stdout r) in
  let vocab2 := vocab r' in
  let processed_texts_test := processed_texts r' in
  {| cell_vocab := vocab2;
     cell_processed_texts := processed_texts1;
     cell_processed_texts_test := processed_texts_test;
     cell_stdout := stdout r' |}.

End Preprocess.
(** * Dictionaries: reading after writing *)

Section DictFacts.
Context {K V : Type} `{Hashable K}.
Implicit Types (k : K) (v : V) (d : dict K V).

Lemma key_eqb_refl k : key_eqb k k = true.
Proof. now apply key_eqb_eq. Qed.

Lemma key_eqb_neq k k' : k <> k' -> key_eqb k k' = false.
Proof.
  intros Hne. destruct (key_eqb k k') eqn:E; [|reflexivity].
  apply key_eqb_eq in E. contradiction.
Qed.

Lemma key_eq_dec k k' : {k = k'} + {k <> k'}.
Proof.
  destruct (key_eqb k k') eqn:E.
  - left. now apply key_eqb_eq.
  - right. intros ->. rewrite key_eqb_refl in E. discriminate.
Qed.

Lemma dict_get_set_same k v d : dict_get k (dict_set k v d) = Some v.
Proof.
  induction d as [|[k' v'] d IH]; simpl.
  - now rewrite key_eqb_refl.
  - destruct (key_eqb k k') eqn:E; simpl; rewrite E; auto.
Qed.

Lemma dict_get_set_other k k' v d :
  k <> k' -> dict_get k (dict_set k' v d) = dict_get k d.
Proof.
  intros Hne. induction d as [|[k2 v2] d IH]; simpl.
  - now rewrite key_eqb_neq.
  - destruct (key_eqb k' k2) eqn:E; simpl.
    + apply key_eqb_eq in E. subst k2. now rewrite key_eqb_neq.
    + now rewrite IH.
Qed.

Lemma dict_get_set k k' v d :
  dict_get k (dict_set k' v d) = if key_eqb k k' then Some v else dict_get k d.
Proof.
  destruct (key_eqb k k') eqn:E.
  - apply key_eqb_eq in E. subst. apply dict_get_set_same.
  - apply dict_get_set_other. intros ->. rewrite key_eqb_refl in E. discriminate.
Qed.

(** Writing back what is there changes nothing. *)
Lemma dict_set_get_id k v d : dict_get k d = Some v -> dict_set k v d = d.
Proof.
  induction d as [|[k' v'] d IH]; simpl; [discriminate|].
  destruct (key_eqb k k') eqn:E.
  - now intros [= ->].
  - intros Hg. now rewrite IH.
Qed.

Lemma dict_get_In k d : In k (dict_keys d) <-> dict_get k d <> None.
Proof.
  induction d as [|[k' v'] d IH]; simpl.
  - split; [tauto | congruence].
  - destruct (key_eqb k k') eqn:E.
    + apply key_eqb_eq in E. subst. split; [discriminate | auto].
    + rewrite <- IH. split; [|tauto].
      intros [->|Hin]; [|exact Hin]. rewrite key_eqb_refl in E. discriminate.
Qed.

Lemma dict_get_Some_In k v d : dict_get k d = Some v -> In k (dict_keys d).
Proof. intros Hg. apply dict_get_In. congruence. Qed.

Lemma dict_get_notin k d : ~ In k (dict_keys d) -> dict_get k d = None.
Proof.
  intros Hn. destruct (dict_get k d) eqn:E; [|reflexivity].
  exfalso. apply Hn. eapply dict_get_Some_In; eauto.
Qed.

(** A key that is there keeps its place; a new key goes to the end. *)
Lemma dict_keys_set_in k v d :
  In k (dict_keys d) -> dict_keys (dict_set k v d) = dict_keys d.
Proof.
  induction d as [|[k' v'] d IH]; simpl; [tauto|].
  intros Hin. destruct (key_eqb k k') eqn:E; simpl; [reflexivity|].
  f_equal. apply IH. destruct Hin as [->|Hin]; [|exact Hin].
  rewrite key_eqb_refl in E. discriminate.
Qed.

Lemma dict_keys_set_notin k v d :
  ~ In k (dict_keys d) -> dict_keys (dict_set k v d) = dict_keys d ++ [k].
Proof.
  induction d as [|[k' v'] d IH]; simpl; [reflexivity|].
  intros Hn. destruct (key_eqb k k') eqn:E; simpl.
  - apply key_eqb_eq in E. subst. tauto.
  - f_equal. apply IH. tauto.
Qed.

(** Writing a table key by key, each value looked up from the key. *)
Lemma dict_get_fold_set (f : K -> V) (l : list K) d k :
  dict_get k (fold_left (fun acc j => dict_set j (f j) acc) l d)
  = if in_dec key_eq_dec k l then Some (f k) else dict_get k d.
Proof.
  revert d. induction l as [|j l IH]; intros d; simpl; [reflexivity|].
  rewrite IH. destruct (in_dec key_eq_dec k l) as [Hi|Hn].
  - destruct (key_eq_dec j k); reflexivity.
  - rewrite dict_get_set. destruct (key_eq_dec j k) as [->|Hne].
    + now rewrite key_eqb_refl.
    + rewrite key_eqb_neq; [reflexivity | congruence].
Qed.

(** The second of two writes under one key is the one that stays. *)
Lemma dict_set_set (k : K) (v v' : V) d :
  dict_set k v (dict_set k v' d) = dict_set k v d.
Proof.
  induction d as [|[k2 v2] d IH]; simpl.
  - now rewrite key_eqb_refl.
  - destruct (key_eqb k k2) eqn:E; simpl; rewrite E; [reflexivity|].
    now rewrite IH.
Qed.

(** A new key goes to the end. *)
Lemma dict_set_notin (k : K) (v : V) d :
  ~ In k (dict_keys d) -> dict_set k v d = d ++ [(k, v)].
Proof.
  induction d as [|[k' v'] d IH]; simpl; [reflexivity|].
  intros Hn. destruct (key_eqb k k') eqn:E.
  - apply key_eqb_eq in E. subst. tauto.
  - rewrite IH by tauto. reflexivity.
Qed.

(** Entering distinct new keys one after the other appends them in order. *)
Lemma dict_fold_set_new (f : K -> V) l :
  NoDup l -> forall d,
  (forall k, In k l -> ~ In k (dict_keys d)) ->
  fold_left (fun acc k => dict_set k (f k) acc) l d
  = d ++ map (fun k => (k, f k)) l.
Proof.
  induction 1 as [|k l Hnin Hnd IH]; intros d Hnew; simpl.
  - now rewrite app_nil_r.
  - rewrite dict_set_notin by (apply Hnew; now left).
    rewrite IH.
    + now rewrite <- app_assoc.
    + intros k' Hk' Hin. unfold dict_keys in Hin. rewrite map_app in Hin.
      apply in_app_or in Hin. destruct Hin as [Hin|[<-|[]]].
      * apply (Hnew k'); [now right|exact Hin].
      * contradiction.
Qed.

Lemma dict_fold_set_fresh (f : K -> V) l :
  NoDup l ->
  fold_left (fun acc k => dict_set k (f k) acc) l [] = map (fun k => (k, f k)) l.
Proof.
  intros Hnd. rewrite dict_fold_set_new; [reflexivity|exact Hnd|].
  intros k _ [].
Qed.
End DictFacts.

(** A property of the values that holds all over a dictionary. *)
Section DictForall.
Context {K V : Type} `{Hashable K}.
Variable P : V -> bool.

Lemma forallb_dict_set (k : K) (v : V) d :
  forallb (fun kv => P (snd kv)) d = true -> P v = true ->
  forallb (fun kv => P (snd kv)) (dict_set k v d) = true.
Proof.
  intros Hd Hv. induction d as [|[k' v'] d IH]; simpl in *.
  - now rewrite Hv.
  - apply andb_true_iff in Hd as [Hv' Hd].
    destruct (key_eqb k k'); simpl.
    + now rewrite Hv, Hd.
    + now rewrite Hv', IH.
Qed.

Lemma forallb_dict_fold_set (f : K -> V) l :
  (forall k, In k l -> P (f k) = true) ->
  forall d, forallb (fun kv => P (snd kv)) d = true ->
  forallb (fun kv => P (snd kv))
    (fold_left (fun acc k => dict_set k (f k) acc) l d) = true.
Proof.
  induction l as [|k l IH]; intros Hf d Hd; simpl; [exact Hd|].
  apply IH.
  - intros k' Hk'. apply Hf. now right.
  - apply forallb_dict_set; [exact Hd|]. apply Hf. now left.
Qed.

Lemma forallb_dict_get (k : K) (v : V) d :
  forallb (fun kv => P (snd kv)) d = true -> dict_get k d = Some v -> P v = true.
Proof.
  induction d as [|[k' v'] d IH]; simpl; [discriminate|].
  intros Hd. apply andb_true_iff in Hd as [Hv' Hd].
  destruct (key_eqb k k'); [now intros [= <-]|now apply IH].
Qed.
End DictForall.

Lemma positive_value_iff {K : Type} (k : K) q :
  positive_value (k, q) = true <-> (0 < q)%Q.
Proof.
  unfold positive_value. simpl. rewrite negb_true_iff. split.
  - intros Hle. apply Qnot_le_lt. intros Hq. apply Qle_bool_iff in Hq. congruence.
  - intros Hq. destruct (Qle_bool q 0) eqn:E; [|reflexivity].
    apply Qle_bool_iff in E. exfalso. now apply (Qlt_not_le 0 q).
Qed.

(** * Running method bodies *)

Lemma bind_Return {A B} (f : M A) (g : A -> M B) self a self' :
  f self = (Return a, self') -> bind f g self = g a self'.
Proof. unfold bind. now intros ->. Qed.

Lemma bind_assoc {A B C} (f : M A) (g : A -> M B) (h : B -> M C) self :
  bind (bind f g) h self = bind f (fun a => bind (g a) h) self.
Proof.
  unfold bind. destruct (f self) as [[a|e] self']; reflexivity.
Qed.

Lemma bind_ext_l {A B} (f f' : M A) (g : A -> M B) self :
  f self = f' self -> bind f g self = bind f' g self.
Proof. unfold bind. now intros ->. Qed.

Lemma bind_ext_r {A B} (f : M A) (g g' : A -> M B) self :
  (forall a s, g a s = g' a s) -> bind f g self = bind f g' self.
Proof.
  intros Hg. unfold bind. destruct (f self) as [[a|e] s]; [apply Hg|reflexivity].
Qed.

(** A loop whose body only computes leaves [self] alone. *)
Lemma for_acc_pure {A B} (g : B -> A -> B) (body : B -> A -> M B) self l :
  (forall acc a, In a l -> body acc a self = (Return (g acc a), self)) ->
  forall acc, for_acc l acc body self = (Return (fold_left g l acc), self).
Proof.
  induction l as [|a l IH]; intros Hbody acc; simpl; [reflexivity|].
  rewrite (bind_Return _ _ _ (Hbody acc a (or_introl eq_refl))).
  apply IH. intros acc' a' Hin. apply Hbody. now right.
Qed.

(** A loop whose body always returns is the fold of its state change. *)
Lemma for_each_fold {A} (step : NaiveBayes -> A -> NaiveBayes)
      (body : A -> M unit) l :
  (forall a self, In a l -> body a self = (Return tt, step self a)) ->
  forall self, for_each l body self = (Return tt, fold_left step l self).
Proof.
  induction l as [|a l IH]; intros Hbody self; simpl; [reflexivity|].
  rewrite (bind_Return _ _ _ (Hbody a self (or_introl eq_refl))).
  apply IH. intros a' self' Hin. apply Hbody. now right.
Qed.

(** Two loops with bodies that agree on the items run alike. *)
Lemma for_acc_ext {A B} (body body' : B -> A -> M B) l :
  (forall acc a self, In a l -> body acc a self = body' acc a self) ->
  forall acc self, for_acc l acc body self = for_acc l acc body' self.
Proof.
  induction l as [|a l IH]; intros Hbody acc self; simpl; [reflexivity|].
  unfold bind. rewrite (Hbody acc a self (or_introl eq_refl)).
  destruct (body' acc a self) as [[acc'|e] self']; [|reflexivity].
  apply IH. intros acc2 a' self2 Hin. apply Hbody. now right.
Qed.

Lemma set_likelihood_same self : set_likelihood (likelihood self) self = self.
Proof. now destruct self. Qed.

Lemma likelihood_setitem2_run c j v self :
  likelihood_setitem2 c j v self
  = (Return tt,
     set_likelihood
       (dict_set c
          {| has_default := has_default (inner_of c self);
             items := dict_set j v (items (inner_of c self)) |}
          (likelihood self)) self).
Proof.
  unfold likelihood_setitem2, likelihood_getitem, likelihood_setitem, bind,
    modify, inner_of.
  destruct (dict_get c (likelihood self)) as [d|]; simpl; [reflexivity|].
  unfold set_likelihood; simpl. now rewrite dict_set_set.
Qed.

Lemma inner_of_set c d lik self :
  inner_of c (set_likelihood (dict_set c d lik) self) = d.
Proof. unfold inner_of; simpl. now rewrite dict_get_set_same. Qed.

(** The loop over the word indices followed by [self.likelihood[c]]. *)
Lemma word_loop_run c (val : nat -> Q) l self :
  bind (for_each l (fun j => likelihood_setitem2 c j (val j)))
       (fun _ => likelihood_getitem c) self
  = let d := {| has_default := has_default (inner_of c self);
                items := fold_left (fun acc j => dict_set j (val j) acc) l
                           (items (inner_of c self)) |} in
    (Return d, set_likelihood (dict_set c d (likelihood self)) self).
Proof.
  revert self. induction l as [|j l IH]; intros self; simpl.
  - unfold bind, ret, likelihood_getitem, inner_of.
    destruct (dict_get c (likelihood self)) as [d|] eqn:E.
    + destruct d as [hd its]; simpl.
      now rewrite (dict_set_get_id _ _ E), set_likelihood_same.
    + reflexivity.
  - rewrite bind_assoc.
    rewrite (bind_Return _ _ _ (likelihood_setitem2_run c j (val j) self)).
    rewrite IH. rewrite inner_of_set. simpl.
    unfold set_likelihood; simpl. now rewrite dict_set_set.
Qed.

Lemma length_np_equal Y c : length (np_equal Y c) = length Y.
Proof. apply length_map. Qed.

Lemma boolean_index_run X Y c :
  length Y = length (rows X) ->
  boolean_index X (np_equal Y c) = Return (class_sample_of X Y c).
Proof.
  intros Hlen. unfold boolean_index.
  rewrite length_np_equal, Hlen, Nat.eqb_refl. reflexivity.
Qed.

Lemma boolean_index_mismatch X Y c :
  length Y <> length (rows X) ->
  boolean_index X (np_equal Y c) = Raise IndexError.
Proof.
  intros Hlen. unfold boolean_index. rewrite length_np_equal.
  destruct (Nat.eqb_spec (length Y) (length (rows X))); [contradiction|reflexivity].
Qed.

(** The body of the second loop returns, and leaves [trained_class]. *)
Lemma train_class_run X Y c self :
  length Y = length (rows X) ->
  train_class X Y c self = (Return tt, trained_class X Y self c).
Proof.
  intros Hlen. unfold train_class.
  erewrite bind_Return; [|unfold lift; now rewrite boolean_index_run].
  set (sample := class_sample_of X Y c).
  unfold bind at 1. unfold class_word_counts_setitem at 1, modify at 1.
  set (self1 := set_class_word_counts _ self).
  unfold bind at 1. unfold gets at 1.
  change (vocab_size self1) with (vocab_size self).
  set (V := vocab_size self).
  rewrite <- bind_assoc.
  unfold bind at 1. rewrite word_loop_run. cbv zeta.
  change (inner_of c self1) with (inner_of c self).
  change (likelihood self1) with (likelihood self).
  fold (counted sample V (items (inner_of c self))).
  set (its := counted sample V (items (inner_of c self))).
  set (d := {| has_default := _; items := its |}).
  set (self2 := set_likelihood (dict_set c d (likelihood self)) self1).
  unfold bind at 1.
  rewrite (for_acc_pure
             (fun acc j => dict_set j
                (true_divide (item_or_0 j its)
                   (inject_Z (int64 (np_sum sample + Z.of_nat V)))) acc)).
  - unfold likelihood_setitem, modify. unfold trained_class, class_table.
    fold sample. fold V. fold its. unfold normalised.
    f_equal. subst self2. unfold set_likelihood; simpl.
    now rewrite dict_set_set.
  - intros acc j Hin. simpl in Hin.
    unfold bind, likelihood_getitem2, likelihood_getitem, bind.
    subst self2. simpl. rewrite dict_get_set_same. simpl.
    apply dict_get_In in Hin.
    unfold item_or_0.
    destruct (dict_get j its) as [v|] eqn:E; [|congruence].
    unfold ret, class_word_counts_getitem. simpl.
    rewrite dict_get_set_same. reflexivity.
Qed.

Lemma set_class_prior_same self : set_class_prior (class_prior self) self = self.
Proof. now destruct self. Qed.

Lemma prior_loop_fold (val : Z -> Q) l self :
  fold_left (fun s c => set_class_prior (dict_set c (val c) (class_prior s)) s) l self
  = set_class_prior (fold_left (fun d c => dict_set c (val c) d) l (class_prior self)) self.
Proof.
  revert self. induction l as [|c l IH]; intros self; simpl.
  - now rewrite set_class_prior_same.
  - rewrite IH. reflexivity.
Qed.

(** With one label per row, [train] returns and leaves [trained_state]. *)
Lemma train_run X Y self :
  length Y = length (rows X) ->
  train X Y self = (Return tt, trained_state X Y self).
Proof.
  intros Hlen. unfold train.
  unfold bind at 1, modify at 1. unfold bind at 1, modify at 1.
  unfold bind at 1, gets at 1.
  unfold bind at 1.
  rewrite (for_each_fold
             (fun s c => set_class_prior
                           (dict_set c (np_mean (np_equal Y c)) (class_prior s)) s));
    [|reflexivity].
  rewrite prior_loop_fold.
  unfold bind at 1, gets at 1.
  rewrite (for_each_fold (trained_class X Y)).
  - reflexivity.
  - intros c s _. now apply train_class_run.
Qed.

Lemma np_unique_nonempty Y : Y <> [] -> np_unique Y <> [].
Proof.
  destruct Y as [|y Y]; [congruence|]. intros _. simpl.
  destruct (np_unique Y) as [|h t]; simpl; [discriminate|].
  destruct (y <? h)%Z; [discriminate|]. destruct (y =? h)%Z; discriminate.
Qed.

(** With labels, but not one per row, [X[Y == c]] raises for the first
    class. *)
Lemma train_mismatch X Y self :
  Y <> [] -> length Y <> length (rows X) ->
  fst (train X Y self) = Raise IndexError.
Proof.
  intros Hne Hlen. unfold train.
  unfold bind at 1, modify at 1. unfold bind at 1, modify at 1.
  unfold bind at 1, gets at 1.
  unfold bind at 1.
  rewrite (for_each_fold
             (fun s c => set_class_prior
                           (dict_set c (np_mean (np_equal Y c)) (class_prior s)) s));
    [|reflexivity].
  unfold bind at 1, gets at 1. rewrite prior_loop_fold. simpl classes.
  destruct (np_unique Y) as [|c cs] eqn:E; [now apply np_unique_nonempty in E|].
  simpl for_each. unfold bind at 1. unfold train_class at 1.
  unfold bind at 1, lift at 1. now rewrite boolean_index_mismatch.
Qed.

(** * [np.unique]: the distinct labels, ascending *)

Lemma insert_unique_In z l c : In c (insert_unique z l) <-> c = z \/ In c l.
Proof.
  induction l as [|h t IH]; simpl.
  - intuition.
  - destruct (Z.ltb_spec z h); [simpl; intuition|].
    destruct (Z.eqb_spec z h); simpl.
    + subst. intuition.
    + rewrite IH. intuition.
Qed.

Lemma np_unique_In Y c : In c (np_unique Y) <-> In c Y.
Proof.
  induction Y as [|y Y IH]; simpl; [tauto|].
  rewrite insert_unique_In, IH. intuition.
Qed.

Lemma insert_unique_sorted z l :
  StronglySorted Z.lt l -> StronglySorted Z.lt (insert_unique z l).
Proof.
  induction 1 as [|h t Hs IH Hall]; simpl.
  - repeat constructor.
  - destruct (Z.ltb_spec z h).
    + constructor; [now constructor|]. constructor; [assumption|].
      eapply Forall_impl; [|exact Hall]. simpl. intros. lia.
    + destruct (Z.eqb_spec z h); [now constructor|].
      constructor; [assumption|]. apply Forall_forall. intros c Hc.
      apply insert_unique_In in Hc. destruct Hc as [->|Hc]; [lia|].
      rewrite Forall_forall in Hall. now apply Hall.
Qed.

Lemma np_unique_sorted Y : StronglySorted Z.lt (np_unique Y).
Proof.
  induction Y as [|y Y IH]; simpl; [constructor|].
  now apply insert_unique_sorted.
Qed.

Lemma np_unique_NoDup Y : NoDup (np_unique Y).
Proof.
  generalize (np_unique_sorted Y). induction 1 as [|h t Hs IH Hall].
  - constructor.
  - constructor; [|assumption]. intros Hin.
    rewrite Forall_forall in Hall. specialize (Hall _ Hin). lia.
Qed.

(** * The attributes after [train] *)

Lemma trained_classes_frame X Y l self :
  class_prior (fold_left (trained_class X Y) l self) = class_prior self /\
  classes (fold_left (trained_class X Y) l self) = classes self /\
  vocab_size (fold_left (trained_class X Y) l self) = vocab_size self.
Proof.
  revert self. induction l as [|a l IH]; intros self; simpl; [auto|].
  destruct (IH (trained_class X Y self a)) as (-> & -> & ->). repeat split.
Qed.

Lemma inner_of_trained_class_other X Y self a c :
  c <> a -> inner_of c (trained_class X Y self a) = inner_of c self.
Proof.
  intros Hne. unfold inner_of, trained_class; simpl.
  now rewrite dict_get_set_other.
Qed.

Lemma trained_classes_likelihood X Y l :
  NoDup l -> forall self c,
  dict_get c (likelihood (fold_left (trained_class X Y) l self))
  = if in_dec Z.eq_dec c l
    then Some (class_table X Y (vocab_size self) (inner_of c self) c)
    else dict_get c (likelihood self).
Proof.
  induction 1 as [|a l Hnin Hnd IH]; intros self c; simpl fold_left.
  - reflexivity.
  - rewrite IH. simpl vocab_size.
    destruct (in_dec Z.eq_dec c l) as [Hin|Hn];
      destruct (in_dec Z.eq_dec c (a :: l)) as [Hin'|Hn'].
    + rewrite inner_of_trained_class_other; [reflexivity|].
      intros ->. contradiction.
    + exfalso. apply Hn'. now right.
    + destruct Hin' as [<-|Hin']; [|contradiction].
      unfold trained_class; simpl. now rewrite dict_get_set_same.
    + unfold trained_class; simpl. rewrite dict_get_set_other; [reflexivity|].
      intros ->. apply Hn'. now left.
Qed.

Lemma trained_classes_word_counts X Y l :
  NoDup l -> forall self c,
  dict_get c (class_word_counts (fold_left (trained_class X Y) l self))
  = if in_dec Z.eq_dec c l
    then Some (np_sum (class_sample_of X Y c))
    else dict_get c (class_word_counts self).
Proof.
  induction 1 as [|a l Hnin Hnd IH]; intros self c; simpl fold_left.
  - reflexivity.
  - rewrite IH.
    destruct (in_dec Z.eq_dec c l) as [Hin|Hn];
      destruct (in_dec Z.eq_dec c (a :: l)) as [Hin'|Hn']; try reflexivity.
    + exfalso. apply Hn'. now right.
    + destruct Hin' as [<-|Hin']; [|contradiction].
      unfold trained_class; simpl. now rewrite dict_get_set_same.
    + unfold trained_class; simpl. rewrite dict_get_set_other; [reflexivity|].
      intros ->. apply Hn'. now left.
Qed.

Lemma trained_state_classes X Y self :
  classes (trained_state X Y self) = np_unique Y.
Proof.
  unfold trained_state.
  destruct (trained_classes_frame X Y (np_unique Y)
    (set_class_prior
       (fold_left (fun d c => dict_set c (np_mean (np_equal Y c)) d)
          (np_unique Y) (class_prior self))
       (set_vocab_size (shape1 X) (set_classes (np_unique Y) self))))
    as (_ & -> & _).
  reflexivity.
Qed.

Lemma trained_state_vocab_size X Y self :
  vocab_size (trained_state X Y self) = shape1 X.
Proof.
  unfold trained_state.
  destruct (trained_classes_frame X Y (np_unique Y)
    (set_class_prior
       (fold_left (fun d c => dict_set c (np_mean (np_equal Y c)) d)
          (np_unique Y) (class_prior self))
       (set_vocab_size (shape1 X) (set_classes (np_unique Y) self))))
    as (_ & _ & ->).
  reflexivity.
Qed.

Lemma trained_state_class_prior X Y self :
  class_prior (trained_state X Y self)
  = fold_left (fun d c => dict_set c (np_mean (np_equal Y c)) d)
      (np_unique Y) (class_prior self).
Proof.
  unfold trained_state.
  destruct (trained_classes_frame X Y (np_unique Y)
    (set_class_prior
       (fold_left (fun d c => dict_set c (np_mean (np_equal Y c)) d)
          (np_unique Y) (class_prior self))
       (set_vocab_size (shape1 X) (set_classes (np_unique Y) self))))
    as (-> & _ & _).
  reflexivity.
Qed.

Lemma trained_state_prior_get X Y self c :
  dict_get c (class_prior (trained_state X Y self))
  = if in_dec Z.eq_dec c (np_unique Y)
    then Some (np_mean (np_equal Y c))
    else dict_get c (class_prior self).
Proof.
  rewrite trained_state_class_prior.
  rewrite (dict_get_fold_set (fun c => np_mean (np_equal Y c))).
  destruct (in_dec key_eq_dec c (np_unique Y));
    destruct (in_dec Z.eq_dec c (np_unique Y)); try reflexivity; contradiction.
Qed.

Lemma trained_state_likelihood_get X Y self c :
  dict_get c (likelihood (trained_state X Y self))
  = if in_dec Z.eq_dec c (np_unique Y)
    then Some (class_table X Y (shape1 X) (inner_of c self) c)
    else dict_get c (likelihood self).
Proof.
  unfold trained_state.
  rewrite trained_classes_likelihood by apply np_unique_NoDup.
  reflexivity.
Qed.

Lemma trained_state_word_counts_get X Y self c :
  dict_get c (class_word_counts (trained_state X Y self))
  = if in_dec Z.eq_dec c (np_unique Y)
    then Some (np_sum (class_sample_of X Y c))
    else dict_get c (class_word_counts self).
Proof.
  unfold trained_state.
  rewrite trained_classes_word_counts by apply np_unique_NoDup.
  reflexivity.
Qed.

(** What [train] does not touch: the prior and the table of a class that
    is no label of [Y] stay in [self] as they were. *)
Lemma train_keeps_absent_classes X Y self c :
  length Y = length (rows X) -> ~ In c Y ->
  exists m,
    train X Y self = (Return tt, m) /\
    dict_get c (class_prior m) = dict_get c (class_prior self) /\
    dict_get c (likelihood m) = dict_get c (likelihood self).
Proof.
  intros Hlen Hc. exists (trained_state X Y self).
  split; [now apply train_run|].
  rewrite trained_state_prior_get, trained_state_likelihood_get.
  destruct (in_dec Z.eq_dec c (np_unique Y)) as [Hin|_]; [|now split].
  apply (proj1 (np_unique_In Y c)) in Hin. contradiction.
Qed.

Lemma in_seq_ltb j V :
  (if in_dec key_eq_dec j (seq 0 V) then true else false) = (j <? V).
Proof.
  destruct (in_dec key_eq_dec j (seq 0 V)) as [Hin|Hn];
    destruct (Nat.ltb_spec j V); try reflexivity.
  - apply in_seq in Hin. lia.
  - exfalso. apply Hn. apply in_seq. lia.
Qed.

Lemma counted_get sample V its j :
  dict_get j (counted sample V its)
  = if j <? V then Some (inject_Z (int64 (np_sum1 (column sample j) + 1)))
    else dict_get j its.
Proof.
  unfold counted.
  rewrite (dict_get_fold_set
             (fun j => inject_Z (int64 (np_sum1 (column sample j) + 1)))).
  rewrite <- in_seq_ltb. now destruct (in_dec key_eq_dec j (seq 0 V)).
Qed.

Lemma normalised_get den its j :
  dict_get j (normalised den its)
  = option_map (fun v => true_divide v den) (dict_get j its).
Proof.
  unfold normalised.
  rewrite (dict_get_fold_set (fun j => true_divide (item_or_0 j its) den)).
  unfold item_or_0. simpl dict_get.
  destruct (in_dec key_eq_dec j (dict_keys its)) as [Hin|Hn].
  - apply dict_get_In in Hin. destruct (dict_get j its); [reflexivity|congruence].
  - now rewrite (dict_get_notin _ _ Hn).
Qed.

(** The entries of the table that [train] stores for a class. *)
Lemma class_table_get X Y V old c j :
  dict_get j (items (class_table X Y V old c))
  = if j <? V
    then Some (true_divide
                 (inject_Z (int64 (np_sum1 (column (class_sample_of X Y c) j) + 1)))
                 (inject_Z (int64 (np_sum (class_sample_of X Y c) + Z.of_nat V))))
    else option_map
           (fun v => true_divide v
                       (inject_Z (int64 (np_sum (class_sample_of X Y c) + Z.of_nat V))))
           (dict_get j (items old)).
Proof.
  unfold class_table. simpl items. rewrite normalised_get, counted_get.
  now destruct (j <? V).
Qed.

Lemma select_rows_of_class X Y c :
  length Y = length (rows X) ->
  select (np_equal Y c) (rows X) = rows_of_class X Y c.
Proof.
  unfold rows_of_class. generalize (rows X) as rs.
  induction Y as [|y Y IH]; intros [|r rs] Hlen; simpl in *; try discriminate;
    try reflexivity.
  destruct (y =? c)%Z; simpl; rewrite IH by lia; reflexivity.
Qed.

Lemma column_sum_raw_count X Y c j :
  length Y = length (rows X) ->
  sum_Z (column (class_sample_of X Y c) j) = raw_count X Y c j.
Proof.
  intros Hlen. unfold column, class_sample_of, raw_count; simpl.
  now rewrite select_rows_of_class.
Qed.

Lemma np_sum1_raw_count X Y c j :
  length Y = length (rows X) ->
  np_sum1 (column (class_sample_of X Y c) j) = int64 (raw_count X Y c j).
Proof.
  intros Hlen. unfold np_sum1. now rewrite column_sum_raw_count.
Qed.

Lemma np_sum_class_term_total X Y c :
  length Y = length (rows X) ->
  np_sum (class_sample_of X Y c) = int64 (class_term_total X Y c).
Proof.
  intros Hlen. unfold np_sum, class_sample_of, class_term_total.
  cbn [rows]. now rewrite select_rows_of_class.
Qed.

Lemma count_mask Y c :
  count_occ bool_dec (np_equal Y c) true = class_size Y c.
Proof.
  unfold class_size. induction Y as [|y Y IH]; simpl; [reflexivity|].
  destruct (Z.eqb_spec y c); destruct (Z.eq_dec y c); try contradiction;
    simpl; now rewrite IH.
Qed.

Lemma np_mean_class_size Y c :
  (np_mean (np_equal Y c)
   == inject_Z (Z.of_nat (class_size Y c)) / inject_Z (Z.of_nat (length Y)))%Q.
Proof.
  unfold np_mean, true_divide.
  rewrite Qred_correct, count_mask, length_np_equal. reflexivity.
Qed.

(** * Sums *)

Lemma sum_Z_nonneg l : Forall (fun z => (0 <= z)%Z) l -> (0 <= sum_Z l)%Z.
Proof. induction 1; simpl; lia. Qed.

Lemma sum_Z_map_add {A} (f g : A -> Z) l :
  sum_Z (map (fun a => (f a + g a)%Z) l) = (sum_Z (map f l) + sum_Z (map g l))%Z.
Proof. induction l as [|a l IH]; simpl; lia. Qed.

Lemma sum_Z_map_const {A} (k : Z) (l : list A) :
  sum_Z (map (fun _ => k) l) = (Z.of_nat (length l) * k)%Z.
Proof. induction l as [|a l IH]; simpl length; simpl sum_Z; lia. Qed.

(** The entries of a row, summed by index. *)
Lemma sum_Z_nth (r : list Z) :
  sum_Z (map (fun j => nth j r 0%Z) (seq 0 (length r))) = sum_Z r.
Proof.
  induction r as [|a r IH]; simpl; [reflexivity|].
  rewrite <- seq_shift, map_map. simpl. now rewrite IH.
Qed.

(** Summing an array by columns or by rows gives the same total. *)
Lemma sum_Z_columns (rs : list (list Z)) V :
  Forall (fun r => length r = V) rs ->
  sum_Z (map (fun j => sum_Z (map (fun r => nth j r 0%Z) rs)) (seq 0 V))
  = sum_Z (map sum_Z rs).
Proof.
  induction 1 as [|r rs Hr Hrs IH]; simpl.
  - rewrite (sum_Z_map_const 0%Z). lia.
  - rewrite (sum_Z_map_add (fun j => nth j r 0%Z)
               (fun j => sum_Z (map (fun r0 => nth j r0 0%Z) rs))).
    rewrite IH. rewrite <- Hr at 1. now rewrite sum_Z_nth.
Qed.

Lemma sum_Q_ext {A} (f g : A -> Q) l :
  (forall a, In a l -> (f a == g a)%Q) ->
  (sum_Q (map f l) == sum_Q (map g l))%Q.
Proof.
  induction l as [|a l IH]; intros Hfg; simpl; [reflexivity|].
  rewrite (Hfg a (or_introl eq_refl)), IH; [reflexivity|].
  intros a' Hin. apply Hfg. now right.
Qed.

Lemma sum_Q_div {A} (f : A -> Z) (d : Q) l :
  (sum_Q (map (fun a => inject_Z (f a) / d) l)
   == inject_Z (sum_Z (map f l)) / d)%Q.
Proof.
  induction l as [|a l IH]; simpl.
  - unfold Qdiv. now rewrite Qmult_0_l.
  - rewrite IH, inject_Z_plus. unfold Qdiv. ring.
Qed.

Lemma true_divide_correct a b : (true_divide a b == a / b)%Q.
Proof. apply Qred_correct. Qed.

(** * Counting the labels *)

Lemma count_one_in_NoDup (l : list Z) y :
  NoDup l -> In y l ->
  sum_Z (map (fun c => if Z.eq_dec y c then 1%Z else 0%Z) l) = 1%Z.
Proof.
  induction 1 as [|a l Hnin Hnd IH]; intros Hin; [destruct Hin|].
  simpl. destruct (Z.eq_dec y a) as [->|Hne].
  - assert (Hz : sum_Z (map (fun c => if Z.eq_dec a c then 1%Z else 0%Z) l) = 0%Z).
    { clear IH Hin Hnd. induction l as [|b l IHl]; simpl; [reflexivity|].
      destruct (Z.eq_dec a b) as [->|_]; [exfalso; apply Hnin; now left|].
      rewrite IHl; [reflexivity|]. intros Hin. apply Hnin. now right. }
    lia.
  - destruct Hin as [->|Hin]; [congruence|]. rewrite IH by assumption. lia.
Qed.

(** Every document is counted in exactly one class. *)
Lemma class_sizes_total (l Y : list Z) :
  NoDup l -> (forall y, In y Y -> In y l) ->
  sum_Z (map (fun c => Z.of_nat (class_size Y c)) l) = Z.of_nat (length Y).
Proof.
  intros Hnd. unfold class_size. induction Y as [|y Y IH]; intros Hcov.
  - simpl. rewrite (sum_Z_map_const 0%Z). lia.
  - assert (Heq : forall c,
               Z.of_nat (count_occ Z.eq_dec (y :: Y) c)
               = ((if Z.eq_dec y c then 1 else 0) + Z.of_nat (count_occ Z.eq_dec Y c))%Z).
    { intros c. simpl. destruct (Z.eq_dec y c); lia. }
    rewrite (map_ext _ _ Heq).
    rewrite (sum_Z_map_add (fun c => if Z.eq_dec y c then 1%Z else 0%Z)
               (fun c => Z.of_nat (count_occ Z.eq_dec Y c))).
    rewrite IH by (intros y' Hy'; apply Hcov; now right).
    rewrite count_one_in_NoDup; [simpl length; lia | assumption |].
    apply Hcov. now left.
Qed.

(** * Valid training input *)

Lemma valid_input_spec X Y :
  valid_input X Y = true ->
  length Y = length (rows X) /\ 1 <= length Y /\ 1 <= shape1 X /\
  Forall (fun r => length r = shape1 X) (rows X) /\
  Forall (Forall (fun z => (0 <= z)%Z)) (rows X).
Proof.
  unfold valid_input, ndarray_wf. rewrite !andb_true_iff.
  intros ((((H1 & H2) & H3) & H4) & H5).
  apply Nat.eqb_eq in H1. apply Nat.leb_le in H2, H3.
  rewrite forallb_forall in H4, H5.
  repeat split; try assumption.
  - apply Forall_forall. intros r Hr. apply Nat.eqb_eq. now apply H4.
  - apply Forall_forall. intros r Hr. apply Forall_forall. intros z Hz.
    specialize (H5 r Hr). rewrite forallb_forall in H5.
    apply Z.leb_le. now apply H5.
Qed.

Lemma rows_of_class_In X Y c r :
  In r (rows_of_class X Y c) -> In r (rows X).
Proof.
  unfold rows_of_class. rewrite in_map_iff.
  intros ([y r'] & <- & Hin). apply filter_In in Hin as [Hin _].
  now apply in_combine_r in Hin.
Qed.

Lemma rows_of_class_Forall (P : list Z -> Prop) X Y c :
  Forall P (rows X) -> Forall P (rows_of_class X Y c).
Proof.
  rewrite !Forall_forall. intros HP r Hr. apply HP.
  eapply rows_of_class_In; eauto.
Qed.

Lemma nth_nonneg (r : list Z) j :
  Forall (fun z => (0 <= z)%Z) r -> (0 <= nth j r 0)%Z.
Proof.
  intros Hr. destruct (Nat.lt_ge_cases j (length r)) as [Hlt|Hge].
  - rewrite Forall_forall in Hr. apply Hr. now apply nth_In.
  - rewrite nth_overflow by exact Hge. lia.
Qed.

Lemma raw_count_nonneg X Y c j :
  Forall (Forall (fun z => (0 <= z)%Z)) (rows X) -> (0 <= raw_count X Y c j)%Z.
Proof.
  intros Hpos. unfold raw_count. apply sum_Z_nonneg.
  apply Forall_map. eapply Forall_impl; [|apply rows_of_class_Forall, Hpos].
  intros r Hr. now apply nth_nonneg.
Qed.

Lemma class_term_total_nonneg X Y c :
  Forall (Forall (fun z => (0 <= z)%Z)) (rows X) -> (0 <= class_term_total X Y c)%Z.
Proof.
  intros Hpos. unfold class_term_total. apply sum_Z_nonneg.
  apply Forall_map. eapply Forall_impl; [|apply rows_of_class_Forall, Hpos].
  intros r Hr. now apply sum_Z_nonneg.
Qed.

(** The raw counts of a class add up to its total. *)
Lemma raw_counts_total X Y c :
  Forall (fun r => length r = shape1 X) (rows X) ->
  sum_Z (map (raw_count X Y c) (seq 0 (shape1 X))) = class_term_total X Y c.
Proof.
  intros Hwf. unfold raw_count, class_term_total.
  apply sum_Z_columns. now apply rows_of_class_Forall.
Qed.

Lemma class_size_pos Y c : In c Y -> 1 <= class_size Y c.
Proof.
  intros Hin. unfold class_size.
  apply (count_occ_In Z.eq_dec) in Hin. lia.
Qed.

Lemma class_size_le Y c : class_size Y c <= length Y.
Proof. apply count_occ_bound. Qed.

(** A quotient of integers [0 < a <= b] is in (0, 1]. *)
Lemma Qdiv_unit_interval (a b : Z) :
  (0 < a)%Z -> (a <= b)%Z ->
  (0 < inject_Z a / inject_Z b)%Q /\ (inject_Z a / inject_Z b <= 1)%Q.
Proof.
  intros Ha Hab.
  assert (Hb : (0 < inject_Z b)%Q) by (rewrite <- (Zlt_Qlt 0); lia).
  split.
  - apply Qlt_shift_div_l; [assumption|]. rewrite Qmult_0_l.
    rewrite <- (Zlt_Qlt 0). lia.
  - apply Qle_shift_div_r; [assumption|]. rewrite Qmult_1_l.
    rewrite <- Zle_Qle. lia.
Qed.

Lemma sum_Z_member_le {A} (f : A -> Z) l a :
  (forall b, In b l -> (0 <= f b)%Z) -> In a l -> (f a <= sum_Z (map f l))%Z.
Proof.
  induction l as [|b l IH]; intros Hpos Hin; [destruct Hin|]. simpl.
  assert (0 <= sum_Z (map f l))%Z.
  { apply sum_Z_nonneg, Forall_map, Forall_forall. intros x Hx. apply Hpos. now right. }
  destruct Hin as [->|Hin].
  - lia.
  - specialize (IH (fun x Hx => Hpos x (or_intror Hx)) Hin).
    specialize (Hpos b (or_introl eq_refl)). lia.
Qed.

Lemma raw_count_le_total X Y c j :
  Forall (fun r => length r = shape1 X) (rows X) ->
  Forall (Forall (fun z => (0 <= z)%Z)) (rows X) ->
  j < shape1 X ->
  (raw_count X Y c j <= class_term_total X Y c)%Z.
Proof.
  intros Hwf Hpos Hj. rewrite <- (raw_counts_total X Y c Hwf).
  apply sum_Z_member_le.
  - intros b _. now apply raw_count_nonneg.
  - apply in_seq. lia.
Qed.

(** * Counts that fit in [int64] *)

Lemma int64_fits z :
  (-9223372036854775808 <= z < 9223372036854775808)%Z -> int64 z = z.
Proof.
  intros Hz. unfold int64. rewrite Z.mod_small by lia. lia.
Qed.

Lemma class_fits_spec X Y c :
  class_fits X Y c = true
  <-> (class_term_total X Y c + Z.of_nat (shape1 X) < 9223372036854775808)%Z.
Proof. unfold class_fits. apply Z.ltb_lt. Qed.

Lemma fits_int64_class X Y c :
  fits_int64 X Y = true -> In c (np_unique Y) -> class_fits X Y c = true.
Proof.
  unfold fits_int64. intros Hall Hc.
  now apply (proj1 (forallb_forall _ _) Hall).
Qed.

(** On valid input, for a class whose counts fit, the numbers that
    [train] computes are the sums themselves. *)
Lemma fitting_total X Y c :
  valid_input X Y = true -> class_fits X Y c = true ->
  np_sum (class_sample_of X Y c) = class_term_total X Y c.
Proof.
  intros Hv Hfit. pose proof (valid_input_spec _ _ Hv) as (Hlen & _ & _ & _ & Hpos).
  apply class_fits_spec in Hfit.
  rewrite np_sum_class_term_total by exact Hlen. apply int64_fits.
  pose proof (class_term_total_nonneg X Y c Hpos). lia.
Qed.

Lemma fitting_denominator X Y c :
  valid_input X Y = true -> class_fits X Y c = true ->
  int64 (np_sum (class_sample_of X Y c) + Z.of_nat (shape1 X))
  = (class_term_total X Y c + Z.of_nat (shape1 X))%Z.
Proof.
  intros Hv Hfit. rewrite fitting_total by assumption.
  pose proof (valid_input_spec _ _ Hv) as (_ & _ & _ & _ & Hpos).
  apply class_fits_spec in Hfit. apply int64_fits.
  pose proof (class_term_total_nonneg X Y c Hpos). lia.
Qed.

Lemma fitting_count X Y c j :
  valid_input X Y = true -> class_fits X Y c = true -> j < shape1 X ->
  int64 (np_sum1 (column (class_sample_of X Y c) j) + 1)
  = (raw_count X Y c j + 1)%Z.
Proof.
  intros Hv Hfit Hj.
  pose proof (valid_input_spec _ _ Hv) as (Hlen & _ & HV & Hwf & Hpos).
  apply class_fits_spec in Hfit.
  pose proof (raw_count_nonneg X Y c j Hpos).
  pose proof (raw_count_le_total X Y c Hwf Hpos Hj).
  rewrite np_sum1_raw_count by exact Hlen.
  rewrite (@int64_fits (raw_count X Y c j)) by lia.
  apply int64_fits. lia.
Qed.

(** The entry that [train] stores for term [j] of class [c]. *)
Lemma trained_likelihood_entry X Y self c j :
  valid_input X Y = true -> class_fits X Y c = true ->
  In c (np_unique Y) -> j < shape1 X ->
  exists d q,
    dict_get c (likelihood (trained_state X Y self)) = Some d /\
    has_default d = false /\
    dict_get j (items d) = Some q /\
    (q == inject_Z (raw_count X Y c j + 1)
          / inject_Z (class_term_total X Y c + Z.of_nat (shape1 X)))%Q.
Proof.
  intros Hv Hfit Hc Hj.
  exists (class_table X Y (shape1 X) (inner_of c self) c).
  eexists. split; [|split; [reflexivity|split]].
  - rewrite trained_state_likelihood_get.
    destruct (in_dec Z.eq_dec c (np_unique Y)); [reflexivity|contradiction].
  - rewrite class_table_get. apply Nat.ltb_lt in Hj. rewrite Hj. reflexivity.
  - rewrite true_divide_correct, fitting_count, fitting_denominator
      by assumption.
    reflexivity.
Qed.

Lemma laplace_unit_interval X Y c j :
  valid_input X Y = true -> j < shape1 X ->
  (0 < inject_Z (raw_count X Y c j + 1)
       / inject_Z (class_term_total X Y c + Z.of_nat (shape1 X)))%Q /\
  (inject_Z (raw_count X Y c j + 1)
   / inject_Z (class_term_total X Y c + Z.of_nat (shape1 X)) <= 1)%Q.
Proof.
  intros Hv Hj. apply valid_input_spec in Hv as (Hlen & HN & HV & Hwf & Hpos).
  apply Qdiv_unit_interval.
  - pose proof (raw_count_nonneg X Y c j Hpos). lia.
  - pose proof (raw_count_le_total X Y c Hwf Hpos Hj). lia.
Qed.

(** * [predict] reads, and does not write *)

Lemma for_acc_frame {A B} (body : B -> A -> M B) self l :
  (forall acc a, In a l -> snd (body acc a self) = self) ->
  forall acc, snd (for_acc l acc body self) = self.
Proof.
  induction l as [|a l IH]; intros Hbody acc; simpl; [reflexivity|].
  unfold bind. specialize (Hbody acc a (or_introl eq_refl)) as Ha.
  destruct (body acc a self) as [[acc'|e] self']; simpl in Ha; subst self'.
  - apply IH. intros acc2 a' Hin. apply Hbody. now right.
  - reflexivity.
Qed.

Lemma likelihood_getitem2_plain c j self d :
  dict_get c (likelihood self) = Some d -> has_default d = false ->
  likelihood_getitem2 c j self
  = (match dict_get j (items d) with
     | Some v => Return v
     | None => Raise KeyError
     end, self).
Proof.
  intros Hd Hplain.
  unfold likelihood_getitem2, bind, likelihood_getitem. rewrite Hd.
  destruct (dict_get j (items d)); [reflexivity|]. now rewrite Hplain.
Qed.

Section PredictFrame.
Context {F : Type} `{LogFloat F}.

Lemma log_prob_of_frame x c self :
  plain_tables self -> snd (log_prob_of x c self) = self.
Proof.
  intros Hplain. unfold log_prob_of, bind, class_prior_getitem.
  destruct (dict_get c (class_prior self)) as [p|] eqn:Hp; [|reflexivity].
  destruct (Hplain c (dict_get_Some_In _ _ Hp)) as (d & Hd & Hdef).
  apply for_acc_frame. intros acc j _.
  destruct (nth j x 0 >? 0)%Z; [|reflexivity].
  unfold bind. rewrite (likelihood_getitem2_plain _ j _ Hd Hdef).
  now destruct (dict_get j (items d)).
Qed.

Lemma predict_row_frame x self :
  plain_tables self -> snd (predict_row x self) = self.
Proof.
  intros Hplain. unfold predict_row. unfold bind at 1, gets at 1.
  unfold bind at 1.
  match goal with |- context [for_acc ?l ?a ?b self] =>
    assert (Hloop : snd (for_acc l a b self) = self);
    [|destruct (for_acc l a b self) as [[probs|e] self']] end.
  - apply for_acc_frame. intros acc c _.
    unfold bind. pose proof (log_prob_of_frame x c Hplain) as Hc.
    destruct (log_prob_of x c self) as [[lp|e] self']; simpl in Hc; now subst.
  - simpl in Hloop. now subst.
  - exact Hloop.
Qed.

Lemma predict_frame X self :
  plain_tables self -> snd (predict X self) = self.
Proof.
  intros Hplain. unfold predict. apply for_acc_frame. intros acc x _.
  unfold bind. pose proof (predict_row_frame x Hplain) as Hx.
  destruct (predict_row x self) as [[c|e] self']; simpl in Hx; now subst.
Qed.
End PredictFrame.

(** * Trained models *)

Lemma plain_tables_init : plain_tables __init__.
Proof. intros c []. Qed.

Lemma trained_state_plain X Y self :
  plain_tables self -> plain_tables (trained_state X Y self).
Proof.
  intros Hplain c Hc. apply dict_get_In in Hc.
  rewrite trained_state_prior_get in Hc.
  rewrite trained_state_likelihood_get.
  destruct (in_dec Z.eq_dec c (np_unique Y)) as [Hin|Hn].
  - eexists. split; reflexivity.
  - apply Hplain. now apply dict_get_In.
Qed.

Lemma train_valid X Y self m :
  valid_input X Y = true -> train X Y self = (Return tt, m) ->
  m = trained_state X Y self.
Proof.
  intros Hv Hrun. apply valid_input_spec in Hv as (Hlen & _).
  rewrite (train_run X Y self Hlen) in Hrun. now injection Hrun.
Qed.

Lemma trained_plain m : trained m -> plain_tables m.
Proof.
  induction 1 as [X Y m Hv Hrun | X Y m0 m Ht IH Hv Hrun];
    rewrite (train_valid _ _ _ Hv Hrun); apply trained_state_plain;
    [apply plain_tables_init | exact IH].
Qed.

(** The last call of [train] on the way to a trained model. *)
Lemma trained_last m :
  trained m -> exists X Y self, valid_input X Y = true /\ m = trained_state X Y self.
Proof.
  destruct 1 as [X Y m Hv Hrun | X Y m0 m Ht Hv Hrun];
    exists X, Y; eexists; (split; [exact Hv|]); eapply train_valid; eauto.
Qed.

Lemma example_trained : trained example_model.
Proof. now apply (trained_first example_X example_Y). Qed.

(** Why a trained model is one whose calls of [train] all returned: a
    call that raises in the second loop has entered its priors already,
    and [predict] then makes [self.likelihood] enter a table for the class
    that it finds without one. *)
Lemma predict_writes_after_failed_train :
  fst (train example_X [5%Z] __init__) = Raise IndexError /\
  class_prior (snd (train example_X [5%Z] __init__)) = [(5%Z, (1 # 1)%Q)] /\
  likelihood (snd (train example_X [5%Z] __init__)) = [] /\
  likelihood (snd (@predict Q ExpLog example_test
                     (snd (train example_X [5%Z] __init__))))
  = [(5%Z, {| has_default := true; items := [(0, 0%Q)] |})].
Proof. repeat split; vm_compute; reflexivity. Qed.

Lemma trained_classes_nonempty m : trained m -> classes m <> [].
Proof.
  intros Ht. destruct (trained_last Ht) as (X & Y & self & Hv & ->).
  rewrite trained_state_classes. apply np_unique_nonempty.
  apply valid_input_spec in Hv as (_ & HN & _).
  destruct Y; [simpl in HN; lia|discriminate].
Qed.

Lemma trained_vocab_size_pos m : trained m -> 1 <= vocab_size m.
Proof.
  intros Ht. destruct (trained_last Ht) as (X & Y & self & Hv & ->).
  rewrite trained_state_vocab_size.
  now apply valid_input_spec in Hv as (_ & _ & HV & _).
Qed.

(** * The score that [predict] computes *)

Section PredictScore.
Context {F : Type} `{LogFloat F}.

(** The loop over the word indices, when the table has the entries. *)
Lemma word_scan_run x c self d l :
  dict_get c (likelihood self) = Some d -> has_default d = false ->
  (forall j, In j l -> (nth j x 0 >? 0)%Z = true -> dict_get j (items d) <> None) ->
  forall acc,
  for_acc l acc (fun log_prob word_idx =>
      if (nth word_idx x 0 >? 0)%Z then
        v <- likelihood_getitem2 c word_idx ;;
        ret (fadd log_prob (np_log v))
      else ret log_prob) self
  = (Return (fold_left (fun acc j => fadd acc (np_log (likelihood_of self c j)))
               (filter (fun j => (nth j x 0 >? 0)%Z) l) acc), self).
Proof.
  intros Hd Hplain. induction l as [|j l IH]; intros Hhas acc; simpl;
    [reflexivity|].
  assert (Hrest : forall j', In j' l -> (nth j' x 0 >? 0)%Z = true ->
                    dict_get j' (items d) <> None).
  { intros j' Hin. apply Hhas. now right. }
  destruct (nth j x 0 >? 0)%Z eqn:Hpos.
  - unfold bind at 1. unfold bind at 1.
    rewrite (likelihood_getitem2_plain _ j _ Hd Hplain).
    specialize (Hhas j (or_introl eq_refl) Hpos).
    destruct (dict_get j (items d)) as [v|] eqn:Hv; [|congruence].
    unfold ret at 1. simpl fold_left.
    replace (likelihood_of self c j) with v.
    + now apply IH.
    + unfold likelihood_of, inner_of, item_or_0. now rewrite Hd, Hv.
  - unfold bind at 1, ret at 1. now apply IH.
Qed.

Lemma log_prob_of_score x c self p d :
  dict_get c (class_prior self) = Some p ->
  dict_get c (likelihood self) = Some d -> has_default d = false ->
  (forall j, j < length x -> (nth j x 0 >? 0)%Z = true ->
     dict_get j (items d) <> None) ->
  log_prob_of x c self = (Return (score self x c), self).
Proof.
  intros Hp Hd Hplain Hhas. unfold log_prob_of, score.
  unfold bind at 1, class_prior_getitem. rewrite Hp.
  replace (prior_of self c) with p by (unfold prior_of; now rewrite Hp).
  apply word_scan_run with (d := d); try assumption.
  intros j Hj. apply Hhas. apply in_seq in Hj. lia.
Qed.

(** A positive entry beyond the table of a class makes the lookup raise. *)
Lemma word_scan_KeyError x c self d l :
  dict_get c (likelihood self) = Some d -> has_default d = false ->
  (exists j, In j l /\ (nth j x 0 >? 0)%Z = true /\ dict_get j (items d) = None) ->
  forall acc,
  for_acc l acc (fun log_prob word_idx =>
      if (nth word_idx x 0 >? 0)%Z then
        v <- likelihood_getitem2 c word_idx ;;
        ret (fadd log_prob (np_log v))
      else ret log_prob) self
  = (Raise KeyError, self).
Proof.
  intros Hd Hplain. induction l as [|j l IH]; intros (j0 & Hin & Hpos & Hnone) acc.
  - destruct Hin.
  - simpl. destruct (Nat.eq_dec j j0) as [->|Hne].
    + rewrite Hpos. unfold bind at 1. unfold bind at 1.
      rewrite (likelihood_getitem2_plain _ j0 _ Hd Hplain), Hnone. reflexivity.
    + assert (Hex : exists j1, In j1 l /\ (nth j1 x 0 >? 0)%Z = true
                               /\ dict_get j1 (items d) = None).
      { exists j0. destruct Hin as [->|Hin]; [congruence|auto]. }
      destruct (nth j x 0 >? 0)%Z.
      * unfold bind at 1. unfold bind at 1.
        rewrite (likelihood_getitem2_plain _ j _ Hd Hplain).
        destruct (dict_get j (items d)); [|reflexivity].
        unfold ret at 1. now apply IH.
      * unfold bind at 1, ret at 1. now apply IH.
Qed.
End PredictScore.

(** After [train], every class of the class set has its prior and a plain
    table with an entry for each of the [V] terms. *)
Lemma trained_state_complete X Y self c :
  length Y = length (rows X) -> In c (np_unique Y) ->
  exists p d,
    dict_get c (class_prior (trained_state X Y self)) = Some p /\
    dict_get c (likelihood (trained_state X Y self)) = Some d /\
    has_default d = false /\
    forall j, j < shape1 X -> dict_get j (items d) <> None.
Proof.
  intros Hlen Hc. exists (np_mean (np_equal Y c)),
    (class_table X Y (shape1 X) (inner_of c self) c).
  rewrite trained_state_prior_get, trained_state_likelihood_get.
  destruct (in_dec Z.eq_dec c (np_unique Y)); [|contradiction].
  repeat split. intros j Hj. rewrite class_table_get.
  apply Nat.ltb_lt in Hj. rewrite Hj. discriminate.
Qed.

(** * [predict] looks at the sign of an entry only *)

Lemma same_presence_length x x' : same_presence x x' -> length x = length x'.
Proof.
  unfold same_presence. intros Heq.
  rewrite <- (length_map (fun v => (v >? 0)%Z) x), Heq. apply length_map.
Qed.

Lemma same_presence_nth x x' j :
  same_presence x x' -> (nth j x 0 >? 0)%Z = (nth j x' 0 >? 0)%Z.
Proof.
  unfold same_presence. intros Heq.
  pose proof (map_nth (fun v => (v >? 0)%Z) x 0%Z j) as Hx.
  pose proof (map_nth (fun v => (v >? 0)%Z) x' 0%Z j) as Hx'.
  cbv beta in Hx, Hx'. rewrite <- Hx, <- Hx'. now rewrite Heq.
Qed.

Section PredictPresence.
Context {F : Type} `{LogFloat F}.

Lemma log_prob_of_presence x x' c self :
  same_presence x x' -> log_prob_of x c self = log_prob_of x' c self.
Proof.
  intros Hsame. unfold log_prob_of, bind.
  destruct (class_prior_getitem c self) as [[p|e] self']; [|reflexivity].
  rewrite (same_presence_length Hsame).
  apply for_acc_ext. intros acc j s _.
  now rewrite (same_presence_nth j Hsame).
Qed.

Lemma predict_row_presence x x' self :
  same_presence x x' -> predict_row x self = predict_row x' self.
Proof.
  intros Hsame. unfold predict_row.
  apply bind_ext_r. intros cs s. apply bind_ext_l.
  apply for_acc_ext. intros acc c s' _.
  apply bind_ext_l. now apply log_prob_of_presence.
Qed.

Lemma predict_rows_presence l l' :
  Forall2 same_presence l l' ->
  forall acc self,
    for_acc l acc (fun predictions x =>
        label <- predict_row x ;; ret (predictions ++ [label])) self
    = for_acc l' acc (fun predictions x =>
        label <- predict_row x ;; ret (predictions ++ [label])) self.
Proof.
  induction 1 as [|x x' l l' Hx Hl IH]; intros acc self; simpl; [reflexivity|].
  etransitivity;
    [apply bind_ext_l, bind_ext_l, (predict_row_presence self Hx)|].
  apply bind_ext_r. intros acc' s. apply IH.
Qed.

Lemma predict_presence X X' self :
  Forall2 same_presence (rows X) (rows X') -> predict X self = predict X' self.
Proof. intros Hrows. unfold predict. now apply predict_rows_presence. Qed.
End PredictPresence.

Lemma score_presence {F : Type} `{LogFloat F} self x x' c :
  same_presence x x' -> score self x c = score self x' c.
Proof.
  intros Hsame. unfold score. rewrite (same_presence_length Hsame).
  f_equal. apply filter_ext. intros j. apply (same_presence_nth j Hsame).
Qed.

Lemma trained_log_prob {F : Type} `{LogFloat F} m c x :
  trained m -> In c (classes m) -> length x = vocab_size m ->
  log_prob_of x c m = (Return (score m x c), m).
Proof.
  intros Ht Hc Hx. destruct (trained_last Ht) as (X & Y & self & Hv & ->).
  rewrite trained_state_classes in Hc. rewrite trained_state_vocab_size in Hx.
  apply valid_input_spec in Hv as (Hlen & _).
  destruct (trained_state_complete X Y self c Hlen Hc) as (p & d & Hp & Hd & Hdef & Hhas).
  apply log_prob_of_score with (p := p) (d := d); try assumption.
  intros j Hj _. apply Hhas. lia.
Qed.

(** * The two readings of the scores are orders *)

#[export] Instance RealLog_order : LogFloatOrder R.
Proof.
  split; simpl.
  - intros a b. destruct (Rgt_dec a b); [|discriminate]. intros _.
    destruct (Rgt_dec b a); [lra|reflexivity].
  - intros a b c. destruct (Rgt_dec a b); [|discriminate]. intros _.
    destruct (Rgt_dec a c); [now left|]. right.
    destruct (Rgt_dec c b); [reflexivity|lra].
Qed.

Lemma ExpLog_fgt a b : @fgt Q ExpLog a b = true <-> (b < a)%Q.
Proof.
  simpl. rewrite negb_true_iff. split.
  - intros Hle. apply Qnot_le_lt. intros Hab.
    apply Qle_bool_iff in Hab. congruence.
  - intros Hlt. destruct (Qle_bool a b) eqn:E; [|reflexivity].
    apply Qle_bool_iff in E. exfalso. now apply (Qlt_not_le b a).
Qed.

Lemma ExpLog_order : @LogFloatOrder Q ExpLog.
Proof.
  split.
  - intros a b Hab. apply ExpLog_fgt in Hab.
    destruct (@fgt Q ExpLog b a) eqn:E; [|reflexivity].
    apply ExpLog_fgt in E. exfalso. apply (Qlt_irrefl a).
    now apply Qlt_trans with b.
  - intros a b c Hab. apply ExpLog_fgt in Hab.
    destruct (Qlt_le_dec c a) as [Hca|Hac].
    + left. now apply ExpLog_fgt.
    + right. apply ExpLog_fgt. now apply Qlt_le_trans with a.
Qed.

(** * [max] returns the first maximum *)

Section Max.
Context {F : Type} {L : LogFloat F} {O : LogFloatOrder F}.

Lemma fgt_trans (a b c : F) : fgt a b = true -> fgt b c = true -> fgt a c = true.
Proof.
  intros Hab Hbc. destruct (fgt_cotrans a b c Hab) as [Hac|Hcb]; [exact Hac|].
  apply fgt_asym in Hbc. congruence.
Qed.

Lemma keep_max_invariant (rest : list (Z * F)) :
  forall done best,
    first_max snd done best ->
    first_max snd (done ++ rest) (fold_left keep_max rest best).
Proof.
  induction rest as [|item rest IH]; intros done best Hbest; simpl.
  - now rewrite app_nil_r.
  - replace (done ++ item :: rest) with ((done ++ [item]) ++ rest)
      by (rewrite <- app_assoc; reflexivity).
    apply IH. destruct Hbest as (before & after & -> & Hbefore & Hafter).
    unfold keep_max. destruct (fgt (snd item) (snd best)) eqn:Hgt.
    + exists (before ++ best :: after), []. split; [reflexivity|]. split.
      * intros e He. apply in_app_or in He. destruct He as [He|[<-|He]].
        -- apply fgt_trans with (snd best); auto.
        -- exact Hgt.
        -- destruct (fgt_cotrans _ _ (snd e) Hgt) as [Hie|Heb]; [exact Hie|].
           rewrite (Hafter e He) in Heb. discriminate.
      * intros e [].
    + exists before, (after ++ [item]). split.
      * rewrite <- app_assoc. reflexivity.
      * split; [exact Hbefore|]. intros e He.
        apply in_app_or in He. destruct He as [He|[<-|[]]]; auto.
Qed.

Lemma py_max_first_max (first : Z * F) others :
  first_max snd (first :: others) (fold_left keep_max others first).
Proof.
  apply (@keep_max_invariant others [first] first).
  exists [], []. split; [reflexivity|]. split; intros e [].
Qed.

(** On the items [(c, f c)] of a dictionary, [max] returns the first key
    of maximal value. *)
Lemma py_max_map (f : Z -> F) (cs : list Z) :
  cs <> [] ->
  exists c, py_max (map (fun c => (c, f c)) cs) = Return c /\ first_max f cs c.
Proof.
  destruct cs as [|c0 cs]; [congruence|]. intros _. simpl.
  eexists. split; [reflexivity|].
  pose proof (py_max_first_max (c0, f c0) (map (fun c => (c, f c)) cs)) as Hmax.
  set (best := fold_left keep_max (map (fun c => (c, f c)) cs) (c0, f c0)) in *.
  destruct Hmax as (before & after & Heq & Hbefore & Hafter).
  change ((c0, f c0) :: map (fun c => (c, f c)) cs)
    with (map (fun c => (c, f c)) (c0 :: cs)) in Heq.
  apply map_eq_app in Heq as (cs1 & cs2 & Hcs & <- & Hrest).
  apply map_eq_cons in Hrest as (c & cs3 & -> & Hc & <-).
  exists cs1, cs3. rewrite <- Hc in *. simpl fst. split; [exact Hcs|]. split.
  - intros c' Hc'. apply (Hbefore (c', f c')).
    apply in_map_iff. now exists c'.
  - intros c' Hc'. apply (Hafter (c', f c')).
    apply in_map_iff. now exists c'.
Qed.
End Max.

(** * The dictionaries of a model trained once *)

(** On a new object, [train] enters the classes in the order of
    [np.unique]. *)
Lemma trained_once_keys X Y :
  dict_keys (class_prior (trained_state X Y __init__)) = np_unique Y.
Proof.
  rewrite trained_state_class_prior. simpl class_prior.
  rewrite (dict_fold_set_fresh (fun c => np_mean (np_equal Y c)))
    by apply np_unique_NoDup.
  unfold dict_keys. rewrite map_map. simpl. apply map_id.
Qed.

(** On a new object, the table of a class has no entry beyond [V]. *)
Lemma trained_once_no_entry X Y c d j :
  dict_get c (likelihood (trained_state X Y __init__)) = Some d ->
  shape1 X <= j -> dict_get j (items d) = None.
Proof.
  rewrite trained_state_likelihood_get.
  destruct (in_dec Z.eq_dec c (np_unique Y)); [|discriminate].
  intros [= <-] Hj. rewrite class_table_get.
  destruct (Nat.ltb_spec j (shape1 X)); [lia|]. reflexivity.
Qed.

(** * The label of a row *)

Section PredictRow.
Context {F : Type} {L : LogFloat F}.

(** When every class has its score, [class_probs] holds them in the order
    of [self.class_prior]. *)
Lemma class_probs_run x self :
  NoDup (dict_keys (class_prior self)) ->
  (forall c, In c (dict_keys (class_prior self)) ->
     log_prob_of x c self = (Return (score self x c), self)) ->
  predict_row x self
  = (py_max (map (fun c => (c, score self x c)) (dict_keys (class_prior self))),
     self).
Proof.
  intros Hnd Hscore. unfold predict_row.
  unfold bind at 1, gets at 1.
  erewrite bind_Return.
  2: { apply (for_acc_pure (fun acc c => dict_set c (score self x c) acc)).
       intros acc c Hc. unfold bind. now rewrite (Hscore c Hc). }
  rewrite (dict_fold_set_fresh (fun c => score self x c)) by exact Hnd.
  reflexivity.
Qed.

Lemma predict_rows_run (P : list Z -> Z -> Prop) self l :
  (forall x, In x l -> exists c, predict_row x self = (Return c, self) /\ P x c) ->
  forall acc, exists labels,
    for_acc l acc (fun predictions x =>
        label <- predict_row x ;; ret (predictions ++ [label])) self
    = (Return (acc ++ labels), self) /\
    Forall2 P l labels.
Proof.
  induction l as [|x l IH]; intros Hrow acc; simpl.
  - exists []. rewrite app_nil_r. split; [reflexivity|constructor].
  - destruct (Hrow x (or_introl eq_refl)) as (c & Hc & HP).
    destruct (IH (fun x' Hx' => Hrow x' (or_intror Hx')) (acc ++ [c]))
      as (labels & Hrun & Hall).
    exists (c :: labels). split; [|now constructor].
    unfold bind at 1. unfold bind at 1. rewrite Hc. unfold ret at 1.
    rewrite Hrun. now rewrite <- app_assoc.
Qed.
End PredictRow.

Lemma predict_row_first_max {F : Type} {L : LogFloat F} {O : LogFloatOrder F}
    x self :
  NoDup (dict_keys (class_prior self)) ->
  dict_keys (class_prior self) <> [] ->
  (forall c, In c (dict_keys (class_prior self)) ->
     log_prob_of x c self = (Return (score self x c), self)) ->
  exists c, predict_row x self = (Return c, self) /\
            first_max (score self x) (dict_keys (class_prior self)) c.
Proof.
  intros Hnd Hne Hscore. rewrite (class_probs_run x Hnd Hscore).
  destruct (py_max_map (score self x) Hne) as (c & Hmax & Hfirst).
  exists c. now rewrite Hmax.
Qed.

(** * The two readings of the scores give the same labels *)

Lemma for_acc_agree {A B1 B2} (R : B1 -> B2 -> Prop)
      (body1 : B1 -> A -> M B1) (body2 : B2 -> A -> M B2) self l :
  (forall a b1 b2, In a l -> R b1 b2 ->
     agree R self (body1 b1 a self) (body2 b2 a self)) ->
  forall b1 b2, R b1 b2 ->
    agree R self (for_acc l b1 body1 self) (for_acc l b2 body2 self).
Proof.
  induction l as [|a l IH]; intros Hbody b1 b2 Hb; simpl.
  - repeat split. exact Hb.
  - unfold bind.
    destruct (Hbody a b1 b2 (or_introl eq_refl) Hb) as (H1 & H2 & H3).
    destruct (body1 b1 a self) as [[c1|e1] s1];
      destruct (body2 b2 a self) as [[c2|e2] s2];
      simpl in H1, H2, H3; subst; try contradiction.
    + apply IH; [|exact H3]. intros a' b1' b2' Hin. apply Hbody. now right.
    + repeat split.
Qed.

Lemma readable_spec self :
  readable self = true ->
  plain_tables self /\
  (forall c p, dict_get c (class_prior self) = Some p -> (0 < p)%Q) /\
  (forall c d j v, dict_get c (likelihood self) = Some d ->
     dict_get j (items d) = Some v -> (0 < v)%Q).
Proof.
  unfold readable, positive_tables. rewrite !andb_true_iff.
  intros ((Hplain & Hprior) & Hlik).
  rewrite forallb_forall in Hplain.
  split; [|split].
  - intros c Hc. specialize (Hplain c Hc).
    destruct (dict_get c (likelihood self)) as [d|]; [|discriminate].
    exists d. split; [reflexivity|]. now apply negb_true_iff.
  - intros c p Hp. apply (positive_value_iff c).
    exact (forallb_dict_get (fun q => negb (Qle_bool q 0)) _ _ Hprior Hp).
  - intros c d j v Hd Hv. apply (positive_value_iff j).
    pose proof (forallb_dict_get (fun d => forallb positive_value (items d))
                  _ _ Hlik Hd) as Hitems.
    exact (forallb_dict_get (fun q => negb (Qle_bool q 0)) _ _ Hitems Hv).
Qed.

Lemma agree_eq {B} self (r1 r2 : outcome B * NaiveBayes) :
  agree eq self r1 r2 -> r1 = r2.
Proof.
  destruct r1 as [[a|e] s1], r2 as [[b|e'] s2]; intros (H1 & H2 & H3);
    simpl in *; subst; try contradiction; reflexivity.
Qed.

Lemma bind_agree {B1 B2 C} (R : B1 -> B2 -> Prop) (f1 : M B1) (f2 : M B2)
      (g1 : B1 -> M C) (g2 : B2 -> M C) self :
  agree R self (f1 self) (f2 self) ->
  (forall b1 b2, R b1 b2 -> g1 b1 self = g2 b2 self) ->
  bind f1 g1 self = bind f2 g2 self.
Proof.
  intros (H1 & H2 & H3) Hg. unfold bind.
  destruct (f1 self) as [[a|e] s1]; destruct (f2 self) as [[b|e'] s2];
    simpl in *; subst; try contradiction; [now apply Hg|reflexivity].
Qed.

Section Agreement.
Context {F1 F2 : Type} {L1 : LogFloat F1} {L2 : LogFloat F2}.
Variable rel : F1 -> F2 -> Prop.
Hypothesis rel_log : forall q, (0 < q)%Q -> rel (np_log q) (np_log q).
Hypothesis rel_add :
  forall a b a' b', rel a b -> rel a' b' -> rel (fadd a a') (fadd b b').
Hypothesis rel_gt :
  forall a b a' b', rel a b -> rel a' b' -> fgt a a' = fgt b b'.
Variable self : NaiveBayes.
Hypothesis self_readable : readable self = true.

Lemma log_prob_agree x c :
  agree rel self (log_prob_of (F := F1) x c self) (log_prob_of (F := F2) x c self).
Proof.
  destruct (readable_spec self self_readable) as (Hplain & Hprior & Hlik).
  unfold log_prob_of. unfold bind at 1 3, class_prior_getitem.
  destruct (dict_get c (class_prior self)) as [p|] eqn:Hp; [|now repeat split].
  destruct (Hplain c (dict_get_Some_In _ _ Hp)) as (d & Hd & Hdef).
  apply for_acc_agree; [|apply rel_log; eauto].
  intros j b1 b2 _ Hb.
  destruct (nth j x 0 >? 0)%Z; [|now repeat split].
  unfold bind. rewrite (likelihood_getitem2_plain _ j _ Hd Hdef).
  destruct (dict_get j (items d)) as [v|] eqn:Hv; [|now repeat split].
  repeat split. simpl. apply rel_add; [exact Hb|]. apply rel_log. eauto.
Qed.

Lemma dict_set_item_rel c v1 v2 d1 d2 :
  Forall2 (item_rel rel) d1 d2 -> rel v1 v2 ->
  Forall2 (item_rel rel) (dict_set c v1 d1) (dict_set c v2 d2).
Proof.
  intros Hd Hv. induction Hd as [|[k1 w1] [k2 w2] d1 d2 [Hk Hw] Hd IH]; simpl.
  - repeat constructor. exact Hv.
  - simpl in Hk. subst k2. destruct (c =? k1)%Z.
    + constructor; [split; [reflexivity|exact Hv]|exact Hd].
    + constructor; [split; [reflexivity|exact Hw]|exact IH].
Qed.

Lemma keep_max_item_rel l1 l2 :
  Forall2 (item_rel rel) l1 l2 -> forall b1 b2, item_rel rel b1 b2 ->
  item_rel rel (fold_left keep_max l1 b1) (fold_left keep_max l2 b2).
Proof.
  induction 1 as [|p1 p2 l1 l2 Hp Hl IH]; intros b1 b2 Hb; simpl; [exact Hb|].
  apply IH. unfold keep_max.
  rewrite (rel_gt (proj2 Hp) (proj2 Hb)).
  now destruct (fgt (snd p2) (snd b2)).
Qed.

Lemma py_max_agree d1 d2 : Forall2 (item_rel rel) d1 d2 -> py_max d1 = py_max d2.
Proof.
  intros [|p1 p2 l1 l2 Hp Hl]; simpl; [reflexivity|].
  f_equal. apply (keep_max_item_rel Hl Hp).
Qed.

Lemma predict_row_agree x :
  predict_row (F := F1) x self = predict_row (F := F2) x self.
Proof.
  unfold predict_row.
  apply (bind_agree (R := eq)); [now repeat split|]. intros cs ? <-.
  apply (bind_agree (R := Forall2 (item_rel rel))).
  - apply for_acc_agree; [|constructor]. intros c d1 d2 _ Hd.
    destruct (log_prob_agree x c) as (H1 & H2 & H3). unfold bind.
    destruct (log_prob_of (F := F1) x c self) as [[v1|e1] s1];
      destruct (log_prob_of (F := F2) x c self) as [[v2|e2] s2];
      simpl in H1, H2, H3; subst; try contradiction; repeat split.
    simpl. now apply dict_set_item_rel.
  - intros d1 d2 Hd. unfold lift. now rewrite (py_max_agree Hd).
Qed.

Lemma predict_agree X :
  predict (F := F1) X self = predict (F := F2) X self.
Proof.
  unfold predict. apply agree_eq with (self := self).
  apply for_acc_agree; [|reflexivity]. intros x acc ? _ <-.
  unfold bind. rewrite predict_row_agree.
  pose proof (@predict_row_frame F2 L2 x self
                (proj1 (readable_spec self self_readable))) as Hsame.
  destruct (predict_row (F := F2) x self) as [[c|e] s]; simpl in Hsame; subst;
    now repeat split.
Qed.
End Agreement.

(** * The real scores and their exact image *)

Lemma Q2R_pos q : (0 < q)%Q -> (0 < Q2R q)%R.
Proof.
  intros Hq. apply Qreals.Qlt_Rlt in Hq.
  replace (Q2R 0) with 0%R in Hq by (unfold Q2R; simpl; lra). exact Hq.
Qed.

Lemma log_of_log q : (0 < q)%Q -> log_of (@np_log R RealLog q) (@np_log Q ExpLog q).
Proof. intros Hq. split; [exact Hq|reflexivity]. Qed.

Lemma log_of_add a b a' b' :
  log_of a b -> log_of a' b' ->
  log_of (@fadd R RealLog a a') (@fadd Q ExpLog b b').
Proof.
  intros [Hb ->] [Hb' ->]. simpl. split.
  - rewrite <- (Qmult_0_l b'). apply Qmult_lt_compat_r; assumption.
  - rewrite Qreals.Q2R_mult. symmetry. apply ln_mult; now apply Q2R_pos.
Qed.

Lemma log_of_gt a b a' b' :
  log_of a b -> log_of a' b' ->
  @fgt R RealLog a a' = @fgt Q ExpLog b b'.
Proof.
  intros [Hb ->] [Hb' ->].
  destruct (@fgt Q ExpLog b b') eqn:E.
  - apply ExpLog_fgt in E. simpl.
    destruct (Rgt_dec (ln (Q2R b)) (ln (Q2R b'))) as [_|Hn]; [reflexivity|].
    exfalso. apply Hn. apply ln_increasing; [now apply Q2R_pos|].
    now apply Qreals.Qlt_Rlt.
  - simpl. destruct (Rgt_dec (ln (Q2R b)) (ln (Q2R b'))) as [Hgt|_]; [|reflexivity].
    apply ln_lt_inv in Hgt; try now apply Q2R_pos.
    apply Qreals.Rlt_Qlt in Hgt. apply ExpLog_fgt in Hgt. congruence.
Qed.

(** On a readable model, [predict] with real logarithms returns what the
    exact image computes. *)
Lemma predict_real_exact self X :
  readable self = true ->
  predict (F := R) X self = @predict Q ExpLog X self.
Proof.
  intros Hread.
  apply (@predict_agree R Q RealLog ExpLog log_of
           log_of_log log_of_add log_of_gt self Hread).
Qed.

(** * Positive values *)

Lemma true_divide_pos a b : (0 < a)%Q -> (0 < b)%Q -> (0 < true_divide a b)%Q.
Proof.
  intros Ha Hb. rewrite true_divide_correct.
  apply Qlt_shift_div_l; [exact Hb|]. now rewrite Qmult_0_l.
Qed.

Lemma np_mean_pos Y c : In c Y -> (0 < np_mean (np_equal Y c))%Q.
Proof.
  intros Hc. rewrite np_mean_class_size. apply Qdiv_unit_interval.
  - apply class_size_pos in Hc. lia.
  - pose proof (class_size_le Y c). lia.
Qed.

(** * Rows of another length *)

Lemma beyond_false V x j :
  beyond V x = false -> j < length x -> (nth j x 0 >? 0)%Z = true -> j < V.
Proof.
  unfold beyond. intros Hb Hj Hpos.
  destruct (Nat.lt_ge_cases j V) as [Hlt|Hge]; [exact Hlt|].
  assert (Hex : existsb (fun j => Nat.leb V j && (nth j x 0 >? 0)%Z)
                  (seq 0 (length x)) = true).
  { apply existsb_exists. exists j. split; [apply in_seq; lia|].
    apply andb_true_iff. split; [now apply Nat.leb_le|exact Hpos]. }
  congruence.
Qed.

Lemma beyond_true V x :
  beyond V x = true ->
  exists j, In j (seq 0 (length x)) /\ (nth j x 0 >? 0)%Z = true /\ V <= j.
Proof.
  unfold beyond. intros Hb. apply existsb_exists in Hb as (j & Hin & Hj).
  apply andb_true_iff in Hj as [Hge Hpos]. apply Nat.leb_le in Hge. eauto.
Qed.

Section PredictLength.
Context {F : Type} {L : LogFloat F}.
Variables (X : ndarray) (Y : list Z).
Hypothesis Hvalid : valid_input X Y = true.

Lemma trained_once_classes_nonempty :
  dict_keys (class_prior (trained_state X Y __init__)) <> [].
Proof.
  rewrite trained_once_keys. apply np_unique_nonempty.
  apply valid_input_spec in Hvalid as (_ & HN & _).
  destruct Y; [simpl in HN; lia|discriminate].
Qed.

(** A row without a positive entry beyond the vocabulary gets a label. *)
Lemma predict_row_within x :
  beyond (shape1 X) x = false ->
  exists c, predict_row x (trained_state X Y __init__)
            = (Return c, trained_state X Y __init__).
Proof.
  intros Hb. pose proof (valid_input_spec _ _ Hvalid) as (Hlen & _).
  rewrite class_probs_run.
  - pose proof trained_once_classes_nonempty as Hne.
    destruct (dict_keys (class_prior (trained_state X Y __init__))) as [|c0 cs]; [congruence|].
    simpl. eauto.
  - rewrite trained_once_keys. apply np_unique_NoDup.
  - intros c Hc. rewrite trained_once_keys in Hc.
    destruct (trained_state_complete X Y __init__ c Hlen Hc)
      as (p & d & Hp & Hd & Hdef & Hhas).
    apply log_prob_of_score with (p := p) (d := d); try assumption.
    intros j Hj Hpos. apply Hhas. eapply beyond_false; eauto.
Qed.

(** A row with a positive entry beyond the vocabulary makes the lookup in
    the table of the first class raise. *)
Lemma predict_row_beyond x :
  beyond (shape1 X) x = true ->
  predict_row x (trained_state X Y __init__)
  = (Raise KeyError, trained_state X Y __init__).
Proof.
  intros Hb. pose proof (valid_input_spec _ _ Hvalid) as (Hlen & _).
  apply beyond_true in Hb as (j & Hin & Hpos & Hge).
  unfold predict_row. unfold bind at 1, gets at 1.
  pose proof trained_once_classes_nonempty as Hne.
  destruct (dict_keys (class_prior (trained_state X Y __init__))) as [|c0 cs] eqn:Hkeys; [congruence|].
  assert (Hc0 : In c0 (np_unique Y)).
  { rewrite trained_once_keys in Hkeys. rewrite Hkeys. now left. }
  destruct (trained_state_complete X Y __init__ c0 Hlen Hc0)
    as (p & d & Hp & Hd & Hdef & _).
  simpl for_acc. unfold bind at 1. unfold bind at 1. unfold bind at 1.
  unfold log_prob_of. unfold bind at 1, class_prior_getitem.
  rewrite Hp.
  rewrite (word_scan_KeyError x c0 (trained_state X Y __init__)
             (seq 0 (length x)) Hd Hdef); [reflexivity|].
  exists j. split; [exact Hin|]. split; [exact Hpos|].
  eapply trained_once_no_entry; eauto.
Qed.

Lemma predict_rows_within l :
  forallb (fun x => negb (beyond (shape1 X) x)) l = true ->
  forall acc, exists labels,
    for_acc l acc (fun predictions x =>
        label <- predict_row x ;; ret (predictions ++ [label]))
      (trained_state X Y __init__)
    = (Return (acc ++ labels), trained_state X Y __init__) /\
    length labels = length l.
Proof.
  intros Hall acc. rewrite forallb_forall in Hall.
  destruct (@predict_rows_run F L (fun _ _ => True)
              (trained_state X Y __init__) l) with (acc := acc)
    as (labels & Hrun & Hlabels).
  - intros x Hx. destruct (predict_row_within x) as (c & Hc).
    + apply negb_true_iff. now apply Hall.
    + eauto.
  - exists labels. split; [exact Hrun|].
    symmetry. eapply Forall2_length; eauto.
Qed.

Lemma predict_rows_beyond l :
  existsb (beyond (shape1 X)) l = true ->
  forall acc,
    for_acc l acc (fun predictions x =>
        label <- predict_row x ;; ret (predictions ++ [label]))
      (trained_state X Y __init__)
    = (Raise KeyError, trained_state X Y __init__).
Proof.
  induction l as [|x l IH]; intros Hex acc; simpl in Hex; [discriminate|].
  simpl. unfold bind at 1. unfold bind at 1.
  destruct (beyond (shape1 X) x) eqn:Hb.
  - now rewrite (predict_row_beyond x Hb).
  - destruct (predict_row_within x Hb) as (c & ->). unfold ret at 1.
    now apply IH.
Qed.
End PredictLength.

(** * The statements of the design document, on the code *)

(** C4, as the code has it.  The counts are [int64].  Whatever [self]
    held before, [train] returns on valid input in which, for every
    class, the sum of the entries of its rows plus [V] is below [2^63];
    the class set is the set of the labels and [V] is the number of
    columns; the total stored for a class [c] is the sum of all entries
    of the rows labelled [c], and the likelihood stored for term [j] of
    class [c] is [(r(c,j) + 1) / (total(c) + V)]; it is positive, and it
    is [1 / (total(c) + V)] when the term never occurs in the class. *)
Theorem train_laplace_smoothing (X : ndarray) (Y : list Z) (self : NaiveBayes) :
  valid_input X Y = true -> fits_int64 X Y = true ->
  exists m,
    train X Y self = (Return tt, m) /\
    (forall c, In c (classes m) <-> In c Y) /\
    vocab_size m = shape1 X /\
    forall c, In c (classes m) ->
      exists total d,
        dict_get c (class_word_counts m) = Some total /\
        total = class_term_total X Y c /\
        dict_get c (likelihood m) = Some d /\
        forall j, j < vocab_size m ->
          exists q,
            dict_get j (items d) = Some q /\
            (q == inject_Z (raw_count X Y c j + 1)
                  / inject_Z (total + Z.of_nat (vocab_size m)))%Q /\
            (0 < q)%Q /\
            (raw_count X Y c j = 0%Z ->
             (q == 1 / inject_Z (total + Z.of_nat (vocab_size m)))%Q).
Proof.
  intros Hv Hfits.
  pose proof (valid_input_spec _ _ Hv) as (Hlen & HN & HV & Hwf & Hpos).
  exists (trained_state X Y self). split; [now apply train_run|].
  rewrite trained_state_classes, trained_state_vocab_size.
  split; [intros c; apply np_unique_In|]. split; [reflexivity|]. intros c Hc.
  pose proof (fits_int64_class X Y c Hfits Hc) as Hfit.
  exists (class_term_total X Y c),
         (class_table X Y (shape1 X) (inner_of c self) c).
  split; [|split; [reflexivity|split]].
  - rewrite trained_state_word_counts_get.
    destruct (in_dec Z.eq_dec c (np_unique Y)); [|contradiction].
    now rewrite fitting_total.
  - rewrite trained_state_likelihood_get.
    destruct (in_dec Z.eq_dec c (np_unique Y)); [reflexivity|contradiction].
  - intros j Hj.
    destruct (trained_likelihood_entry X Y self c Hv Hfit Hc Hj)
      as (d & q & Hd & _ & Hq & Heq).
    rewrite trained_state_likelihood_get in Hd.
    destruct (in_dec Z.eq_dec c (np_unique Y)); [|contradiction].
    injection Hd as <-.
    exists q. split; [exact Hq|]. split; [exact Heq|]. split.
    + rewrite Heq. now apply laplace_unit_interval.
    + intros Hr. rewrite Heq, Hr. reflexivity.
Qed.

Lemma train_laplace_smoothing_witness :
  valid_input example_X example_Y = true /\
  fits_int64 example_X example_Y = true /\
  exists m,
    train example_X example_Y __init__ = (Return tt, m) /\
    (forall c, In c (classes m) <-> In c example_Y) /\
    vocab_size m = shape1 example_X /\
    forall c, In c (classes m) ->
      exists total d,
        dict_get c (class_word_counts m) = Some total /\
        total = class_term_total example_X example_Y c /\
        dict_get c (likelihood m) = Some d /\
        forall j, j < vocab_size m ->
          exists q,
            dict_get j (items d) = Some q /\
            (q == inject_Z (raw_count example_X example_Y c j + 1)
                  / inject_Z (total + Z.of_nat (vocab_size m)))%Q /\
            (0 < q)%Q /\
            (raw_count example_X example_Y c j = 0%Z ->
             (q == 1 / inject_Z (total + Z.of_nat (vocab_size m)))%Q).
Proof.
  split; [reflexivity|]. split; [reflexivity|].
  apply (train_laplace_smoothing example_X example_Y __init__); reflexivity.
Defined.

(** C4, as stated, fails.  One row [[2^62, 2^62]] of class 0 is valid
    input: the entries are not negative and each fits in [int64].  The
    sum of the entries is [2^63], the total that [train] stores is
    [-2^63], and the likelihood of the first term is negative: it is not
    [(r + 1) / (total + V)], which is [1/2]. *)
Lemma train_laplace_overflow :
  valid_input overflow_X overflow_Y = true /\
  class_term_total overflow_X overflow_Y 0 = 9223372036854775808%Z /\
  raw_count overflow_X overflow_Y 0 0 = 4611686018427387904%Z /\
  exists m,
    train overflow_X overflow_Y __init__ = (Return tt, m) /\
    dict_get 0%Z (class_word_counts m) = Some (-9223372036854775808)%Z /\
    (likelihood_of m 0 0 < 0)%Q /\
    ~ (likelihood_of m 0 0
       == inject_Z (raw_count overflow_X overflow_Y 0 0 + 1)
          / inject_Z (class_term_total overflow_X overflow_Y 0
                      + Z.of_nat (shape1 overflow_X)))%Q.
Proof.
  split; [vm_compute; reflexivity|]. split; [vm_compute; reflexivity|].
  split; [vm_compute; reflexivity|].
  eexists. split; [vm_compute; reflexivity|].
  split; [vm_compute; reflexivity|]. split; [vm_compute; reflexivity|].
  vm_compute. discriminate.
Qed.

(** C3, as the code has it.  The counts are [int64].  Whatever [self]
    held before, [train] returns on valid input in which, for every
    class, the sum of the entries of its rows plus [V] is below [2^63];
    the class set is the set of the labels and [V] is the number of
    columns; the priors of the classes of the class set are in (0, 1] and
    sum to 1, and for every class the likelihoods of the [V] terms are in
    (0, 1] and sum to 1, exactly. *)
Theorem train_probabilities (X : ndarray) (Y : list Z) (self : NaiveBayes) :
  valid_input X Y = true -> fits_int64 X Y = true ->
  exists m,
    train X Y self = (Return tt, m) /\
    (forall c, In c (classes m) <-> In c Y) /\
    vocab_size m = shape1 X /\
    (forall c, In c (classes m) ->
       exists p, dict_get c (class_prior m) = Some p /\ (0 < p)%Q /\ (p <= 1)%Q) /\
    (sum_Q (map (prior_of m) (classes m)) == 1)%Q /\
    (forall c, In c (classes m) ->
       exists d, dict_get c (likelihood m) = Some d /\
         forall j, j < vocab_size m ->
           exists q, dict_get j (items d) = Some q /\ (0 < q)%Q /\ (q <= 1)%Q) /\
    (forall c, In c (classes m) ->
       (sum_Q (map (likelihood_of m c) (seq 0 (vocab_size m))) == 1)%Q).
Proof.
  intros Hv Hfits.
  pose proof (valid_input_spec _ _ Hv) as (Hlen & HN & HV & Hwf & Hpos).
  exists (trained_state X Y self). split; [now apply train_run|].
  rewrite trained_state_classes, trained_state_vocab_size.
  assert (Hprior : forall c, In c (np_unique Y) ->
            dict_get c (class_prior (trained_state X Y self))
            = Some (np_mean (np_equal Y c))).
  { intros c Hc. rewrite trained_state_prior_get.
    destruct (in_dec Z.eq_dec c (np_unique Y)); [reflexivity|contradiction]. }
  assert (HNq : ~ (inject_Z (Z.of_nat (length Y)) == 0)%Q).
  { change 0%Q with (inject_Z 0). rewrite inject_Z_injective. lia. }
  split; [intros c; apply np_unique_In|]. split; [reflexivity|].
  split; [|split; [|split]].
  - intros c Hc. exists (np_mean (np_equal Y c)). split; [now apply Hprior|].
    rewrite np_mean_class_size. apply Qdiv_unit_interval.
    + apply (proj1 (np_unique_In Y c)) in Hc. apply class_size_pos in Hc. lia.
    + pose proof (class_size_le Y c). lia.
  - rewrite (sum_Q_ext (prior_of (trained_state X Y self))
               (fun c => inject_Z (Z.of_nat (class_size Y c))
                         / inject_Z (Z.of_nat (length Y)))%Q).
    + rewrite (sum_Q_div (fun c => Z.of_nat (class_size Y c))).
      rewrite class_sizes_total.
      * now apply Qmult_inv_r.
      * apply np_unique_NoDup.
      * intros y Hy. now apply np_unique_In.
    + intros c Hc. unfold prior_of. rewrite (Hprior c Hc).
      apply np_mean_class_size.
  - intros c Hc.
    exists (class_table X Y (shape1 X) (inner_of c self) c). split.
    + rewrite trained_state_likelihood_get.
      destruct (in_dec Z.eq_dec c (np_unique Y)); [reflexivity|contradiction].
    + intros j Hj.
      destruct (trained_likelihood_entry X Y self c Hv
                  (fits_int64_class X Y c Hfits Hc) Hc Hj)
        as (d & q & Hd & _ & Hq & Heq).
      rewrite trained_state_likelihood_get in Hd.
      destruct (in_dec Z.eq_dec c (np_unique Y)); [|contradiction].
      injection Hd as <-.
      exists q. split; [exact Hq|]. rewrite Heq.
      now apply laplace_unit_interval.
  - intros c Hc.
    set (den := inject_Z (class_term_total X Y c + Z.of_nat (shape1 X))).
    rewrite (sum_Q_ext (likelihood_of (trained_state X Y self) c)
               (fun j => inject_Z (raw_count X Y c j + 1) / den)%Q).
    + rewrite (sum_Q_div (fun j => (raw_count X Y c j + 1)%Z)).
      rewrite (sum_Z_map_add (raw_count X Y c) (fun _ => 1%Z)).
      rewrite raw_counts_total by assumption.
      rewrite (sum_Z_map_const 1%Z), length_seq, Z.mul_1_r.
      apply Qmult_inv_r. subst den.
      change 0%Q with (inject_Z 0). rewrite inject_Z_injective.
      pose proof (class_term_total_nonneg X Y c Hpos). lia.
    + intros j Hj. apply in_seq in Hj.
      destruct (trained_likelihood_entry X Y self c Hv
                  (fits_int64_class X Y c Hfits Hc) Hc (proj2 Hj))
        as (d & q & Hd & _ & Hq & Heq).
      unfold likelihood_of, inner_of, item_or_0. rewrite Hd, Hq. exact Heq.
Qed.

Lemma train_probabilities_witness :
  valid_input example_X example_Y = true /\
  fits_int64 example_X example_Y = true /\
  exists m,
    train example_X example_Y __init__ = (Return tt, m) /\
    (forall c, In c (classes m) <-> In c example_Y) /\
    vocab_size m = shape1 example_X /\
    (forall c, In c (classes m) ->
       exists p, dict_get c (class_prior m) = Some p /\ (0 < p)%Q /\ (p <= 1)%Q) /\
    (sum_Q (map (prior_of m) (classes m)) == 1)%Q /\
    (forall c, In c (classes m) ->
       exists d, dict_get c (likelihood m) = Some d /\
         forall j, j < vocab_size m ->
           exists q, dict_get j (items d) = Some q /\ (0 < q)%Q /\ (q <= 1)%Q) /\
    (forall c, In c (classes m) ->
       (sum_Q (map (likelihood_of m c) (seq 0 (vocab_size m))) == 1)%Q).
Proof.
  split; [reflexivity|]. split; [reflexivity|].
  apply (train_probabilities example_X example_Y __init__); reflexivity.
Defined.

(** C3, as stated, fails.  One row [[2^62, 2^62]] of class 0 is valid
    input, and the sum of its entries, [2^63], does not fit in [int64]:
    [train] stores the total [-2^63], the likelihoods of the two terms
    are negative, and their sum is not 1. *)
Lemma train_probabilities_overflow :
  valid_input overflow_X overflow_Y = true /\
  exists m,
    train overflow_X overflow_Y __init__ = (Return tt, m) /\
    In 0%Z (classes m) /\ vocab_size m = 2 /\
    dict_get 0%Z (class_word_counts m) = Some (-9223372036854775808)%Z /\
    (likelihood_of m 0 0 < 0)%Q /\
    (likelihood_of m 0 1 < 0)%Q /\
    ~ (sum_Q (map (likelihood_of m 0) (seq 0 (vocab_size m))) == 1)%Q.
Proof.
  split; [vm_compute; reflexivity|].
  eexists. split; [vm_compute; reflexivity|].
  split; [now left|]. split; [reflexivity|].
  split; [vm_compute; reflexivity|]. split; [vm_compute; reflexivity|].
  split; [vm_compute; reflexivity|].
  vm_compute. discriminate.
Qed.

(** C9.  On a trained model [predict] writes no attribute, whatever the
    input and whether it returns or raises; so a second call on the same
    input has the same outcome as the first. *)
Theorem predict_leaves_model {F : Type} `{LogFloat F} (m : NaiveBayes)
    (X : ndarray) :
  trained m ->
  snd (predict X m) = m /\
  fst (predict X (snd (predict X m))) = fst (predict X m).
Proof.
  intros Ht. pose proof (predict_frame X (trained_plain Ht)) as Hsame.
  split; [exact Hsame|]. now rewrite Hsame.
Qed.

Lemma predict_leaves_model_witness :
  trained example_model /\
  snd (predict (F := R) example_test example_model) = example_model /\
  fst (predict (F := R) example_test
         (snd (predict (F := R) example_test example_model)))
  = fst (predict (F := R) example_test example_model).
Proof.
  split; [exact example_trained|].
  apply (predict_leaves_model (F := R) example_test example_trained).
Defined.

(** C1.  A trained model has classes and terms.  For a class [c] of its
    class set and a row [x] of length [V], the value of [log_prob] is the
    logarithm of the prior of [c] plus the logarithm of the likelihood of
    each index [j] with [x[j] > 0], taken once; it and the labels that
    [predict] returns are the same for rows with the same positions of
    positive entries, whatever the counts there. *)
Theorem predict_presence_only {F : Type} `{LogFloat F} (m : NaiveBayes) :
  trained m ->
  classes m <> [] /\
  1 <= vocab_size m /\
  (forall c x, In c (classes m) -> length x = vocab_size m ->
     log_prob_of x c m = (Return (score m x c), m)) /\
  (forall c x x', same_presence x x' -> score m x c = score m x' c) /\
  (forall X X', Forall2 same_presence (rows X) (rows X') ->
     predict X m = predict X' m).
Proof.
  intros Ht. split; [|split; [|split; [|split]]].
  - now apply trained_classes_nonempty.
  - now apply trained_vocab_size_pos.
  - intros c x Hc Hx. now apply trained_log_prob.
  - intros c x x' Hsame. now apply score_presence.
  - intros X X' Hrows. now apply predict_presence.
Qed.

Lemma predict_presence_only_witness :
  trained example_model /\
  classes example_model <> [] /\
  1 <= vocab_size example_model /\
  (forall c x, In c (classes example_model) ->
     length x = vocab_size example_model ->
     log_prob_of (F := R) x c example_model
     = (Return (score example_model x c), example_model)) /\
  (forall c x x', same_presence x x' ->
     score (F := R) example_model x c = score example_model x' c) /\
  (forall X X', Forall2 same_presence (rows X) (rows X') ->
     predict (F := R) X example_model = predict X' example_model).
Proof.
  split; [exact example_trained|].
  apply (predict_presence_only (F := R) example_trained).
Defined.

(** C5.  [predict] walks the keys of [self.class_prior] in the order in
    which they were first entered, and a later call of [train] does not
    renew that order.  Trained on the label 1 and then on the labels 0
    and 1, the object has the class set 0, 1 and the keys 1, 0; the row
    [[1]] has the same score for both classes, so the first class of the
    class set with the maximal score is 0, and [predict] returns 1.  A
    new object trained on the second set returns 0. *)
Theorem predict_tie_after_retraining :
  valid_input tie_first_X tie_first_Y = true /\
  valid_input tie_second_X tie_second_Y = true /\
  train tie_second_X tie_second_Y
    (snd (train tie_first_X tie_first_Y __init__))
  = (Return tt, retrained_tie) /\
  train tie_second_X tie_second_Y __init__ = (Return tt, trained_tie) /\
  classes retrained_tie = [0; 1]%Z /\
  dict_keys (class_prior retrained_tie) = [1; 0]%Z /\
  score (F := R) retrained_tie [1]%Z 0 = score (F := R) retrained_tie [1]%Z 1 /\
  first_max (score (F := R) retrained_tie [1]%Z) (classes retrained_tie) 0%Z /\
  ~ first_max (score (F := R) retrained_tie [1]%Z) (classes retrained_tie) 1%Z /\
  predict (F := R) tie_row retrained_tie = (Return [1%Z], retrained_tie) /\
  predict (F := R) tie_row trained_tie = (Return [0%Z], trained_tie).
Proof.
  assert (Hm : retrained_tie
               = {| class_prior := [(1%Z, (1 # 2)%Q); (0%Z, (1 # 2)%Q)];
                    likelihood :=
                      [(1%Z, {| has_default := false; items := [(0, (1 # 1)%Q)] |});
                       (0%Z, {| has_default := false; items := [(0, (1 # 1)%Q)] |})];
                    classes := [0%Z; 1%Z];
                    class_word_counts := [(1%Z, 1%Z); (0%Z, 1%Z)];
                    vocab_size := 1 |}) by (vm_compute; reflexivity).
  assert (Hscore : score (F := R) retrained_tie [1]%Z 0
                   = score (F := R) retrained_tie [1]%Z 1).
  { rewrite Hm. unfold score, likelihood_of, prior_of, inner_of, item_or_0.
    simpl. reflexivity. }
  assert (Hno : forall a : R, @fgt R RealLog a a = false).
  { intros a. simpl. destruct (Rgt_dec a a) as [Hgt|_]; [|reflexivity].
    exfalso. exact (Rlt_irrefl a Hgt). }
  do 4 (split; [vm_compute; reflexivity|]).
  split; [vm_compute; reflexivity|]. split; [vm_compute; reflexivity|].
  split; [exact Hscore|]. split; [|split; [|split]].
  - replace (classes retrained_tie) with [0%Z; 1%Z] by (vm_compute; reflexivity).
    exists [], [1%Z]. split; [reflexivity|]. split; [intros c' []|].
    intros c' [<-|[]]. rewrite <- Hscore. apply Hno.
  - replace (classes retrained_tie) with [0%Z; 1%Z] by (vm_compute; reflexivity).
    intros (before & after & Hsplit & Hbefore & _).
    destruct before as [|b before]; [discriminate Hsplit|].
    injection Hsplit as <- Hrest.
    specialize (Hbefore 0%Z (or_introl eq_refl)).
    rewrite <- Hscore, Hno in Hbefore. discriminate.
  - rewrite predict_real_exact by (vm_compute; reflexivity).
    vm_compute. reflexivity.
  - rewrite predict_real_exact by (vm_compute; reflexivity).
    vm_compute. reflexivity.
Qed.

(** C2.  The scenario: training on the rows [[2,0],[0,3]] with labels
    [0,1] returns and leaves the priors 1/2 and 1/2, the totals 2 and 3,
    the likelihoods 3/4, 1/4 for class 0 and 1/5, 4/5 for class 1; on that
    model the row [1,0] scores higher for class 0 than for class 1, with
    real logarithms, and [predict] labels it 0. *)
Theorem scenario_two_terms :
  let m := {| class_prior := [(0%Z, (1 # 2)%Q); (1%Z, (1 # 2)%Q)];
              likelihood :=
                [(0%Z, {| has_default := false;
                          items := [(0, (3 # 4)%Q); (1, (1 # 4)%Q)] |});
                 (1%Z, {| has_default := false;
                          items := [(0, (1 # 5)%Q); (1, (4 # 5)%Q)] |})];
              classes := [0%Z; 1%Z];
              class_word_counts := [(0%Z, 2%Z); (1%Z, 3%Z)];
              vocab_size := 2 |} in
  train {| shape1 := 2; rows := [[2; 0]; [0; 3]]%Z |} [0; 1]%Z __init__
  = (Return tt, m) /\
  (score (F := R) m [1; 0]%Z 0 > score (F := R) m [1; 0]%Z 1)%R /\
  predict (F := R) {| shape1 := 2; rows := [[1; 0]]%Z |} m = (Return [0%Z], m).
Proof.
  intros m. split; [reflexivity|]. split.
  - unfold score, likelihood_of, prior_of, inner_of, item_or_0. simpl.
    apply Rplus_gt_compat_l. apply Rlt_gt. apply ln_increasing.
    + unfold Q2R; simpl; lra.
    + unfold Q2R; simpl; lra.
  - rewrite predict_real_exact by reflexivity. reflexivity.
Qed.

(** C6.  A second call of [train] replaces [self.classes] and
    [self.vocab_size], but enters its classes into the dictionaries that
    the first call filled.  Trained on the labels 0 and 1 and then on the
    label 0 alone, the object still holds the prior and the table of class
    1, which a new object trained on the second set does not hold, and it
    labels a row 1 that the new object labels 0. *)
Theorem retrain_keeps_old_classes :
  valid_input first_X first_Y = true /\
  valid_input second_X second_Y = true /\
  train second_X second_Y (snd (train first_X first_Y __init__))
  = (Return tt, retrained) /\
  train second_X second_Y __init__ = (Return tt, trained_afresh) /\
  classes retrained = [0%Z] /\
  classes trained_afresh = [0%Z] /\
  class_prior retrained = [(0%Z, (1 # 1)%Q); (1%Z, (1 # 2)%Q)] /\
  class_prior trained_afresh = [(0%Z, (1 # 1)%Q)] /\
  dict_keys (likelihood retrained) = [0%Z; 1%Z] /\
  dict_keys (likelihood trained_afresh) = [0%Z] /\
  predict (F := R) second_term_only retrained = (Return [1%Z], retrained) /\
  predict (F := R) second_term_only trained_afresh
  = (Return [0%Z], trained_afresh).
Proof.
  do 10 (split; [vm_compute; reflexivity|]). split.
  - rewrite predict_real_exact by (vm_compute; reflexivity).
    vm_compute. reflexivity.
  - rewrite predict_real_exact by (vm_compute; reflexivity).
    vm_compute. reflexivity.
Qed.

(** C7, as the code has it.  [train] checks nothing: it returns when it
    has one label per row, whatever [V], and when it has no label at all;
    otherwise [X[Y == c]] raises numpy's [IndexError].  [predict], on a
    model trained once on valid input, checks no length: when no row has a
    positive entry at an index that is [V] or more it returns one label
    per row, a shorter row being scored on the entries it has, and
    otherwise it raises [KeyError]. *)
Theorem train_predict_unchecked {F : Type} {L : LogFloat F}
    (X : ndarray) (Y : list Z) (self : NaiveBayes)
    (Xv : ndarray) (Yv : list Z) (Xt : ndarray) :
  valid_input Xv Yv = true ->
  fst (train X Y self)
  = (if Nat.eqb (length Y) (length (rows X)) || Nat.eqb (length Y) 0
     then Return tt else Raise IndexError) /\
  exists m,
    train Xv Yv __init__ = (Return tt, m) /\
    if existsb (beyond (vocab_size m)) (rows Xt)
    then predict Xt m = (Raise KeyError, m)
    else exists labels,
           predict Xt m = (Return labels, m) /\
           length labels = length (rows Xt).
Proof.
  intros Hv. split.
  - destruct (Nat.eqb_spec (length Y) (length (rows X))) as [Hlen|Hlen]; simpl.
    + now rewrite train_run.
    + destruct Y as [|y Y']; [reflexivity|]. simpl Nat.eqb.
      now apply train_mismatch.
  - pose proof (valid_input_spec _ _ Hv) as (Hlen & _).
    exists (trained_state Xv Yv __init__). split; [now apply train_run|].
    rewrite trained_state_vocab_size.
    destruct (existsb (beyond (shape1 Xv)) (rows Xt)) eqn:Hex.
    + unfold predict. now apply predict_rows_beyond.
    + destruct (@predict_rows_within F L Xv Yv Hv (rows Xt)) with (acc := @nil Z)
        as (labels & Hpredict & Hlabels).
      * apply forallb_forall. intros x Hx. apply negb_true_iff.
        destruct (beyond (shape1 Xv) x) eqn:Hb; [|reflexivity].
        assert (existsb (beyond (shape1 Xv)) (rows Xt) = true)
          by (apply existsb_exists; eauto).
        congruence.
      * exists labels. split; [exact Hpredict|exact Hlabels].
Qed.

Lemma train_predict_unchecked_witness :
  valid_input example_X example_Y = true /\
  fst (train example_X [0%Z] __init__)
  = (if Nat.eqb (length [0%Z]) (length (rows example_X))
        || Nat.eqb (length [0%Z]) 0
     then Return tt else Raise IndexError) /\
  exists m,
    train example_X example_Y __init__ = (Return tt, m) /\
    if existsb (beyond (vocab_size m)) (rows {| shape1 := 1; rows := [[1]]%Z |})
    then predict (F := R) {| shape1 := 1; rows := [[1]]%Z |} m
         = (Raise KeyError, m)
    else exists labels,
           predict (F := R) {| shape1 := 1; rows := [[1]]%Z |} m
           = (Return labels, m) /\
           length labels = length (rows {| shape1 := 1; rows := [[1]]%Z |}).
Proof.
  split; [reflexivity|].
  apply (train_predict_unchecked (F := R) example_X [0%Z] __init__
           example_X example_Y {| shape1 := 1; rows := [[1]]%Z |}).
  reflexivity.
Defined.

(** C7, as stated, fails: [train] returns on a vocabulary of size 0;
    with two rows and one label it raises [IndexError]; and [predict]
    labels a row of length 1 on a model trained with [V = 2]. *)
Lemma train_accepts_empty_vocabulary :
  train {| shape1 := 0; rows := [[]] |} [0%Z] __init__
  = (Return tt,
     {| class_prior := [(0%Z, (1 # 1)%Q)];
        likelihood := [(0%Z, {| has_default := false; items := [] |})];
        classes := [0%Z];
        class_word_counts := [(0%Z, 0%Z)];
        vocab_size := 0 |}) /\
  fst (train example_X [0%Z] __init__) = Raise IndexError /\
  predict (F := R) {| shape1 := 1; rows := [[1]]%Z |} example_model
  = (Return [0%Z], example_model).
Proof.
  split; [reflexivity|]. split; [reflexivity|].
  rewrite predict_real_exact by reflexivity. reflexivity.
Qed.

(** C8, as the code has it.  On an object that was never trained,
    [predict] returns the empty sequence for an input without rows, and
    for any other input [max] raises [ValueError] at the first row. *)
Theorem predict_untrained {F : Type} {L : LogFloat F} (X : ndarray) :
  predict X __init__
  = (match rows X with
     | [] => Return []
     | _ :: _ => Raise ValueError
     end, __init__).
Proof.
  unfold predict. destruct (rows X) as [|x l]; reflexivity.
Qed.

(** C8, as stated, fails: on a new object [predict] raises [ValueError],
    not [UntrainedModelError], and on an input without rows it returns. *)
Lemma predict_untrained_no_rows :
  fst (predict (F := R) {| shape1 := 2; rows := [] |} __init__) = Return [] /\
  fst (predict (F := R) example_test __init__) = Raise ValueError /\
  fst (predict (F := R) example_test __init__) <> Raise UntrainedModelError.
Proof.
  split; [reflexivity|]. split; [reflexivity|discriminate].
Qed.

(** C10.  With no rows and no labels [train] returns, whatever [self]
    held; on a new object it leaves the class set, the priors and the
    likelihoods empty, and [predict] on that model raises at the first row
    of any input that has one. *)
Theorem train_without_rows {F : Type} {L : LogFloat F} (V : nat)
    (self : NaiveBayes) (n : nat) (x : list Z) (others : list (list Z)) :
  fst (train {| shape1 := V; rows := [] |} [] self) = Return tt /\
  exists m,
    train {| shape1 := V; rows := [] |} [] __init__ = (Return tt, m) /\
    classes m = [] /\ class_prior m = [] /\ likelihood m = [] /\
    predict {| shape1 := n; rows := x :: others |} m = (Raise ValueError, m).
Proof.
  split; [reflexivity|]. eexists. split; [reflexivity|].
  repeat split.
Qed.

(** * Further properties of the two methods *)

(** ** Dictionaries: keys and extensionality *)

Section DictKeys.
Context {K V : Type} `{Hashable K}.

Lemma existsb_key_In (k : K) ks : existsb (key_eqb k) ks = true <-> In k ks.
Proof.
  rewrite existsb_exists. split.
  - intros (k' & Hin & Heq). apply key_eqb_eq in Heq. now subst.
  - intros Hin. exists k. split; [exact Hin|apply key_eqb_refl].
Qed.

Lemma dict_keys_set (k : K) (v : V) d :
  dict_keys (dict_set k v d) = keys_add (dict_keys d) k.
Proof.
  unfold keys_add. destruct (existsb (key_eqb k) (dict_keys d)) eqn:E.
  - apply dict_keys_set_in. now apply existsb_key_In.
  - apply dict_keys_set_notin. intros Hin. apply existsb_key_In in Hin. congruence.
Qed.

Lemma dict_keys_fold_set (f : K -> V) l d :
  dict_keys (fold_left (fun acc k => dict_set k (f k) acc) l d)
  = fold_left keys_add l (dict_keys d).
Proof.
  revert d. induction l as [|k l IH]; intros d; simpl; [reflexivity|].
  now rewrite IH, dict_keys_set.
Qed.

Lemma keys_add_in (k : K) ks : In k ks -> keys_add ks k = ks.
Proof.
  intros Hin. unfold keys_add.
  now rewrite (proj2 (existsb_key_In k ks) Hin).
Qed.

Lemma keys_add_notin (k : K) ks : ~ In k ks -> keys_add ks k = ks ++ [k].
Proof.
  intros Hn. unfold keys_add.
  destruct (existsb (key_eqb k) ks) eqn:E; [|reflexivity].
  apply existsb_key_In in E. contradiction.
Qed.

Lemma In_keys_add (k k' : K) ks : In k' (keys_add ks k) <-> k' = k \/ In k' ks.
Proof.
  destruct (in_dec key_eq_dec k ks) as [Hin|Hn].
  - rewrite keys_add_in by exact Hin. split; [auto|]. intros [->|H']; auto.
  - rewrite keys_add_notin by exact Hn. rewrite in_app_iff. simpl.
    split; [intros [H1|[<-|[]]]; auto|intros [->|H1]; auto].
Qed.

(** Keys that are all there stay as they are. *)
Lemma keys_add_all_in l : forall ks : list K,
  (forall k, In k l -> In k ks) -> fold_left keys_add l ks = ks.
Proof.
  induction l as [|k l IH]; intros ks Hall; simpl; [reflexivity|].
  rewrite keys_add_in by (apply Hall; now left).
  apply IH. intros k' Hk'. apply Hall. now right.
Qed.

(** Distinct keys entered into an empty dictionary stand in their order. *)
Lemma keys_add_all_new l : NoDup l -> fold_left keys_add l (@nil K) = l.
Proof.
  intros Hnd.
  assert (Hgen : forall ks, NoDup (ks ++ l) -> fold_left keys_add l ks = ks ++ l).
  { clear Hnd. induction l as [|k l IH]; intros ks Hks; simpl.
    - now rewrite app_nil_r.
    - rewrite keys_add_notin.
      + rewrite IH; rewrite <- app_assoc; [reflexivity|exact Hks].
      + apply NoDup_remove_2 in Hks. intros Hin. apply Hks.
        apply in_or_app. now left. }
  now apply (Hgen []).
Qed.

(** Two dictionaries with the same keys in the same order and the same
    value under each key are the same dictionary. *)
Lemma dict_ext (d1 d2 : dict K V) :
  NoDup (dict_keys d1) -> dict_keys d1 = dict_keys d2 ->
  (forall k, In k (dict_keys d1) -> dict_get k d1 = dict_get k d2) ->
  d1 = d2.
Proof.
  revert d2. induction d1 as [|[k v] d1 IH]; intros [|[k2 v2] d2] Hnd Hkeys Hget;
    simpl in *; try discriminate; [reflexivity|].
  injection Hkeys as <- Hkeys. inversion Hnd as [|? ? Hnin Hnd']; subst.
  pose proof (Hget k (or_introl eq_refl)) as Hk. rewrite key_eqb_refl in Hk.
  injection Hk as <-. f_equal. apply IH; [exact Hnd'|exact Hkeys|].
  intros k' Hk'. specialize (Hget k' (or_intror Hk')).
  rewrite key_eqb_neq in Hget; [exact Hget|].
  intros ->. contradiction.
Qed.

Lemma dict_keys_map (f : K -> V) l : dict_keys (map (fun k => (k, f k)) l) = l.
Proof. unfold dict_keys. rewrite map_map. simpl. apply map_id. Qed.

Lemma dict_get_map (f : K -> V) l k :
  dict_get k (map (fun k => (k, f k)) l)
  = if in_dec key_eq_dec k l then Some (f k) else None.
Proof.
  induction l as [|k' l IH]; simpl; [reflexivity|].
  destruct (key_eq_dec k' k) as [->|Hne].
  - now rewrite key_eqb_refl.
  - rewrite key_eqb_neq by congruence. rewrite IH.
    now destruct (in_dec key_eq_dec k l).
Qed.

(** Writing every key of a list into a dictionary that is empty, or has
    just these keys in this order, gives the same dictionary. *)
Lemma dict_fold_set_all (f : K -> V) l d :
  NoDup l -> dict_keys d = [] \/ dict_keys d = l ->
  fold_left (fun acc k => dict_set k (f k) acc) l d = map (fun k => (k, f k)) l.
Proof.
  intros Hnd [Hd|Hd].
  - destruct d; [|discriminate]. now apply dict_fold_set_fresh.
  - apply dict_ext.
    + rewrite dict_keys_fold_set, Hd, keys_add_all_in; auto.
    + rewrite dict_keys_fold_set, Hd, keys_add_all_in, dict_keys_map; auto.
    + intros k _. rewrite dict_get_fold_set, dict_get_map.
      destruct (in_dec key_eq_dec k l) as [Hin|Hn]; [reflexivity|].
      apply dict_get_notin. now rewrite Hd.
Qed.
End DictKeys.

(** ** A new object after [train], attribute by attribute *)

Lemma NaiveBayes_ext (m m' : NaiveBayes) :
  class_prior m = class_prior m' -> likelihood m = likelihood m' ->
  classes m = classes m' -> class_word_counts m = class_word_counts m' ->
  vocab_size m = vocab_size m' -> m = m'.
Proof. destruct m, m'; simpl; intros; subst; reflexivity. Qed.

Lemma np_mean_class_size_eq Y c :
  np_mean (np_equal Y c)
  = true_divide (inject_Z (Z.of_nat (class_size Y c)))
                (inject_Z (Z.of_nat (length Y))).
Proof. unfold np_mean. now rewrite count_mask, length_np_equal. Qed.

Lemma trained_classes_likelihood_keys X Y l self :
  dict_keys (likelihood (fold_left (trained_class X Y) l self))
  = fold_left keys_add l (dict_keys (likelihood self)).
Proof.
  revert self. induction l as [|c l IH]; intros self; simpl; [reflexivity|].
  rewrite IH. unfold trained_class; simpl. now rewrite dict_keys_set.
Qed.

Lemma trained_classes_word_counts_keys X Y l self :
  dict_keys (class_word_counts (fold_left (trained_class X Y) l self))
  = fold_left keys_add l (dict_keys (class_word_counts self)).
Proof.
  revert self. induction l as [|c l IH]; intros self; simpl; [reflexivity|].
  rewrite IH. unfold trained_class; simpl. now rewrite dict_keys_set.
Qed.

(** The table that [train] stores over an inner table that is empty, or
    has just the indices below [V], is the table of a new object. *)
Lemma class_table_fresh X Y old c :
  length Y = length (rows X) ->
  dict_keys (items old) = [] \/ dict_keys (items old) = seq 0 (shape1 X) ->
  class_table X Y (shape1 X) old c = stored_table X Y c.
Proof.
  intros Hlen Hold. unfold class_table, stored_table. f_equal.
  unfold counted.
  rewrite (dict_fold_set_all
             (fun j => inject_Z (int64 (np_sum1 (column (class_sample_of X Y c) j) + 1))))
    by (auto using seq_NoDup).
  unfold normalised. rewrite dict_keys_map.
  rewrite (dict_fold_set_fresh
             (fun j => true_divide
                (item_or_0 j
                   (map (fun k =>
                           (k, inject_Z
                                 (int64 (np_sum1 (column (class_sample_of X Y c) k)
                                         + 1))))
                      (seq 0 (shape1 X))))
                (inject_Z (int64 (np_sum (class_sample_of X Y c)
                           + Z.of_nat (shape1 X))))))
    by apply seq_NoDup.
  apply map_ext_in. intros j Hj. f_equal. f_equal.
  - unfold item_or_0.
    rewrite (dict_get_map
               (fun k => inject_Z (int64 (np_sum1 (column (class_sample_of X Y c) k) + 1)))).
    destruct (in_dec key_eq_dec j (seq 0 (shape1 X))); [|contradiction].
    now rewrite np_sum1_raw_count.
  - now rewrite np_sum_class_term_total.
Qed.

Lemma keys_after (l ks : list Z) :
  NoDup l -> ks = [] \/ ks = l -> fold_left keys_add l ks = l.
Proof.
  intros Hnd [->| ->]; [now apply keys_add_all_new|now apply keys_add_all_in].
Qed.

Lemma trained_state_shaped X Y self :
  length Y = length (rows X) -> shaped_for X Y self ->
  trained_state X Y self = stored_model X Y.
Proof.
  intros Hlen (Hprior & Hlik & Hcwc & Hinner).
  pose proof (np_unique_NoDup Y) as Hnd.
  apply NaiveBayes_ext.
  - rewrite trained_state_class_prior. simpl.
    rewrite (dict_fold_set_all (fun c => np_mean (np_equal Y c))) by assumption.
    apply map_ext. intros c. now rewrite np_mean_class_size_eq.
  - apply dict_ext.
    + unfold trained_state. rewrite trained_classes_likelihood_keys. simpl.
      now rewrite keys_after.
    + unfold trained_state. rewrite trained_classes_likelihood_keys. simpl.
      rewrite keys_after by assumption.
      unfold stored_model; simpl. now rewrite dict_keys_map.
    + intros c _. rewrite trained_state_likelihood_get.
      unfold stored_model; simpl. rewrite (dict_get_map (stored_table X Y)).
      destruct (in_dec Z.eq_dec c (np_unique Y)) as [Hin|Hn];
        destruct (in_dec key_eq_dec c (np_unique Y)) as [Hin'|Hn'];
        try contradiction.
      * f_equal. apply class_table_fresh; [exact Hlen|].
        unfold inner_of. destruct (dict_get c (likelihood self)) as [d|] eqn:Hd;
          [eapply Hinner; eauto|now left].
      * apply dict_get_notin. destruct Hlik as [-> | ->]; [intros []|exact Hn].
  - apply trained_state_classes.
  - apply dict_ext.
    + unfold trained_state. rewrite trained_classes_word_counts_keys. simpl.
      now rewrite keys_after.
    + unfold trained_state. rewrite trained_classes_word_counts_keys. simpl.
      rewrite keys_after by assumption.
      unfold stored_model; simpl. now rewrite dict_keys_map.
    + intros c _. rewrite trained_state_word_counts_get.
      unfold stored_model; simpl.
      rewrite (dict_get_map (fun c => int64 (class_term_total X Y c))).
      destruct (in_dec Z.eq_dec c (np_unique Y)) as [Hin|Hn];
        destruct (in_dec key_eq_dec c (np_unique Y)) as [Hin'|Hn'];
        try contradiction.
      * now rewrite np_sum_class_term_total.
      * apply dict_get_notin. destruct Hcwc as [-> | ->]; [intros []|exact Hn].
  - apply trained_state_vocab_size.
Qed.

Lemma shaped_for_init X Y : shaped_for X Y __init__.
Proof.
  unfold shaped_for; simpl. repeat split; now left.
Qed.

Lemma shaped_for_fresh X Y X' Y' :
  np_unique Y' = np_unique Y -> shape1 X' = shape1 X ->
  shaped_for X' Y' (stored_model X Y).
Proof.
  intros HY HX. unfold shaped_for, stored_model; simpl.
  rewrite !dict_keys_map, HY, HX. repeat split; try (now right).
  intros c d Hd. rewrite (dict_get_map (stored_table X Y)) in Hd.
  destruct (in_dec key_eq_dec c (np_unique Y)); [|discriminate].
  injection Hd as <-. right. simpl. now rewrite dict_keys_map.
Qed.

(** Two ascending lists without repetition that have the same elements
    are the same list. *)
Lemma sorted_ext (l1 l2 : list Z) :
  StronglySorted Z.lt l1 -> StronglySorted Z.lt l2 ->
  (forall c, In c l1 <-> In c l2) -> l1 = l2.
Proof.
  intros H1. revert l2. induction H1 as [|h1 t1 Hs1 IH Hall1]; intros l2 H2 Hin.
  - destruct l2 as [|h2 t2]; [reflexivity|].
    destruct (proj2 (Hin h2) (or_introl eq_refl)).
  - destruct H2 as [|h2 t2 Hs2 Hall2].
    + destruct (proj1 (Hin h1) (or_introl eq_refl)).
    + rewrite Forall_forall in Hall1, Hall2.
      assert (Hh : h1 = h2).
      { destruct (proj1 (Hin h1) (or_introl eq_refl)) as [Ha|Ha]; [now symmetry|].
        destruct (proj2 (Hin h2) (or_introl eq_refl)) as [Hb|Hb]; [exact Hb|].
        specialize (Hall1 _ Hb). specialize (Hall2 _ Ha). lia. }
      subst h2. f_equal. apply IH; [exact Hs2|]. intros c. split; intros Hc.
      * destruct (proj1 (Hin c) (or_intror Hc)) as [<-|Hc']; [|exact Hc'].
        specialize (Hall1 _ Hc). lia.
      * destruct (proj2 (Hin c) (or_intror Hc)) as [<-|Hc']; [|exact Hc'].
        specialize (Hall2 _ Hc). lia.
Qed.

Lemma np_unique_ext Y Y' :
  (forall c, In c Y <-> In c Y') -> np_unique Y = np_unique Y'.
Proof.
  intros Hin. apply sorted_ext; try apply np_unique_sorted.
  intros c. now rewrite !np_unique_In.
Qed.

(** A new object after [train], whatever the counts. *)
Lemma train_init_stored X Y :
  length Y = length (rows X) ->
  train X Y __init__ = (Return tt, stored_model X Y).
Proof.
  intros Hlen. rewrite train_run by exact Hlen. f_equal.
  apply trained_state_shaped; [exact Hlen|apply shaped_for_init].
Qed.

(** Where the counts fit, the numbers that are stored are those of the
    design document. *)
Lemma stored_model_fits X Y :
  valid_input X Y = true -> fits_int64 X Y = true ->
  stored_model X Y = fresh_model X Y.
Proof.
  intros Hv Hfits.
  pose proof (valid_input_spec _ _ Hv) as (Hlen & _ & _ & _ & Hpos).
  assert (Htotal : forall c, In c (np_unique Y) ->
            int64 (class_term_total X Y c) = class_term_total X Y c).
  { intros c Hc. rewrite <- np_sum_class_term_total by exact Hlen.
    apply fitting_total; [exact Hv|now apply fits_int64_class]. }
  unfold stored_model, fresh_model. f_equal.
  - apply map_ext_in. intros c Hc. f_equal.
    unfold stored_table, fresh_table. f_equal.
    apply map_ext_in. intros j Hj. apply in_seq in Hj.
    pose proof (fits_int64_class X Y c Hfits Hc) as Hfit.
    pose proof (@fitting_count X Y c j Hv Hfit (proj2 Hj)) as Hcount.
    pose proof (@fitting_denominator X Y c Hv Hfit) as Hden.
    rewrite np_sum1_raw_count in Hcount by exact Hlen.
    rewrite np_sum_class_term_total in Hden by exact Hlen.
    now rewrite Hcount, Hden.
  - apply map_ext_in. intros c Hc. f_equal. now apply Htotal.
Qed.

(** X1.  The counts are [int64].  A new object trained on valid input in
    which, for every class, the sum of the entries of its rows plus [V]
    is below [2^63] holds exactly this and nothing else: its classes are
    the distinct labels in ascending order; [class_prior],
    [class_word_counts] and [likelihood] have these classes as keys, in
    this order, with the share of the documents, the total of the counts
    and a plain table; the table of a class has the indices [0 .. V-1] in
    order, each with [(r(c,j) + 1) / (total(c) + V)]. *)
Theorem train_new_object (X : ndarray) (Y : list Z) :
  valid_input X Y = true -> fits_int64 X Y = true ->
  train X Y __init__ = (Return tt, fresh_model X Y).
Proof.
  intros Hv Hfits. pose proof (valid_input_spec _ _ Hv) as (Hlen & _).
  rewrite train_init_stored by exact Hlen.
  now rewrite stored_model_fits.
Qed.

Lemma train_new_object_witness :
  valid_input example_X example_Y = true /\
  fits_int64 example_X example_Y = true /\
  train example_X example_Y __init__
  = (Return tt, fresh_model example_X example_Y).
Proof.
  split; [vm_compute; reflexivity|]. split; [vm_compute; reflexivity|].
  apply (train_new_object example_X example_Y); vm_compute; reflexivity.
Defined.

(** X2.  When [train] is called a second time with the same number of
    columns and the same set of labels, nothing of the first call is left:
    the object is the one that a new object becomes on the second input.
    In particular a second call with the same input changes nothing. *)
Theorem retrain_same_classes (X1 : ndarray) (Y1 : list Z)
    (X2 : ndarray) (Y2 : list Z) :
  valid_input X1 Y1 = true -> valid_input X2 Y2 = true ->
  shape1 X2 = shape1 X1 -> (forall c, In c Y2 <-> In c Y1) ->
  train X2 Y2 (snd (train X1 Y1 __init__)) = train X2 Y2 __init__.
Proof.
  intros Hv1 Hv2 HV HY.
  pose proof (valid_input_spec _ _ Hv1) as (Hlen1 & _).
  pose proof (valid_input_spec _ _ Hv2) as (Hlen & _).
  rewrite (train_init_stored X1 Y1 Hlen1), (train_init_stored X2 Y2 Hlen).
  simpl snd.
  rewrite train_run by exact Hlen. f_equal.
  apply trained_state_shaped; [exact Hlen|].
  apply shaped_for_fresh; [now apply np_unique_ext|exact HV].
Qed.

Lemma retrain_same_classes_witness :
  valid_input first_X first_Y = true /\
  valid_input example_X example_Y = true /\
  shape1 example_X = shape1 first_X /\
  (forall c, In c example_Y <-> In c first_Y) /\
  train example_X example_Y (snd (train first_X first_Y __init__))
  = train example_X example_Y __init__.
Proof.
  assert (HY : forall c, In c example_Y <-> In c first_Y) by (intros c; reflexivity).
  split; [vm_compute; reflexivity|]. split; [vm_compute; reflexivity|].
  split; [reflexivity|]. split; [exact HY|].
  apply (retrain_same_classes first_X first_Y example_X example_Y);
    [vm_compute; reflexivity|vm_compute; reflexivity|reflexivity|exact HY].
Defined.

(** ** The order of the training documents *)

Lemma fold_left_pointwise {A B} (f g : A -> B -> A) l :
  (forall a b, f a b = g a b) -> forall a, fold_left f l a = fold_left g l a.
Proof.
  intros Hfg. induction l as [|b l IH]; intros a; simpl; [reflexivity|].
  now rewrite Hfg, IH.
Qed.

(** [train] reads its input through the classes, the shares of the
    classes, the number of columns, and the column sums and totals of the
    class samples. *)
Lemma trained_state_ext X Y X' Y' :
  np_unique Y' = np_unique Y -> shape1 X' = shape1 X ->
  (forall c, np_mean (np_equal Y' c) = np_mean (np_equal Y c)) ->
  (forall c j, sum_Z (column (class_sample_of X' Y' c) j)
               = sum_Z (column (class_sample_of X Y c) j)) ->
  (forall c, np_sum (class_sample_of X' Y' c) = np_sum (class_sample_of X Y c)) ->
  forall self, trained_state X' Y' self = trained_state X Y self.
Proof.
  intros HY HV Hmean Hcol Hsum self. unfold trained_state. rewrite HY, HV.
  rewrite (fold_left_pointwise
             (fun d c => dict_set c (np_mean (np_equal Y' c)) d)
             (fun d c => dict_set c (np_mean (np_equal Y c)) d))
    by (intros d c; now rewrite Hmean).
  apply fold_left_pointwise. intros s c.
  unfold trained_class, class_table, counted. rewrite Hsum.
  rewrite (fold_left_pointwise
             (fun acc j => dict_set j
                (inject_Z (int64 (np_sum1 (column (class_sample_of X' Y' c) j) + 1))) acc)
             (fun acc j => dict_set j
                (inject_Z (int64 (np_sum1 (column (class_sample_of X Y c) j) + 1))) acc))
    by (intros acc j; unfold np_sum1; now rewrite Hcol).
  reflexivity.
Qed.

Lemma sum_Z_Permutation l l' : Permutation l l' -> sum_Z l = sum_Z l'.
Proof. induction 1; simpl; lia. Qed.

Lemma map_fst_combine {A B} (l : list A) (l' : list B) :
  length l = length l' -> map fst (combine l l') = l.
Proof.
  revert l'. induction l as [|a l IH]; intros [|b l'] Hlen; simpl in *;
    try discriminate; [reflexivity|].
  f_equal. apply IH. lia.
Qed.

(** A sum over the rows of a class, as a sum over all labelled rows. *)
Lemma sum_rows_of_class (g : list Z -> Z) X Y c :
  sum_Z (map g (rows_of_class X Y c))
  = sum_Z (map (fun p => if (fst p =? c)%Z then g (snd p) else 0%Z)
             (combine Y (rows X))).
Proof.
  unfold rows_of_class. induction (combine Y (rows X)) as [|[y r] l IH]; simpl;
    [reflexivity|].
  destruct (y =? c)%Z; simpl; rewrite IH; lia.
Qed.

Lemma sum_rows_of_class_Permutation (g : list Z -> Z) X Y X' Y' c :
  Permutation (combine Y (rows X)) (combine Y' (rows X')) ->
  sum_Z (map g (rows_of_class X' Y' c)) = sum_Z (map g (rows_of_class X Y c)).
Proof.
  intros Hperm. rewrite !sum_rows_of_class. symmetry.
  apply sum_Z_Permutation. now apply Permutation_map.
Qed.

(** X3.  The order of the training documents does not matter: when the
    rows and their labels are permuted together, [train] has the same
    outcome and leaves the same object, whatever the object held. *)
Theorem train_permutation (X : ndarray) (Y : list Z) (X' : ndarray)
    (Y' : list Z) (self : NaiveBayes) :
  length Y = length (rows X) -> length Y' = length (rows X') ->
  shape1 X' = shape1 X ->
  Permutation (combine Y (rows X)) (combine Y' (rows X')) ->
  train X' Y' self = train X Y self.
Proof.
  intros Hlen Hlen' HV Hperm.
  assert (HY : Permutation Y Y').
  { rewrite <- (map_fst_combine Y (rows X) Hlen).
    rewrite <- (map_fst_combine Y' (rows X') Hlen').
    now apply Permutation_map. }
  rewrite !train_run by assumption. f_equal.
  apply trained_state_ext.
  - apply np_unique_ext. intros c. split; apply Permutation_in;
      [now apply Permutation_sym|exact HY].
  - exact HV.
  - intros c. rewrite !np_mean_class_size_eq. unfold class_size.
    rewrite (proj1 (Permutation_count_occ Z.eq_dec Y Y') HY c).
    now rewrite (Permutation_length HY).
  - intros c j. rewrite !column_sum_raw_count by assumption.
    unfold raw_count. now apply sum_rows_of_class_Permutation.
  - intros c. rewrite !np_sum_class_term_total by assumption.
    unfold class_term_total. f_equal.
    now apply sum_rows_of_class_Permutation.
Qed.

Lemma train_permutation_witness :
  length example_Y = length (rows example_X) /\
  length [1; 0]%Z = length (rows {| shape1 := 2; rows := [[0; 3]; [2; 0]]%Z |}) /\
  shape1 {| shape1 := 2; rows := [[0; 3]; [2; 0]]%Z |} = shape1 example_X /\
  Permutation (combine example_Y (rows example_X))
    (combine [1; 0]%Z (rows {| shape1 := 2; rows := [[0; 3]; [2; 0]]%Z |})) /\
  train {| shape1 := 2; rows := [[0; 3]; [2; 0]]%Z |} [1; 0]%Z __init__
  = train example_X example_Y __init__.
Proof.
  assert (Hperm : Permutation (combine example_Y (rows example_X))
            (combine [1; 0]%Z
               (rows {| shape1 := 2; rows := [[0; 3]; [2; 0]]%Z |})))
    by apply perm_swap.
  split; [reflexivity|]. split; [reflexivity|]. split; [reflexivity|].
  split; [exact Hperm|].
  apply (train_permutation example_X example_Y
           {| shape1 := 2; rows := [[0; 3]; [2; 0]]%Z |} [1; 0]%Z __init__);
    [reflexivity|reflexivity|reflexivity|exact Hperm].
Defined.

(** ** What a call of [train] leaves behind *)

(** When the labels are not one per row, [train] has run its first loop
    before [X[Y == c]] raises. *)
Lemma train_mismatch_run X Y self :
  Y <> [] -> length Y <> length (rows X) ->
  train X Y self
  = (Raise IndexError,
     set_class_prior
       (fold_left (fun d c => dict_set c (np_mean (np_equal Y c)) d)
          (np_unique Y) (class_prior self))
       (set_vocab_size (shape1 X) (set_classes (np_unique Y) self))).
Proof.
  intros Hne Hlen. unfold train.
  unfold bind at 1, modify at 1. unfold bind at 1, modify at 1.
  unfold bind at 1, gets at 1.
  unfold bind at 1.
  rewrite (for_each_fold
             (fun s c => set_class_prior
                           (dict_set c (np_mean (np_equal Y c)) (class_prior s)) s));
    [|reflexivity].
  unfold bind at 1, gets at 1. rewrite prior_loop_fold. simpl classes.
  destruct (np_unique Y) as [|c cs] eqn:E; [now apply np_unique_nonempty in E|].
  simpl for_each. unfold bind at 1. unfold train_class at 1.
  unfold bind at 1, lift at 1. now rewrite boolean_index_mismatch.
Qed.

(** X4.  [train] is not all or nothing.  When it has labels, but not one
    per row, it raises [IndexError] only after it has replaced
    [self.classes] and [self.vocab_size] and entered the prior of every
    label into [self.class_prior]; the priors of other classes, the
    likelihoods and the totals are still those of before. *)
Theorem train_raises_after_writing (X : ndarray) (Y : list Z)
    (self : NaiveBayes) :
  Y <> [] -> length Y <> length (rows X) ->
  exists m,
    train X Y self = (Raise IndexError, m) /\
    classes m = np_unique Y /\
    vocab_size m = shape1 X /\
    (forall c, In c Y ->
       dict_get c (class_prior m)
       = Some (true_divide (inject_Z (Z.of_nat (class_size Y c)))
                           (inject_Z (Z.of_nat (length Y))))) /\
    (forall c, ~ In c Y ->
       dict_get c (class_prior m) = dict_get c (class_prior self)) /\
    likelihood m = likelihood self /\
    class_word_counts m = class_word_counts self.
Proof.
  intros Hne Hlen. eexists. split; [now apply train_mismatch_run|].
  simpl. repeat split.
  - intros c Hc. rewrite (dict_get_fold_set (fun c => np_mean (np_equal Y c))).
    destruct (in_dec key_eq_dec c (np_unique Y)) as [_|Hn].
    + now rewrite np_mean_class_size_eq.
    + exfalso. apply Hn. now apply np_unique_In.
  - intros c Hc. rewrite (dict_get_fold_set (fun c => np_mean (np_equal Y c))).
    destruct (in_dec key_eq_dec c (np_unique Y)) as [Hin|_]; [|reflexivity].
    apply (proj1 (np_unique_In Y c)) in Hin. contradiction.
Qed.

Lemma train_raises_after_writing_witness :
  [5%Z] <> [] /\ length [5%Z] <> length (rows example_X) /\
  exists m,
    train example_X [5%Z] __init__ = (Raise IndexError, m) /\
    classes m = np_unique [5%Z] /\
    vocab_size m = shape1 example_X /\
    (forall c, In c [5%Z] ->
       dict_get c (class_prior m)
       = Some (true_divide (inject_Z (Z.of_nat (class_size [5%Z] c)))
                           (inject_Z (Z.of_nat (length [5%Z]))))) /\
    (forall c, ~ In c [5%Z] ->
       dict_get c (class_prior m) = dict_get c (class_prior __init__)) /\
    likelihood m = likelihood __init__ /\
    class_word_counts m = class_word_counts __init__.
Proof.
  assert (H1 : [5%Z] <> []) by discriminate.
  assert (H2 : length [5%Z] <> length (rows example_X)) by (simpl; lia).
  split; [exact H1|]. split; [exact H2|].
  apply (@train_raises_after_writing example_X [5%Z] __init__ H1 H2).
Defined.

(** What [train(X, Y)] does to an inner table that it finds: the indices
    below [V] get their new value, the others stay and are divided. *)
Lemma class_table_keeps X Y V old c j :
  dict_get j (items old) <> None ->
  dict_get j (items (class_table X Y V old c)) <> None.
Proof.
  intros Hj. rewrite class_table_get. destruct (j <? V); [discriminate|].
  destruct (dict_get j (items old)); [discriminate|contradiction].
Qed.

(** X5.  [train] never deletes.  Whether it returns or raises, every key
    of [self.class_prior], [self.likelihood] and [self.class_word_counts]
    is still a key afterwards, every index of every inner table is still
    there, and what is stored for a class that is no label of [Y] is
    what it was. *)
Theorem train_never_deletes (X : ndarray) (Y : list Z) (self : NaiveBayes)
    (c : Z) :
  (dict_get c (class_prior self) <> None ->
   dict_get c (class_prior (snd (train X Y self))) <> None) /\
  (dict_get c (class_word_counts self) <> None ->
   dict_get c (class_word_counts (snd (train X Y self))) <> None) /\
  (forall d j, dict_get c (likelihood self) = Some d ->
     dict_get j (items d) <> None ->
     exists d', dict_get c (likelihood (snd (train X Y self))) = Some d' /\
                dict_get j (items d') <> None) /\
  (~ In c Y ->
   dict_get c (class_prior (snd (train X Y self))) = dict_get c (class_prior self) /\
   dict_get c (class_word_counts (snd (train X Y self)))
   = dict_get c (class_word_counts self) /\
   dict_get c (likelihood (snd (train X Y self))) = dict_get c (likelihood self)).
Proof.
  destruct (Nat.eq_dec (length Y) (length (rows X))) as [Hlen|Hlen].
  - rewrite train_run by exact Hlen. simpl snd.
    rewrite trained_state_prior_get, trained_state_word_counts_get,
      trained_state_likelihood_get.
    destruct (in_dec Z.eq_dec c (np_unique Y)) as [Hin|Hn]; cbv iota.
    + split; [intros _ Habs; discriminate Habs|]. split; [intros _ Habs; discriminate Habs|]. split.
      * intros d j Hd Hj. eexists. split; [reflexivity|].
        apply class_table_keeps. unfold inner_of. now rewrite Hd.
      * intros Hc. apply (proj1 (np_unique_In Y c)) in Hin. contradiction.
    + split; [auto|]. split; [auto|]. split; [|auto].
      intros d j Hd Hj. exists d. auto.
  - destruct Y as [|y Y'].
    + simpl. repeat split; auto. intros d j Hd Hj. exists d. auto.
    + rewrite train_mismatch_run by (auto; discriminate).
      cbn [snd class_prior class_word_counts likelihood set_class_prior
           set_vocab_size set_classes].
      rewrite (dict_get_fold_set (fun c => np_mean (np_equal (y :: Y') c))).
      destruct (in_dec key_eq_dec c (np_unique (y :: Y'))) as [Hin|Hn];
        cbv iota.
      * split; [intros _ Habs; discriminate Habs|]. split; [auto|]. split.
        -- intros d j Hd Hj. exists d. auto.
        -- intros Hc. apply (proj1 (np_unique_In (y :: Y') c)) in Hin.
           contradiction.
      * repeat split; auto. intros d j Hd Hj. exists d. auto.
Qed.

(** X6.  An index beyond the new vocabulary is not reset.  When [train]
    finds, for a class among its labels, a table with an entry at an index
    that is [V] or more, the entry stays, and its value is divided by the
    new [total(c) + V], as if it were a count; this for a class whose
    new total plus [V] is below [2^63], so that the [int64] sums do not
    wrap around. *)
Theorem train_divides_old_indices (X : ndarray) (Y : list Z)
    (self : NaiveBayes) (c : Z) (j : nat) (d : inner_dict) (v : Q) :
  valid_input X Y = true -> class_fits X Y c = true ->
  In c Y -> shape1 X <= j ->
  dict_get c (likelihood self) = Some d ->
  dict_get j (items d) = Some v ->
  exists m d',
    train X Y self = (Return tt, m) /\
    dict_get c (likelihood m) = Some d' /\
    dict_get j (items d')
    = Some (true_divide v
              (inject_Z (class_term_total X Y c + Z.of_nat (shape1 X)))).
Proof.
  intros Hv Hfit Hc Hj Hd Hjv.
  pose proof (valid_input_spec _ _ Hv) as (Hlen & _).
  exists (trained_state X Y self). eexists.
  split; [now apply train_run|]. split.
  - rewrite trained_state_likelihood_get.
    destruct (in_dec Z.eq_dec c (np_unique Y)) as [_|Hn]; [reflexivity|].
    exfalso. apply Hn. now apply np_unique_In.
  - rewrite class_table_get.
    destruct (Nat.ltb_spec j (shape1 X)); [lia|].
    unfold inner_of. rewrite Hd, Hjv. cbn [option_map].
    now rewrite fitting_denominator.
Qed.

Lemma train_divides_old_indices_witness :
  valid_input {| shape1 := 1; rows := [[1]; [1]]%Z |} example_Y = true /\
  class_fits {| shape1 := 1; rows := [[1]; [1]]%Z |} example_Y 0 = true /\
  In 0%Z example_Y /\
  shape1 {| shape1 := 1; rows := [[1]; [1]]%Z |} <= 1 /\
  dict_get 0%Z (likelihood example_model)
  = Some {| has_default := false;
            items := [(0, (3 # 4)%Q); (1, (1 # 4)%Q)] |} /\
  dict_get 1 (items {| has_default := false;
                       items := [(0, (3 # 4)%Q); (1, (1 # 4)%Q)] |})
  = Some (1 # 4)%Q /\
  exists m d',
    train {| shape1 := 1; rows := [[1]; [1]]%Z |} example_Y example_model
    = (Return tt, m) /\
    dict_get 0%Z (likelihood m) = Some d' /\
    dict_get 1 (items d')
    = Some (true_divide (1 # 4)%Q
              (inject_Z (class_term_total {| shape1 := 1; rows := [[1]; [1]]%Z |}
                           example_Y 0
                         + Z.of_nat (shape1 {| shape1 := 1;
                                               rows := [[1]; [1]]%Z |})))).
Proof.
  assert (Hc : In 0%Z example_Y) by (now left).
  assert (Hj : shape1 {| shape1 := 1; rows := [[1]; [1]]%Z |} <= 1)
    by (simpl; lia).
  split; [vm_compute; reflexivity|]. split; [vm_compute; reflexivity|].
  split; [exact Hc|]. split; [exact Hj|].
  split; [vm_compute; reflexivity|]. split; [vm_compute; reflexivity|].
  apply (@train_divides_old_indices {| shape1 := 1; rows := [[1]; [1]]%Z |}
           example_Y example_model 0%Z 1
           {| has_default := false;
              items := [(0, (3 # 4)%Q); (1, (1 # 4)%Q)] |} (1 # 4)%Q);
    [vm_compute; reflexivity|vm_compute; reflexivity|exact Hc|exact Hj
    |vm_compute; reflexivity|vm_compute; reflexivity].
Defined.

(** ** What [predict] does in any state of the object *)

Lemma same_but_likelihood_refl m : same_but_likelihood m m.
Proof. repeat split. Qed.

Lemma same_but_likelihood_trans m1 m2 m3 :
  same_but_likelihood m1 m2 -> same_but_likelihood m2 m3 ->
  same_but_likelihood m1 m3.
Proof.
  intros (A1 & A2 & A3 & A4) (B1 & B2 & B3 & B4).
  repeat split; congruence.
Qed.

Lemma bind_same_but_likelihood {A B} (f : M A) (g : A -> M B) s :
  same_but_likelihood s (snd (f s)) ->
  (forall a s', same_but_likelihood s' (snd (g a s'))) ->
  same_but_likelihood s (snd (bind f g s)).
Proof.
  intros Hf Hg. unfold bind. destruct (f s) as [[a|e] s1]; simpl in *;
    [|exact Hf].
  eapply same_but_likelihood_trans; [exact Hf|apply Hg].
Qed.

Lemma for_acc_same_but_likelihood {A B} (body : B -> A -> M B) l :
  (forall acc a s, same_but_likelihood s (snd (body acc a s))) ->
  forall acc s, same_but_likelihood s (snd (for_acc l acc body s)).
Proof.
  intros Hbody. induction l as [|a l IH]; intros acc s; simpl.
  - apply same_but_likelihood_refl.
  - apply bind_same_but_likelihood; [apply Hbody|]. intros acc' s'. apply IH.
Qed.

Lemma likelihood_getitem2_same_but_likelihood c j s :
  same_but_likelihood s (snd (likelihood_getitem2 c j s)).
Proof.
  unfold likelihood_getitem2, bind, likelihood_getitem.
  destruct (dict_get c (likelihood s)) as [d|]; simpl.
  - destruct (dict_get j (items d)); [repeat split|].
    destruct (has_default d); repeat split.
  - repeat split.
Qed.

Section PredictAnyState.
Context {F : Type} {L : LogFloat F}.

Lemma log_prob_of_same_but_likelihood x c s :
  same_but_likelihood s (snd (log_prob_of x c s)).
Proof.
  unfold log_prob_of. apply bind_same_but_likelihood.
  - unfold class_prior_getitem.
    destruct (dict_get c (class_prior s)); apply same_but_likelihood_refl.
  - intros p s'. apply for_acc_same_but_likelihood. intros acc j s2.
    destruct (nth j x 0 >? 0)%Z; [|apply same_but_likelihood_refl].
    apply bind_same_but_likelihood.
    + apply likelihood_getitem2_same_but_likelihood.
    + intros v s3. apply same_but_likelihood_refl.
Qed.

Lemma predict_row_same_but_likelihood x s :
  same_but_likelihood s (snd (predict_row x s)).
Proof.
  unfold predict_row. apply bind_same_but_likelihood.
  - apply same_but_likelihood_refl.
  - intros cs s'. apply bind_same_but_likelihood.
    + apply for_acc_same_but_likelihood. intros acc c s2.
      apply bind_same_but_likelihood.
      * apply log_prob_of_same_but_likelihood.
      * intros lp s3. apply same_but_likelihood_refl.
    + intros probs s2. apply same_but_likelihood_refl.
Qed.

Lemma for_acc_invariant {A B} (P : B -> Prop) (body : B -> A -> M B) l :
  (forall acc a s acc' s', In a l -> P acc ->
     body acc a s = (Return acc', s') -> P acc') ->
  forall acc s r s', P acc -> for_acc l acc body s = (Return r, s') -> P r.
Proof.
  induction l as [|a l IH]; intros Hbody acc s r s' Hacc Hrun; simpl in Hrun.
  - injection Hrun as <- _. exact Hacc.
  - unfold bind in Hrun. destruct (body acc a s) as [[acc1|e] s1] eqn:Hb;
      [|discriminate].
    eapply IH; [|eapply Hbody; [now left|exact Hacc|exact Hb]|exact Hrun].
    intros acc2 a' s2 acc3 s3 Hin. apply Hbody. now right.
Qed.

Lemma keep_max_In (others : list (Z * F)) :
  forall first, In (fold_left keep_max others first) (first :: others).
Proof.
  induction others as [|item others IH]; intros first; simpl; [now left|].
  specialize (IH (keep_max first item)). unfold keep_max in *.
  destruct (fgt (snd item) (snd first)); simpl in IH; tauto.
Qed.

Lemma py_max_In (class_probs : dict Z F) c :
  py_max class_probs = Return c -> In c (dict_keys class_probs).
Proof.
  destruct class_probs as [|first others]; simpl; [discriminate|].
  intros [= <-]. apply (in_map fst _ _ (keep_max_In others first)).
Qed.

(** The label of a row is one of the keys of [self.class_prior]. *)
Lemma predict_row_label x s c s' :
  predict_row x s = (Return c, s') -> In c (dict_keys (class_prior s)).
Proof.
  unfold predict_row. unfold bind at 1, gets at 1. unfold bind at 1.
  destruct (for_acc (dict_keys (class_prior s)) []
              (fun class_probs c0 =>
                 log_prob <- log_prob_of x c0 ;;
                 ret (dict_set c0 log_prob class_probs)) s)
    as [[probs|e] s1] eqn:Hloop; [|discriminate].
  unfold lift. intros Hmax. injection Hmax as Hmax _.
  apply py_max_In in Hmax.
  refine (@for_acc_invariant Z (dict Z F)
            (fun acc : dict Z F =>
               forall k, In k (dict_keys acc) -> In k (dict_keys (class_prior s)))
            _ _ _ _ _ _ _ _ Hloop c Hmax).
  - intros acc a s2 acc' s3 Ha Hacc Hbody k Hk. unfold bind in Hbody.
    destruct (log_prob_of x a s2) as [[lp|e] s4]; [|discriminate].
    injection Hbody as <- _. rewrite dict_keys_set in Hk.
    apply In_keys_add in Hk as [->|Hk]; [exact Ha|now apply Hacc].
  - intros k [].
Qed.

Lemma predict_rows_labels l :
  forall acc s r s',
    for_acc l acc (fun predictions x =>
        label <- predict_row x ;; ret (predictions ++ [label])) s
    = (Return r, s') ->
    exists labels,
      r = acc ++ labels /\ length labels = length l /\
      Forall (fun c => In c (dict_keys (class_prior s))) labels.
Proof.
  induction l as [|x l IH]; intros acc s r s' Hrun; simpl in Hrun.
  - injection Hrun as <- _. exists []. rewrite app_nil_r. repeat split.
    constructor.
  - unfold bind at 1 in Hrun. unfold bind at 1 in Hrun.
    pose proof (predict_row_same_but_likelihood x s) as (Hprior & _).
    destruct (predict_row x s) as [[c|e] s1] eqn:Hrow; [|discriminate].
    unfold ret at 1 in Hrun. simpl in Hprior.
    destruct (IH _ _ _ _ Hrun) as (labels & -> & Hlen & Hall).
    exists (c :: labels). rewrite <- app_assoc. split; [reflexivity|].
    split; [simpl; now rewrite Hlen|].
    constructor; [eapply predict_row_label; eauto|].
    now rewrite Hprior in Hall.
Qed.
End PredictAnyState.

(** X7.  [predict] writes nothing but [self.likelihood].  In every state
    of the object, trained or not, and whether [predict] returns or
    raises, [self.class_prior], [self.classes], [self.class_word_counts]
    and [self.vocab_size] are afterwards what they were. *)
Theorem predict_writes_likelihood_only {F : Type} {L : LogFloat F}
    (X : ndarray) (self : NaiveBayes) :
  class_prior (snd (predict X self)) = class_prior self /\
  classes (snd (predict X self)) = classes self /\
  class_word_counts (snd (predict X self)) = class_word_counts self /\
  vocab_size (snd (predict X self)) = vocab_size self.
Proof.
  unfold predict. apply for_acc_same_but_likelihood. intros acc x s.
  apply bind_same_but_likelihood.
  - apply predict_row_same_but_likelihood.
  - intros c s'. apply same_but_likelihood_refl.
Qed.

(** X8.  In every state of the object, when [predict] returns, it returns
    one label for each row, and each label is a key of
    [self.class_prior]: a class that [train] has entered at some time. *)
Theorem predict_labels_known {F : Type} {L : LogFloat F}
    (X : ndarray) (self : NaiveBayes) (labels : list Z) (self' : NaiveBayes) :
  predict X self = (Return labels, self') ->
  length labels = length (rows X) /\
  Forall (fun c => In c (dict_keys (class_prior self))) labels.
Proof.
  unfold predict. intros Hrun.
  destruct (predict_rows_labels _ _ _ Hrun) as (l' & -> & Hlen & Hall).
  simpl. auto.
Qed.

Lemma predict_labels_known_witness :
  @predict Q ExpLog example_test example_model
  = (Return [0%Z], example_model) /\
  length [0%Z] = length (rows example_test) /\
  Forall (fun c => In c (dict_keys (class_prior example_model))) [0%Z].
Proof.
  assert (H : @predict Q ExpLog example_test example_model
              = (Return [0%Z], example_model)) by (vm_compute; reflexivity).
  split; [exact H|].
  apply (@predict_labels_known Q ExpLog example_test example_model
           [0%Z] example_model H).
Defined.

(** ** How [predict] can fail on a trained model *)

Lemma bind_Raise {A B} (f : M A) (g : A -> M B) self e self' :
  f self = (Raise e, self') -> bind f g self = (Raise e, self').
Proof. unfold bind. now intros ->. Qed.

Lemma returns_or_cases {A} (e : exn) self (r : outcome A * NaiveBayes) :
  returns_or e self r ->
  (exists a, r = (Return a, self)) \/ r = (Raise e, self).
Proof.
  destruct r as [[a|e'] s]; intros [Hs Ho]; simpl in *; subst.
  - left. now exists a.
  - now right.
Qed.

(** A loop whose body, run on [self], returns or raises [e] and leaves
    [self] alone does so as a whole. *)
Lemma for_acc_returns_or {A B} (e : exn) (body : B -> A -> M B) self l :
  (forall acc a, In a l -> returns_or e self (body acc a self)) ->
  forall acc, returns_or e self (for_acc l acc body self).
Proof.
  induction l as [|a l IH]; intros Hbody acc; simpl.
  - now split.
  - unfold bind.
    destruct (returns_or_cases (Hbody acc a (or_introl eq_refl)))
      as [(acc' & ->)| ->]; [|now split].
    apply IH. intros acc2 a' Hin. apply Hbody. now right.
Qed.

(** If moreover the body raises for one of the items, the loop raises. *)
Lemma for_acc_raises {A B} (e : exn) (body : B -> A -> M B) self l :
  (forall acc a, In a l -> returns_or e self (body acc a self)) ->
  (exists a, In a l /\ forall acc, body acc a self = (Raise e, self)) ->
  forall acc, for_acc l acc body self = (Raise e, self).
Proof.
  induction l as [|a l IH]; intros Hbody (a0 & Hin & Ha0) acc; [destruct Hin|].
  simpl. unfold bind.
  destruct (returns_or_cases (Hbody acc a (or_introl eq_refl)))
    as [(acc' & Hret)|Hraise]; [|now rewrite Hraise].
  rewrite Hret. apply IH.
  - intros acc2 a' Hin'. apply Hbody. now right.
  - destruct Hin as [->|Hin]; [|eauto].
    rewrite Ha0 in Hret. discriminate.
Qed.

Lemma dict_set_nonempty {K V : Type} `{Hashable K} (k : K) (v : V) d :
  dict_set k v d <> [].
Proof.
  destruct d as [|[k' v'] d]; simpl; [|destruct (key_eqb k k')]; discriminate.
Qed.

Lemma class_prior_getitem_Some c s p :
  dict_get c (class_prior s) = Some p -> class_prior_getitem c s = (Return p, s).
Proof. unfold class_prior_getitem. now intros ->. Qed.

Section PredictTrained.
Context {F : Type} {L : LogFloat F}.
Variable m : NaiveBayes.
Hypothesis m_plain : plain_tables m.

(** With plain tables, the score of a class of [self.class_prior] is
    returned, or the lookup of an index raises. *)
Lemma log_prob_of_returns_or x c :
  In c (dict_keys (class_prior m)) ->
  returns_or KeyError m (log_prob_of x c m).
Proof.
  intros Hc. destruct (m_plain c Hc) as (d & Hd & Hdef).
  apply dict_get_In in Hc.
  destruct (dict_get c (class_prior m)) as [p|] eqn:Hp; [|congruence].
  unfold log_prob_of. rewrite (bind_Return _ _ _ (class_prior_getitem_Some _ _ Hp)).
  apply for_acc_returns_or. intros acc j _.
  destruct (nth j x 0 >? 0)%Z; [|now split].
  unfold bind. rewrite (likelihood_getitem2_plain _ j _ Hd Hdef).
  destruct (dict_get j (items d)); now split.
Qed.

Lemma class_loop_returns_or x (acc : list (Z * F)) :
  returns_or KeyError m
    (for_acc (dict_keys (class_prior m)) acc
       (fun (class_probs : list (Z * F)) c =>
          log_prob <- log_prob_of x c ;; ret (dict_set c log_prob class_probs)) m).
Proof.
  apply for_acc_returns_or. intros acc' c Hc. unfold bind.
  destruct (returns_or_cases (log_prob_of_returns_or x c Hc))
    as [(lp & ->)| ->]; now split.
Qed.

(** With a class in [self.class_prior], a row is labelled, or a lookup
    raises; [max] has something to choose from. *)
Lemma predict_row_returns_or x :
  dict_keys (class_prior m) <> [] ->
  returns_or KeyError m (predict_row x m).
Proof.
  intros Hne. unfold predict_row. unfold bind at 1, gets at 1. unfold bind at 1.
  destruct (returns_or_cases (class_loop_returns_or x []))
    as [(probs & Hloop)|Hloop]; rewrite Hloop; [|now split].
  unfold lift.
  assert (Hprobs : probs <> []).
  { destruct (dict_keys (class_prior m)) as [|c0 cs]; [congruence|].
    simpl in Hloop. unfold bind at 1 in Hloop. unfold bind at 1 in Hloop.
    destruct (log_prob_of x c0 m) as [[lp|e] s1]; [|discriminate].
    unfold ret at 1 in Hloop.
    refine (@for_acc_invariant Z (dict Z F) (fun acc => acc <> [])
              _ _ _ _ _ _ _ _ Hloop).
    - intros acc a s acc' s' _ _ Hbody. unfold bind in Hbody.
      destruct (log_prob_of x a s) as [[lp'|e] s2]; [|discriminate].
      injection Hbody as <- _. apply dict_set_nonempty.
    - discriminate. }
  destruct probs as [|first others]; [congruence|]. now split.
Qed.

(** A class whose table lacks an index at which the row is positive makes
    the row raise. *)
Lemma predict_row_missing_index x c d j :
  In c (dict_keys (class_prior m)) ->
  dict_get c (likelihood m) = Some d -> dict_get j (items d) = None ->
  j < length x -> (nth j x 0 >? 0)%Z = true ->
  predict_row x m = (Raise KeyError, m).
Proof.
  intros Hc Hd Hj Hlt Hpos.
  destruct (m_plain c Hc) as (d' & Hd' & Hdef). rewrite Hd in Hd'.
  injection Hd' as <-.
  unfold predict_row. unfold bind at 1, gets at 1. unfold bind at 1.
  rewrite (@for_acc_raises Z (list (Z * F)) KeyError); [reflexivity| |].
  - intros acc c' Hc'. unfold bind.
    destruct (returns_or_cases (log_prob_of_returns_or x c' Hc'))
      as [(lp & ->)| ->]; now split.
  - exists c. split; [exact Hc|]. intros acc. unfold bind at 1.
    apply dict_get_In in Hc.
    destruct (dict_get c (class_prior m)) as [p|] eqn:Hp; [|congruence].
    unfold log_prob_of.
    rewrite (bind_Return _ _ _ (class_prior_getitem_Some _ _ Hp)).
    rewrite (word_scan_KeyError x c m (seq 0 (length x)) Hd Hdef);
      [reflexivity|].
    exists j. split; [apply in_seq; lia|auto].
Qed.

Lemma predict_returns_or X :
  dict_keys (class_prior m) <> [] -> returns_or KeyError m (predict X m).
Proof.
  intros Hne. unfold predict. apply for_acc_returns_or. intros acc x _.
  unfold bind.
  destruct (returns_or_cases (predict_row_returns_or x Hne))
    as [(c & ->)| ->]; now split.
Qed.

(** The labels of a batch, after the labels that were there. *)
Lemma predict_rows_prefix l :
  forall acc,
    for_acc l acc (fun predictions x =>
        label <- predict_row x ;; ret (predictions ++ [label])) m
    = (match fst (for_acc l [] (fun predictions x =>
                    label <- predict_row x ;; ret (predictions ++ [label])) m)
       with
       | Return r => Return (acc ++ r)
       | Raise e => Raise e
       end, m).
Proof.
  induction l as [|x l IH]; intros acc.
  - simpl. unfold ret. simpl. now rewrite app_nil_r.
  - pose proof (predict_row_frame x m_plain) as Hx.
    destruct (predict_row x m) as [[c|e] s] eqn:Hrow; simpl in Hx; subst s.
    + assert (Hstep : forall acc',
                (label <- predict_row x ;; ret (acc' ++ [label])) m
                = (Return (acc' ++ [c]), m)).
      { intros acc'. unfold bind. now rewrite Hrow. }
      cbn [for_acc].
      rewrite (bind_Return _ _ _ (Hstep acc)), (bind_Return _ _ _ (Hstep [])).
      rewrite (IH (acc ++ [c])), (IH ([] ++ [c])).
      match goal with |- context [fst ?r] => destruct (fst r) end; simpl fst;
        [|reflexivity].
      now rewrite <- app_assoc.
    + assert (Hstep : forall acc',
                (label <- predict_row x ;; ret (acc' ++ [label])) m
                = (Raise e, m)).
      { intros acc'. unfold bind. now rewrite Hrow. }
      cbn [for_acc].
      now rewrite (bind_Raise _ _ _ (Hstep acc)), (bind_Raise _ _ _ (Hstep [])).
Qed.
End PredictTrained.

Lemma for_acc_app {A B} (body : B -> A -> M B) l1 l2 :
  forall acc s,
    for_acc (l1 ++ l2) acc body s
    = bind (for_acc l1 acc body) (fun acc' => for_acc l2 acc' body) s.
Proof.
  induction l1 as [|a l1 IH]; intros acc s; simpl; [reflexivity|].
  rewrite bind_assoc. apply bind_ext_r. intros acc' s'. apply IH.
Qed.

Lemma trained_prior_keys_nonempty m :
  trained m -> dict_keys (class_prior m) <> [].
Proof.
  intros Ht. pose proof (trained_classes_nonempty Ht) as Hne.
  destruct (trained_last Ht) as (X & Y & self & Hv & ->).
  rewrite trained_state_classes in Hne.
  destruct (np_unique Y) as [|c cs] eqn:E; [congruence|].
  intros Hkeys.
  assert (Hc : dict_get c (class_prior (trained_state X Y self)) <> None).
  { rewrite trained_state_prior_get, E.
    destruct (in_dec Z.eq_dec c (c :: cs)) as [_|Hn]; [discriminate|].
    exfalso. apply Hn. now left. }
  apply dict_get_In in Hc. rewrite Hkeys in Hc. destruct Hc.
Qed.

(** X9.  On a trained model [predict] either returns its labels or
    raises [KeyError], and leaves the object as it was: [max] always has a
    class to choose, so there is no [ValueError], and nothing else is
    raised. *)
Theorem predict_fails_with_KeyError_only {F : Type} {L : LogFloat F}
    (m : NaiveBayes) (X : ndarray) :
  trained m ->
  (exists labels, predict X m = (Return labels, m))
  \/ predict X m = (Raise KeyError, m).
Proof.
  intros Ht. apply returns_or_cases. apply predict_returns_or.
  - now apply trained_plain.
  - now apply trained_prior_keys_nonempty.
Qed.

Lemma predict_fails_with_KeyError_only_witness :
  trained example_model /\
  ((exists labels,
      predict (F := R) {| shape1 := 3; rows := [[0; 0; 1]]%Z |} example_model
      = (Return labels, example_model))
   \/ predict (F := R) {| shape1 := 3; rows := [[0; 0; 1]]%Z |} example_model
      = (Raise KeyError, example_model)).
Proof.
  split; [exact example_trained|].
  apply (predict_fails_with_KeyError_only (F := R)
           {| shape1 := 3; rows := [[0; 0; 1]]%Z |} example_trained).
Defined.

(** X10.  On a trained model the rows of a batch are labelled one by one:
    [predict] on the rows of two batches, one after the other, returns the
    labels of the first followed by the labels of the second, and raises
    where either of them raises. *)
Theorem predict_batches {F : Type} {L : LogFloat F} (m : NaiveBayes)
    (n n1 n2 : nat) (l1 l2 : list (list Z)) :
  trained m ->
  predict {| shape1 := n; rows := l1 ++ l2 |} m
  = (match fst (predict {| shape1 := n1; rows := l1 |} m) with
     | Return a =>
         match fst (predict {| shape1 := n2; rows := l2 |} m) with
         | Return b => Return (a ++ b)
         | Raise e => Raise e
         end
     | Raise e => Raise e
     end, m).
Proof.
  intros Ht. pose proof (trained_plain Ht) as Hplain.
  unfold predict. simpl rows. rewrite for_acc_app.
  pose proof (@predict_frame F L {| shape1 := n1; rows := l1 |} m Hplain) as H1.
  unfold predict in H1. simpl rows in H1.
  destruct (for_acc l1 [] (fun predictions x =>
              label <- predict_row x ;; ret (predictions ++ [label])) m)
    as [[a|e] s] eqn:E1; simpl in H1; subst s; simpl fst.
  - rewrite (bind_Return _ _ _ E1). now rewrite (predict_rows_prefix Hplain l2 a).
  - now rewrite (bind_Raise _ _ _ E1).
Qed.

Lemma predict_batches_witness :
  trained example_model /\
  predict (F := R) {| shape1 := 2; rows := [[1; 0]] ++ [[0; 1]] |}%Z example_model
  = (match fst (predict (F := R) {| shape1 := 2; rows := [[1; 0]]%Z |}
                  example_model) with
     | Return a =>
         match fst (predict (F := R) {| shape1 := 2; rows := [[0; 1]]%Z |}
                      example_model) with
         | Return b => Return (a ++ b)
         | Raise e => Raise e
         end
     | Raise e => Raise e
     end, example_model).
Proof.
  split; [exact example_trained|].
  apply (predict_batches (F := R) 2 2 2 [[1; 0]]%Z [[0; 1]]%Z example_trained).
Defined.

(** X11.  A class that a later call of [train] has left behind poisons
    [predict].  Let an object be trained on valid input whose labels
    include [c], and then on valid input whose labels do not.  Then
    [predict] raises [KeyError] on every input that has a row with a
    positive entry at an index that is the first number of columns or
    more, also when that index is a term of the second vocabulary. *)
Theorem predict_after_retrain_KeyError {F : Type} {L : LogFloat F}
    (X1 : ndarray) (Y1 : list Z) (X2 : ndarray) (Y2 : list Z)
    (Xt : ndarray) (c : Z) :
  valid_input X1 Y1 = true -> valid_input X2 Y2 = true ->
  In c Y1 -> ~ In c Y2 ->
  existsb (beyond (shape1 X1)) (rows Xt) = true ->
  predict Xt (snd (train X2 Y2 (snd (train X1 Y1 __init__))))
  = (Raise KeyError, snd (train X2 Y2 (snd (train X1 Y1 __init__)))).
Proof.
  intros Hv1 Hv2 Hc1 Hc2 Hex.
  pose proof (valid_input_spec _ _ Hv1) as (Hlen1 & _).
  pose proof (valid_input_spec _ _ Hv2) as (Hlen2 & _).
  rewrite (train_run X1 Y1 __init__ Hlen1). simpl snd.
  rewrite (train_run X2 Y2 _ Hlen2). simpl snd.
  set (m1 := trained_state X1 Y1 __init__).
  set (m := trained_state X2 Y2 m1).
  assert (Ht : trained m).
  { apply trained_again with (X := X2) (Y := Y2) (m0 := m1);
      [apply trained_first with (X := X1) (Y := Y1)| |];
      try assumption; now apply train_run. }
  pose proof (trained_plain Ht) as Hplain.
  pose proof (trained_prior_keys_nonempty Ht) as Hne.
  assert (Hn2 : ~ In c (np_unique Y2)) by (now rewrite np_unique_In).
  assert (Hin1 : In c (np_unique Y1)) by (now apply np_unique_In).
  assert (Hkey : In c (dict_keys (class_prior m))).
  { apply dict_get_In. subst m m1. rewrite !trained_state_prior_get.
    destruct (in_dec Z.eq_dec c (np_unique Y2)); [contradiction|].
    destruct (in_dec Z.eq_dec c (np_unique Y1)); [discriminate|contradiction]. }
  assert (Htab : dict_get c (likelihood m) = dict_get c (likelihood m1)).
  { subst m. rewrite trained_state_likelihood_get.
    now destruct (in_dec Z.eq_dec c (np_unique Y2)). }
  destruct (trained_state_complete X1 Y1 __init__ c Hlen1 Hin1)
    as (p & d & _ & Hd & _ & _).
  fold m1 in Hd. rewrite <- Htab in Hd.
  apply existsb_exists in Hex as (x & Hx & Hb).
  apply beyond_true in Hb as (j & Hj & Hpos & Hge). apply in_seq in Hj.
  unfold predict.
  apply (@for_acc_raises (list Z) (list Z) KeyError).
  - intros acc x' _. unfold bind.
    destruct (returns_or_cases (predict_row_returns_or Hplain x' Hne))
      as [(c' & ->)| ->]; now split.
  - exists x. split; [exact Hx|]. intros acc. unfold bind.
    assert (Hnone : dict_get j (items d) = None).
    { rewrite Htab in Hd. subst m1. eapply trained_once_no_entry; eauto. }
    assert (Hlt : j < length x) by lia.
    now rewrite (@predict_row_missing_index F L m Hplain x c d j
                   Hkey Hd Hnone Hlt Hpos).
Qed.

Lemma predict_after_retrain_KeyError_witness :
  valid_input {| shape1 := 1; rows := [[1]; [1]]%Z |} [0; 1]%Z = true /\
  valid_input {| shape1 := 2; rows := [[1; 1]]%Z |} [0]%Z = true /\
  In 1%Z [0; 1]%Z /\ ~ In 1%Z [0]%Z /\
  existsb (beyond (shape1 {| shape1 := 1; rows := [[1]; [1]]%Z |}))
    (rows {| shape1 := 2; rows := [[0; 1]]%Z |}) = true /\
  predict (F := R) {| shape1 := 2; rows := [[0; 1]]%Z |}
    (snd (train {| shape1 := 2; rows := [[1; 1]]%Z |} [0]%Z
            (snd (train {| shape1 := 1; rows := [[1]; [1]]%Z |} [0; 1]%Z
                    __init__))))
  = (Raise KeyError,
     snd (train {| shape1 := 2; rows := [[1; 1]]%Z |} [0]%Z
            (snd (train {| shape1 := 1; rows := [[1]; [1]]%Z |} [0; 1]%Z
                    __init__)))).
Proof.
  assert (H3 : In 1%Z [0; 1]%Z) by (right; now left).
  assert (H4 : ~ In 1%Z [0]%Z) by (intros [H|[]]; discriminate).
  split; [vm_compute; reflexivity|]. split; [vm_compute; reflexivity|].
  split; [exact H3|]. split; [exact H4|]. split; [vm_compute; reflexivity|].
  apply (@predict_after_retrain_KeyError R RealLog
           {| shape1 := 1; rows := [[1]; [1]]%Z |} [0; 1]%Z
           {| shape1 := 2; rows := [[1; 1]]%Z |} [0]%Z
           {| shape1 := 2; rows := [[0; 1]]%Z |} 1%Z);
    [vm_compute; reflexivity|vm_compute; reflexivity|exact H3|exact H4
    |vm_compute; reflexivity].
Defined.

(** * Rows without a positive entry *)

Lemma no_positive_nth x j :
  Forall (fun v => (v <= 0)%Z) x -> (nth j x 0 >? 0)%Z = false.
Proof.
  intros Hx. destruct (Nat.lt_ge_cases j (length x)) as [Hlt|Hge].
  - rewrite Forall_forall in Hx. specialize (Hx _ (nth_In x 0%Z Hlt)). lia.
  - now rewrite nth_overflow.
Qed.

Lemma score_no_positive {F : Type} {L : LogFloat F} self x c :
  Forall (fun v => (v <= 0)%Z) x -> score self x c = np_log (prior_of self c).
Proof.
  intros Hx. unfold score.
  replace (filter (fun j => (nth j x 0 >? 0)%Z) (seq 0 (length x)))
    with (@nil nat); [reflexivity|].
  symmetry. generalize (seq 0 (length x)). intros l.
  induction l as [|j l IH]; simpl; [reflexivity|].
  now rewrite (no_positive_nth j Hx).
Qed.

Lemma predict_rows_constant {F : Type} {L : LogFloat F} m c l :
  (forall x, In x l -> predict_row x m = (Return c, m)) ->
  forall acc,
    for_acc l acc (fun predictions x =>
        label <- predict_row x ;; ret (predictions ++ [label])) m
    = (Return (acc ++ repeat c (length l)), m).
Proof.
  induction l as [|x l IH]; intros Hrow acc; simpl.
  - now rewrite app_nil_r.
  - assert (Hstep : bind (predict_row x) (fun label => ret (acc ++ [label])) m
                    = (Return (acc ++ [c]), m)).
    { now rewrite (bind_Return _ _ _ (Hrow x (or_introl eq_refl))). }
    rewrite (bind_Return _ _ _ Hstep).
    rewrite IH by (intros x' Hx'; apply Hrow; now right).
    now rewrite <- app_assoc.
Qed.

Lemma sorted_after_head (before after : list Z) c :
  StronglySorted Z.lt (before ++ c :: after) ->
  forall c', In c' after -> (c < c')%Z.
Proof.
  induction before as [|b before IH]; simpl; intros Hs c' Hin.
  - apply StronglySorted_inv in Hs as (_ & Hall).
    rewrite Forall_forall in Hall. now apply Hall.
  - apply StronglySorted_inv in Hs as (Hs & _). now apply IH.
Qed.

(** The order of two stored priors is the order of the numbers of
    documents of their classes. *)
Lemma prior_gt_class_size Y a b :
  In a Y -> In b Y ->
  @fgt R RealLog (np_log (np_mean (np_equal Y a))) (np_log (np_mean (np_equal Y b)))
  = (class_size Y b <? class_size Y a).
Proof.
  intros Ha Hb.
  rewrite (log_of_gt (log_of_log (np_mean_pos Y a Ha))
                     (log_of_log (np_mean_pos Y b Hb))).
  assert (HN : (0 < inject_Z (Z.of_nat (length Y)))%Q).
  { change 0%Q with (inject_Z 0). rewrite <- Zlt_Qlt.
    apply class_size_pos in Ha. pose proof (class_size_le Y a). lia. }
  assert (Hiff : (np_mean (np_equal Y b) < np_mean (np_equal Y a))%Q
                 <-> class_size Y b < class_size Y a).
  { rewrite !np_mean_class_size. unfold Qdiv.
    rewrite Qmult_lt_r by (now apply Qinv_lt_0_compat).
    rewrite <- Zlt_Qlt. lia. }
  destruct (Nat.ltb_spec (class_size Y b) (class_size Y a)) as [Hlt|Hge].
  - apply ExpLog_fgt. now apply Hiff.
  - destruct (@fgt Q ExpLog (np_log (np_mean (np_equal Y a)))
                (np_log (np_mean (np_equal Y b)))) eqn:E; [|reflexivity].
    apply ExpLog_fgt in E. apply Hiff in E. lia.
Qed.

(** X12.  Rows without a positive entry get the majority class.  On a
    model trained from a new object on valid input, [predict] on rows of
    any length that have no positive entry returns one and the same label
    for every row: a label of the training set that has the most
    documents, and the least such label when several have. *)
Theorem predict_no_positive_majority (X : ndarray) (Y : list Z) (Xt : ndarray) :
  valid_input X Y = true ->
  Forall (Forall (fun v => (v <= 0)%Z)) (rows Xt) ->
  exists c,
    predict (F := R) Xt (snd (train X Y __init__))
    = (Return (repeat c (length (rows Xt))), snd (train X Y __init__)) /\
    In c Y /\
    (forall c', In c' Y -> class_size Y c' <= class_size Y c) /\
    (forall c', In c' Y -> class_size Y c' = class_size Y c -> (c <= c')%Z).
Proof.
  intros Hv Hrows.
  pose proof (valid_input_spec _ _ Hv) as (Hlen & HN & _).
  rewrite (train_run X Y __init__ Hlen). simpl snd.
  set (m := trained_state X Y __init__).
  pose proof (trained_once_keys X Y) as Hkeys. fold m in Hkeys.
  assert (Hnd : NoDup (dict_keys (class_prior m)))
    by (rewrite Hkeys; apply np_unique_NoDup).
  assert (Hne : dict_keys (class_prior m) <> []).
  { rewrite Hkeys. destruct Y as [|y Y']; [simpl in HN; lia|].
    intros Hnil. assert (Hy : In y (np_unique (y :: Y')))
      by (apply np_unique_In; now left).
    rewrite Hnil in Hy. destruct Hy. }
  assert (Hprior : forall c, In c (np_unique Y) ->
            prior_of m c = np_mean (np_equal Y c)).
  { intros c Hc. unfold prior_of. subst m. rewrite trained_state_prior_get.
    now destruct (in_dec Z.eq_dec c (np_unique Y)). }
  assert (Hscore : forall x, Forall (fun v => (v <= 0)%Z) x ->
            forall c, In c (dict_keys (class_prior m)) ->
              log_prob_of x c m = (Return (score m x c), m)).
  { intros x Hx c Hc. rewrite Hkeys in Hc.
    destruct (trained_state_complete X Y __init__ c Hlen Hc)
      as (p & d & Hp & Hd & Hdef & _).
    apply log_prob_of_score with (p := p) (d := d); try assumption.
    intros j _ Hpos. rewrite (no_positive_nth j Hx) in Hpos. discriminate. }
  destruct (predict_row_first_max [] (self := m) Hnd Hne
              (Hscore [] (Forall_nil _)))
    as (c & Hrun & before & after & Hsplit & Hbefore & Hafter).
  rewrite Hkeys in Hsplit.
  assert (Hc : In c (np_unique Y))
    by (rewrite Hsplit; apply in_or_app; right; now left).
  assert (HcY : In c Y) by (now apply np_unique_In).
  assert (Hgt : forall a b, In a (np_unique Y) -> In b (np_unique Y) ->
            @fgt R RealLog (score m [] a) (score m [] b)
            = (class_size Y b <? class_size Y a)).
  { intros a b Ha Hb.
    rewrite !score_no_positive by constructor.
    rewrite (Hprior a Ha), (Hprior b Hb).
    apply prior_gt_class_size; now apply np_unique_In. }
  pose proof (np_unique_sorted Y) as Hsorted. rewrite Hsplit in Hsorted.
  assert (Hparts : forall c', In c' Y ->
            In c' before \/ c' = c \/ In c' after).
  { intros c' Hc'. apply np_unique_In in Hc'. rewrite Hsplit in Hc'.
    apply in_app_or in Hc' as [H1|[H1|H1]]; auto. }
  assert (Hin_before : forall c', In c' before -> In c' (np_unique Y))
    by (intros c' H1; rewrite Hsplit; apply in_or_app; now left).
  assert (Hin_after : forall c', In c' after -> In c' (np_unique Y))
    by (intros c' H1; rewrite Hsplit; apply in_or_app; right; now right).
  assert (Hafter_lt : forall c', In c' after -> (c < c')%Z).
  { intros c' H1. now apply (@sorted_after_head before after c Hsorted). }
  exists c. split; [|split; [exact HcY|split]].
  - unfold predict.
    rewrite (@predict_rows_constant R RealLog m c (rows Xt)); [reflexivity|].
    intros x Hx. rewrite Forall_forall in Hrows. specialize (Hrows x Hx).
    rewrite (class_probs_run x Hnd (Hscore x Hrows)).
    rewrite (class_probs_run [] Hnd (Hscore [] (Forall_nil _))) in Hrun.
    rewrite <- Hrun. f_equal. f_equal. apply map_ext. intros c'.
    now rewrite !score_no_positive by (assumption || constructor).
  - intros c' Hc'. destruct (Hparts c' Hc') as [H1|[->|H1]]; [|lia|].
    + specialize (Hbefore c' H1). rewrite (Hgt c c' Hc (Hin_before c' H1)) in Hbefore.
      apply Nat.ltb_lt in Hbefore. lia.
    + specialize (Hafter c' H1). rewrite (Hgt c' c (Hin_after c' H1) Hc) in Hafter.
      apply Nat.ltb_ge in Hafter. lia.
  - intros c' Hc' Heq. destruct (Hparts c' Hc') as [H1|[->|H1]]; [|lia|].
    + specialize (Hbefore c' H1). rewrite (Hgt c c' Hc (Hin_before c' H1)) in Hbefore.
      apply Nat.ltb_lt in Hbefore. lia.
    + specialize (Hafter_lt c' H1). lia.
Qed.

Lemma predict_no_positive_majority_witness :
  valid_input {| shape1 := 1; rows := [[1]; [2]; [3]]%Z |} [4; 2; 4]%Z = true /\
  Forall (Forall (fun v => (v <= 0)%Z))
    (rows {| shape1 := 3; rows := [[0; 0; 0]; []]%Z |}) /\
  exists c,
    predict (F := R) {| shape1 := 3; rows := [[0; 0; 0]; []]%Z |}
      (snd (train {| shape1 := 1; rows := [[1]; [2]; [3]]%Z |} [4; 2; 4]%Z
              __init__))
    = (Return (repeat c (length (rows {| shape1 := 3;
                                         rows := [[0; 0; 0]; []]%Z |}))),
       snd (train {| shape1 := 1; rows := [[1]; [2]; [3]]%Z |} [4; 2; 4]%Z
              __init__)) /\
    In c [4; 2; 4]%Z /\
    (forall c', In c' [4; 2; 4]%Z ->
       class_size [4; 2; 4]%Z c' <= class_size [4; 2; 4]%Z c) /\
    (forall c', In c' [4; 2; 4]%Z ->
       class_size [4; 2; 4]%Z c' = class_size [4; 2; 4]%Z c -> (c <= c')%Z).
Proof.
  assert (H1 : valid_input {| shape1 := 1; rows := [[1]; [2]; [3]]%Z |}
                 [4; 2; 4]%Z = true) by (vm_compute; reflexivity).
  assert (H2 : Forall (Forall (fun v => (v <= 0)%Z))
                 (rows {| shape1 := 3; rows := [[0; 0; 0]; []]%Z |}))
    by (repeat constructor; lia).
  split; [exact H1|]. split; [exact H2|].
  exact (@predict_no_positive_majority _ _ _ H1 H2).
Defined.

(** * The preparation of the texts *)

Lemma keys_add_NoDup {K : Type} `{Hashable K} (ks : list K) (k : K) :
  NoDup ks -> NoDup (keys_add ks k).
Proof.
  intros Hnd. destruct (in_dec key_eq_dec k ks) as [Hin|Hn].
  - now rewrite keys_add_in.
  - rewrite keys_add_notin by exact Hn.
    apply NoDup_app; [exact Hnd|repeat constructor; intros []|].
    intros k' Hk' [<-|[]]. contradiction.
Qed.

Lemma set_update_In s words w :
  In w (set_update s words) <-> In w s \/ In w words.
Proof.
  unfold set_update. revert s.
  induction words as [|k words IH]; intros s; simpl; [tauto|].
  rewrite IH, In_keys_add. intuition.
Qed.

Lemma set_update_NoDup s words : NoDup s -> NoDup (set_update s words).
Proof.
  unfold set_update. revert s.
  induction words as [|k words IH]; intros s Hs; simpl; [exact Hs|].
  apply IH. now apply keys_add_NoDup.
Qed.

Section PreprocessFacts.
Variable stopwords_english : list String.string.
Variable lower : String.string -> String.string.
Variable word_tokenize : String.string -> list String.string.

Lemma kept_words_In text w :
  In w (kept_words stopwords_english lower word_tokenize text)
  <-> In w (word_tokenize (lower text)) /\ ~ In w stopwords_english.
Proof.
  unfold kept_words. rewrite filter_In, negb_true_iff.
  split; intros (Hin & Hstop); (split; [exact Hin|]).
  - intros Habs. apply (existsb_key_In w stopwords_english) in Habs.
    simpl in Habs. congruence.
  - destruct (existsb (String.eqb w) stopwords_english) eqn:E; [|reflexivity].
    exfalso. apply Hstop. now apply (existsb_key_In w stopwords_english).
Qed.

(** The loop, from any index and any state of the local names. *)
Lemma preprocess_loop texts : forall k st,
  vocab (fold_left (preprocess_body stopwords_english lower word_tokenize)
           (combine (seq k (length texts)) texts) st)
  = fold_left
      (fun s text =>
         set_update s (kept_words stopwords_english lower word_tokenize text))
      texts (vocab st)
  /\ processed_texts
       (fold_left (preprocess_body stopwords_english lower word_tokenize)
          (combine (seq k (length texts)) texts) st)
     = processed_texts st
       ++ map (fun text =>
                 String.concat " "
                   (kept_words stopwords_english lower word_tokenize text))
            texts.
Proof.
  induction texts as [|text texts IH]; intros k st; simpl.
  - now rewrite app_nil_r.
  - destruct (IH (S k) (preprocess_body stopwords_english lower word_tokenize
                          st (k, text))) as (Hv & Hp).
    rewrite Hv, Hp. simpl. now rewrite <- app_assoc.
Qed.

Lemma vocab_fold_In texts w : forall s,
  In w (fold_left
          (fun s text =>
             set_update s (kept_words stopwords_english lower word_tokenize text))
          texts s)
  <-> In w s \/
      exists text, In text texts /\
        In w (kept_words stopwords_english lower word_tokenize text).
Proof.
  induction texts as [|text texts IH]; intros s; simpl.
  - split; [auto|]. intros [Hin|(text & [] & _)]. exact Hin.
  - rewrite IH, set_update_In. split.
    + intros [[Hin|Hin]|(text' & Hin & Hw)]; [now left| |].
      * right. exists text. split; [now left|exact Hin].
      * right. exists text'. split; [now right|exact Hw].
    + intros [Hin|(text' & [<-|Hin] & Hw)]; [now left; left|now left; right|].
      right. now exists text'.
Qed.

Lemma vocab_fold_NoDup texts : forall s,
  NoDup s ->
  NoDup (fold_left
           (fun s text =>
              set_update s (kept_words stopwords_english lower word_tokenize text))
           texts s).
Proof.
  induction texts as [|text texts IH]; intros s Hs; simpl; [exact Hs|].
  apply IH. now apply set_update_NoDup.
Qed.

Lemma preprocess_vocab_In texts out w :
  In w (vocab (preprocess stopwords_english lower word_tokenize texts out))
  <-> exists text, In text texts /\
        In w (word_tokenize (lower text)) /\ ~ In w stopwords_english.
Proof.
  unfold preprocess, enumerate.
  rewrite (proj1 (preprocess_loop texts 0 _)). simpl vocab.
  rewrite vocab_fold_In. split.
  - intros [[]|(text & Hin & Hw)]. exists text. split; [exact Hin|].
    now apply kept_words_In.
  - intros (text & Hin & Hw). right. exists text. split; [exact Hin|].
    now apply kept_words_In.
Qed.

Lemma preprocess_texts_map texts out :
  processed_texts (preprocess stopwords_english lower word_tokenize texts out)
  = map (fun text =>
           String.concat " "
             (kept_words stopwords_english lower word_tokenize text))
      texts.
Proof.
  unfold preprocess, enumerate.
  now rewrite (proj2 (preprocess_loop texts 0 _)).
Qed.

(** X13.  The vocabulary that [preprocess] returns holds each word once,
    and the words in it are the tokens of the lowered texts that are not
    stop words: a word is in the vocabulary when, and only when, some
    text has it as a token and the list of stop words does not have it. *)
Theorem preprocess_vocab (texts : list String.string) (out : String.string) :
  NoDup (vocab (preprocess stopwords_english lower word_tokenize texts out)) /\
  forall w,
    In w (vocab (preprocess stopwords_english lower word_tokenize texts out))
    <-> exists text, In text texts /\
          In w (word_tokenize (lower text)) /\ ~ In w stopwords_english.
Proof.
  split; [|intros w; apply preprocess_vocab_In].
  unfold preprocess, enumerate.
  rewrite (proj1 (preprocess_loop texts 0 _)). simpl vocab.
  apply vocab_fold_NoDup. constructor.
Qed.

(** X14.  [preprocess] treats every text on its own.  It returns one
    processed text for each text; the processed texts of two lists of
    texts put one after the other are those of the first list followed by
    those of the second, and the vocabulary is the union of the two
    vocabularies, whatever had been printed before each call. *)
Theorem preprocess_batches (texts1 texts2 : list String.string)
    (out out1 out2 : String.string) :
  length (processed_texts
            (preprocess stopwords_english lower word_tokenize texts1 out))
  = length texts1 /\
  processed_texts
    (preprocess stopwords_english lower word_tokenize (texts1 ++ texts2) out)
  = processed_texts
      (preprocess stopwords_english lower word_tokenize texts1 out1)
    ++ processed_texts
         (preprocess stopwords_english lower word_tokenize texts2 out2) /\
  forall w,
    In w (vocab (preprocess stopwords_english lower word_tokenize
                   (texts1 ++ texts2) out))
    <-> In w (vocab (preprocess stopwords_english lower word_tokenize
                       texts1 out1))
        \/ In w (vocab (preprocess stopwords_english lower word_tokenize
                          texts2 out2)).
Proof.
  split; [|split].
  - rewrite preprocess_texts_map. apply length_map.
  - rewrite !preprocess_texts_map. apply map_app.
  - intros w. rewrite !preprocess_vocab_In. split.
    + intros (text & Hin & Hw). apply in_app_or in Hin as [Hin|Hin];
        [left|right]; now exists text.
    + intros [(text & Hin & Hw)|(text & Hin & Hw)]; exists text;
        (split; [apply in_or_app; auto|exact Hw]).
Qed.

(** X15.  The cell that calls [preprocess] on the training texts and then
    on the test texts binds [vocab] twice, so the list that the next cell
    makes of it has the words of the test texts only: a word is in that
    list when, and only when, some test text has it as a token and it is
    no stop word.  The list has each word once. *)
Theorem cell_vocab_of_test_texts (train_X test_X : list String.string)
    (out : String.string) (vocab_list : list String.string) :
  py_list_of_set
    (cell_vocab (preprocess_cell stopwords_english lower word_tokenize
                   train_X test_X out))
    vocab_list ->
  NoDup vocab_list /\
  forall w,
    In w vocab_list
    <-> exists text, In text test_X /\
          In w (word_tokenize (lower text)) /\ ~ In w stopwords_english.
Proof.
  unfold py_list_of_set, preprocess_cell. simpl cell_vocab. intros Hperm.
  split.
  - apply (Permutation_NoDup Hperm). apply preprocess_vocab.
  - intros w. rewrite <- preprocess_vocab_In. split; intros Hin.
    + apply (Permutation_in w (Permutation_sym Hperm) Hin).
    + apply (Permutation_in w Hperm Hin).
Qed.

End PreprocessFacts.

Lemma cell_vocab_of_test_texts_witness :
  py_list_of_set
    (cell_vocab (preprocess_cell ["the"%string] (fun s => s) (fun s => [s])
                   ["good"%string; "the"%string] ["bad"%string] String.EmptyString))
    ["bad"%string] /\
  NoDup ["bad"%string] /\
  forall w,
    In w ["bad"%string]
    <-> exists text, In text ["bad"%string] /\
          In w [text] /\ ~ In w ["the"%string].
Proof.
  assert (H1 : py_list_of_set
                 (cell_vocab (preprocess_cell ["the"%string] (fun s => s)
                                (fun s => [s])
                                ["good"%string; "the"%string] ["bad"%string]
                                String.EmptyString))
                 ["bad"%string]).
  { vm_compute. apply Permutation_refl. }
  split; [exact H1|].
  exact (@cell_vocab_of_test_texts ["the"%string] (fun s => s) (fun s => [s])
           ["good"%string; "the"%string] ["bad"%string] String.EmptyString
           ["bad"%string] H1).
Defined.

(** What the loop prints, from any index and any state of the local
    names. *)
Lemma preprocess_loop_stdout stopwords_english lower word_tokenize texts :
  forall k st,
    stdout (fold_left (preprocess_body stopwords_english lower word_tokenize)
              (combine (seq k (length texts)) texts) st)
    = fold_left
        (fun out i =>
           String.append out (String.append (py_str i) carriage_return))
        (seq k (length texts)) (stdout st).
Proof.
  induction texts as [|text texts IH]; intros k st; simpl; [reflexivity|].
  now rewrite IH.
Qed.

(** X16.  What [preprocess] prints is the index of every text, each
    followed by a carriage return, after what was printed before: the
    output is the same for any two lists of as many texts, whatever the
    texts, the stop words and the tokens are. *)
Theorem preprocess_prints_indices
    (stopwords_english stopwords_english' : list String.string)
    (lower lower' : String.string -> String.string)
    (word_tokenize word_tokenize' : String.string -> list String.string)
    (texts texts' : list String.string) (out : String.string) :
  length texts = length texts' ->
  stdout (preprocess stopwords_english lower word_tokenize texts out)
  = stdout (preprocess stopwords_english' lower' word_tokenize' texts' out)
  /\ stdout (preprocess stopwords_english lower word_tokenize texts out)
     = fold_left
         (fun out i =>
            String.append out (String.append (py_str i) carriage_return))
         (seq 0 (length texts)) out.
Proof.
  intros Hlen. unfold preprocess, enumerate.
  rewrite !preprocess_loop_stdout. simpl stdout. now rewrite Hlen.
Qed.

Lemma preprocess_prints_indices_witness :
  length ["a b"%string; "c"%string] = length ["d"%string; "e"%string] /\
  stdout (preprocess ["the"%string] (fun s => s) (fun s => [s])
            ["a b"%string; "c"%string] String.EmptyString)
  = stdout (preprocess [] (fun s => s) (fun _ => [])
              ["d"%string; "e"%string] String.EmptyString)
  /\ stdout (preprocess ["the"%string] (fun s => s) (fun s => [s])
               ["a b"%string; "c"%string] String.EmptyString)
     = fold_left
         (fun out i =>
            String.append out (String.append (py_str i) carriage_return))
         (seq 0 (length ["a b"%string; "c"%string])) String.EmptyString.
Proof.
  split; [reflexivity|].
  exact (@preprocess_prints_indices ["the"%string] [] (fun s => s) (fun s => s)
           (fun s => [s]) (fun _ => []) ["a b"%string; "c"%string]
           ["d"%string; "e"%string] String.EmptyString eq_refl).
Defined.

(** * The first maximum *)


